(** * FlaxeoUI: the request dispatcher of the local HTTP server

    A shallow embedding of the Express server that drives [sd-server] and
    [sd-cli]: the argument builders of the generation endpoints, the
    temporary files they create, the two process handles ([sdProcess],
    [cliProcess]) and the shared log buffer ([serverLogs]). *)

From Stdlib Require Import ZArith QArith Qround Lia Lqa Ascii String.
From Stdlib.Strings Require Byte.
From stdpp Require Import base strings list gmap pretty.

Local Open Scope string_scope.
Local Open Scope list_scope.
Local Open Scope Z_scope.

(** ** The fragment of JavaScript the handlers rely on *)

Module Js.

(** Numbers.  The integers are kept apart from the other finite numbers
    because every number the handlers compute with (seeds, steps, pixel
    sizes) is an integer; [Frac q] carries a finite non-integer such as a
    cfg scale of 7.5.  Infinities and the precision of doubles are outside
    the model: the arithmetic below is exact, which is the arithmetic of
    doubles as long as the numbers are safe integers ([safe_integer]). *)
Inductive JsNum : Type :=
  | NaN
  | Int (z : Z)
  | Frac (q : Q).

(** [Number.MAX_SAFE_INTEGER] and [Number.isSafeInteger]: up to this
    bound a double holds every integer exactly, sums and products of
    integers that stay within it are exact, and [String] prints the
    integer digit by digit. *)
Definition MAX_SAFE_INTEGER : Z := 2 ^ 53 - 1.

Definition safe_integer (z : Z) : Prop :=
  - MAX_SAFE_INTEGER <= z <= MAX_SAFE_INTEGER.

(** The values a parsed request body holds: JSON scalars, strings (the only
    kind a multipart form carries) and arrays of strings.  Nested objects
    are outside the model. *)
Inductive JsValue : Type :=
  | JUndefined
  | JNull
  | JBool (b : bool)
  | JNum (n : JsNum)
  | JStr (s : string)
  | JArr (l : list string).

Definition num_of_Q (q : Q) : JsNum :=
  let r := Qred q in
  if decide (Qden r = 1%positive) then Int (Qnum r) else Frac r.

Definition Q_of_num (n : JsNum) : option Q :=
  match n with
  | NaN => None
  | Int z => Some (inject_Z z)
  | Frac q => Some q
  end.

(** ToBoolean *)
Definition truthy_num (n : JsNum) : bool :=
  match n with
  | NaN => false
  | Int z => negb (z =? 0)
  | Frac q => negb (Qnum q =? 0)
  end.

Definition truthy (v : JsValue) : bool :=
  match v with
  | JUndefined | JNull => false
  | JBool b => b
  | JNum n => truthy_num n
  | JStr s => negb (String.eqb s "")
  | JArr _ => true
  end.

(** [a || b] *)
Definition or (a b : JsValue) : JsValue := if truthy a then a else b.

(** [v === true || v === 'true'], the test used for the hardware flags *)
Definition is_true (v : JsValue) : bool :=
  match v with
  | JBool true => true
  | JStr s => String.eqb s "true"
  | _ => false
  end.

(** [v === s] for a string literal [s] *)
Definition is_str (v : JsValue) (s : string) : bool :=
  match v with
  | JStr t => String.eqb t s
  | _ => false
  end.

(** *** Number to string *)

Definition digit_char (d : Z) : ascii :=
  Ascii.ascii_of_nat (Z.to_nat d + 48).

(** The digits after the decimal point of [r / d], for [0 <= r < d]; the
    expansion is cut after [fuel] digits when it does not terminate. *)
Fixpoint frac_digits (fuel : nat) (r d : Z) : string :=
  match fuel with
  | O => ""
  | S fuel' =>
      if r =? 0 then ""
      else String (digit_char (r * 10 / d)) (frac_digits fuel' (r * 10 mod d) d)
  end.

Definition string_of_Q (q : Q) : string :=
  let n := Z.abs (Qnum q) in
  let d := Zpos (Qden q) in
  (if Qnum q <? 0 then "-" else "") +:+ pretty (n / d) +:+
  (if n mod d =? 0 then "" else "." +:+ frac_digits 17 (n mod d) d).

Definition string_of_num (n : JsNum) : string :=
  match n with
  | NaN => "NaN"
  | Int z => pretty z
  | Frac q => string_of_Q q
  end.

(** [String(v)] *)
Definition String_ (v : JsValue) : string :=
  match v with
  | JUndefined => "undefined"
  | JNull => "null"
  | JBool true => "true"
  | JBool false => "false"
  | JNum n => string_of_num n
  | JStr s => s
  | JArr l => String.concat "," l
  end.

(** *** String to number *)

Definition is_space (c : ascii) : bool :=
  let n := Ascii.nat_of_ascii c in
  ((n =? 32) || (n =? 9) || (n =? 10) || (n =? 11) || (n =? 12) || (n =? 13))%nat.

Fixpoint skip_space (s : string) : string :=
  match s with
  | String c s' => if is_space c then skip_space s' else s
  | EmptyString => s
  end.

Definition dec_digit (c : ascii) : option Z :=
  let n := Z.of_nat (Ascii.nat_of_ascii c) in
  if (48 <=? n) && (n <=? 57) then Some (n - 48) else None.

Definition hex_digit (c : ascii) : option Z :=
  let n := Z.of_nat (Ascii.nat_of_ascii c) in
  if (48 <=? n) && (n <=? 57) then Some (n - 48)
  else if (97 <=? n) && (n <=? 102) then Some (n - 87)
  else if (65 <=? n) && (n <=? 70) then Some (n - 55)
  else None.

(** Reads the longest run of digits in the given radix: the value read so
    far, how many digits were read, and the rest of the string. *)
Fixpoint read_digits (digit : ascii -> option Z) (radix : Z)
    (acc : Z) (count : nat) (s : string) : Z * nat * string :=
  match s with
  | String c s' =>
      match digit c with
      | Some d => read_digits digit radix (acc * radix + d) (S count) s'
      | None => (acc, count, s)
      end
  | EmptyString => (acc, count, s)
  end.

Definition read_sign (s : string) : Z * string :=
  match s with
  | String "-" s' => (-1, s')
  | String "+" s' => (1, s')
  | _ => (1, s)
  end.

Definition has_hex_prefix (s : string) : option string :=
  match s with
  | String "0" (String "x" s') => Some s'
  | String "0" (String "X" s') => Some s'
  | _ => None
  end.

(** [parseInt] on a string: leading white space, a sign, then a hexadecimal
    or decimal prefix; [NaN] when there is no digit. *)
Definition parseInt_string (s : string) : JsNum :=
  let '(sign, s1) := read_sign (skip_space s) in
  match has_hex_prefix s1 with
  | Some s2 =>
      let '(v, k, _) := read_digits hex_digit 16 0 O s2 in
      if k is O then NaN else Int (sign * v)
  | None =>
      let '(v, k, _) := read_digits dec_digit 10 0 O s1 in
      if k is O then NaN else Int (sign * v)
  end.

(** A decimal literal [digits [. digits] [e [sign] digits]] at the head of
    the string: its value and the rest, or [None] when the mantissa has no
    digit. *)
Definition read_decimal (s : string) : option (Q * string) :=
  let '(ip, ik, s1) := read_digits dec_digit 10 0 O s in
  let '(fp, fk, s2) :=
    match s1 with
    | String "." s1' => read_digits dec_digit 10 0 O s1'
    | _ => (0, O, s1)
    end in
  if (ik + fk =? 0)%nat then None
  else
    let mant := (ip * 10 ^ Z.of_nat fk + fp) # Z.to_pos (10 ^ Z.of_nat fk) in
    let with_exp (s3 : string) :=
      let '(esign, s4) := read_sign s3 in
      let '(e, ek, s5) := read_digits dec_digit 10 0 O s4 in
      if ek is O then None
      else Some (if esign <? 0 then (mant / inject_Z (10 ^ e))%Q
                 else (mant * inject_Z (10 ^ e))%Q, s5) in
    let dflt := (mant, match s1 with
                        | String "." _ => s2
                        | _ => s1
                        end) in
    Some match snd dflt with
         | String "e" s3 | String "E" s3 => default dflt (with_exp s3)
         | _ => dflt
         end.

(** [parseFloat] on a string *)
Definition parseFloat_string (s : string) : JsNum :=
  let '(sign, s1) := read_sign (skip_space s) in
  match read_decimal s1 with
  | Some (q, _) => num_of_Q (inject_Z sign * q)%Q
  | None => NaN
  end.

(** ToNumber on a string: the whole string, white space trimmed, has to
    be a numeric literal; the empty string is 0. *)
Definition Number_string (s : string) : JsNum :=
  let t := skip_space s in
  if String.eqb (skip_space t) "" then Int 0
  else match has_hex_prefix t with
       | Some t' =>
           let '(v, k, rest) := read_digits hex_digit 16 0 O t' in
           if (negb (Nat.eqb k 0)) && String.eqb (skip_space rest) ""
           then Int v else NaN
       | None =>
           let '(sign, t1) := read_sign t in
           match read_decimal t1 with
           | Some (q, rest) =>
               if String.eqb (skip_space rest) ""
               then num_of_Q (inject_Z sign * q)%Q else NaN
           | None => NaN
           end
       end.

(** ToNumber *)
Definition Number_ (v : JsValue) : JsNum :=
  match v with
  | JUndefined => NaN
  | JNull => Int 0
  | JBool b => Int (if b then 1 else 0)
  | JNum n => n
  | JStr s => Number_string s
  | JArr l => Number_string (String.concat "," l)
  end.

(** [parseInt(v)] and [parseFloat(v)] first turn [v] into a string; on a
    number that prints without an exponent the result is the number
    truncated towards zero, respectively the number itself. *)
Definition parseInt (v : JsValue) : JsNum :=
  match v with
  | JNum NaN => NaN
  | JNum (Int z) => Int z
  | JNum (Frac q) => Int (Z.quot (Qnum q) (Zpos (Qden q)))
  | _ => parseInt_string (String_ v)
  end.

Definition parseFloat (v : JsValue) : JsNum :=
  match v with
  | JNum n => n
  | _ => parseFloat_string (String_ v)
  end.

(** *** Arithmetic *)

Definition div (n : JsNum) (d : positive) : JsNum :=
  match Q_of_num n with
  | Some q => num_of_Q (q / inject_Z (Zpos d))%Q
  | None => NaN
  end.

Definition mul (n : JsNum) (k : Z) : JsNum :=
  match n with
  | NaN => NaN
  | Int z => Int (z * k)
  | Frac q => num_of_Q (q * inject_Z k)%Q
  end.

Definition add (n : JsNum) (k : Z) : JsNum :=
  match n with
  | NaN => NaN
  | Int z => Int (z + k)
  | Frac q => num_of_Q (q + inject_Z k)%Q
  end.

(** [Math.round]: the nearest integer, a tie going up *)
Definition round (n : JsNum) : JsNum :=
  match n with
  | NaN => NaN
  | Int z => Int z
  | Frac q => Int (Qfloor (q + (1 # 2))%Q)
  end.

(** [a === b] on numbers ([NaN] is not equal to itself) *)
Definition num_eqb (a b : JsNum) : bool :=
  match Q_of_num a, Q_of_num b with
  | Some x, Some y => Qeq_bool x y
  | _, _ => false
  end.

(** [a < b] and [a > b] on numbers (false when either is [NaN]) *)
Definition num_ltb (a b : JsNum) : bool :=
  match Q_of_num a, Q_of_num b with
  | Some x, Some y => negb (Qle_bool y x)
  | _, _ => false
  end.

(** [s.includes(needle)] *)
Fixpoint includes (s needle : string) : bool :=
  String.prefix needle s ||
  match s with
  | String _ s' => includes s' needle
  | EmptyString => false
  end.

End Js.

(** ** Paths, command lines, the file system and the server state *)

(** [path.join] without the normalisation of [.] and [..] segments. *)
Definition path_join (parts : list string) : string := String.concat "/" parts.

(** What one [args.push(...)] adds: a bare flag, or a flag and its value. *)
Inductive Arg : Type :=
  | Flag (name : string)
  | Opt (name value : string).

Definition arg_name (a : Arg) : string :=
  match a with
  | Flag n => n
  | Opt n _ => n
  end.

Definition arg_tokens (a : Arg) : list string :=
  match a with
  | Flag n => [n]
  | Opt n v => [n; v]
  end.

(** The array handed to [spawn]. *)
Definition tokens (args : list Arg) : list string := args ≫= arg_tokens.

(** The flags of a command line, without their values. *)
Definition flags (args : list Arg) : list string := arg_name <$> args.

(** [if (c) args.push(...)] *)
Definition when (c : bool) (args : list Arg) : list Arg := if c then args else [].

(** The one-element list [[x]] when [c] holds, the empty list otherwise. *)
Definition when' {A : Type} (c : bool) (x : A) : list A := if c then [x] else [].

(** Does the command line carry the flag [f]? *)
Definition has_flag (f : string) (args : list Arg) : bool :=
  existsb (λ a, String.eqb (arg_name a) f) args.

(** The values the command line gives to the option [f], in order. *)
Definition opt_values (f : string) (args : list Arg) : list string :=
  omap (λ a, match a with
             | Opt n v => if String.eqb n f then Some v else None
             | Flag _ => None
             end) args.

(** The tokens [run] stand next to each other in the array [l]. *)
Definition run_of (run l : list string) : Prop :=
  ∃ pre post, l = pre ++ run ++ post.

(** The file system as the set of the paths that exist. *)
Abbreviation Disk := (gset string).

Definition existsSync (p : string) (d : Disk) : bool := bool_decide (p ∈ d).

Definition mkdirSync (p : string) (d : Disk) : Disk := {[p]} ∪ d.

Definition writeFileSync (p : string) (d : Disk) : Disk := {[p]} ∪ d.

Definition copyFileSync (src dst : string) (d : Disk) : Disk := {[dst]} ∪ d.

Definition unlinkSync (p : string) (d : Disk) : Disk := d ∖ {[p]}.

Definition is_under (dir p : string) : bool := String.prefix (dir +:+ "/") p.

(** [fs.readdirSync(dir).length > 0] *)
Definition readdir_nonempty (dir : string) (d : Disk) : bool :=
  existsb (is_under dir) (elements d).

(** [fs.rmSync(dir, { recursive: true, force: true })] *)
Definition rmSync (dir : string) (d : Disk) : Disk :=
  filter (λ p, p ≠ dir ∧ is_under dir p = false) d.

(** A child process as [spawn] creates it. *)
Record Proc : Type := mkProc {
  pid : nat;
  command : string;
  argv : list string;
  cwd : string;
  inherit_stdio : bool
}.

(** The mutable globals of the server, the file system, and the record of
    what was asked of the operating system (processes spawned, signals
    sent). *)
Record State : Type := mkState {
  sdProcess : option Proc;
  cliProcess : option Proc;
  serverLogs : list string;
  lastSdArgs : option (list string);
  activeVersion : string;
  disk : Disk;
  spawned : list Proc;
  signals : list (nat * string)
}.

Definition set_sdProcess (v : option Proc) (st : State) : State :=
  mkState v (cliProcess st) (serverLogs st) (lastSdArgs st)
          (activeVersion st) (disk st) (spawned st) (signals st).

Definition set_cliProcess (v : option Proc) (st : State) : State :=
  mkState (sdProcess st) v (serverLogs st) (lastSdArgs st)
          (activeVersion st) (disk st) (spawned st) (signals st).

Definition set_serverLogs (v : list string) (st : State) : State :=
  mkState (sdProcess st) (cliProcess st) v (lastSdArgs st)
          (activeVersion st) (disk st) (spawned st) (signals st).

Definition set_lastSdArgs (v : option (list string)) (st : State) : State :=
  mkState (sdProcess st) (cliProcess st) (serverLogs st) v
          (activeVersion st) (disk st) (spawned st) (signals st).

Definition set_disk (v : Disk) (st : State) : State :=
  mkState (sdProcess st) (cliProcess st) (serverLogs st) (lastSdArgs st)
          (activeVersion st) v (spawned st) (signals st).

(** [spawn(command, args, { cwd })]: the new process gets the next free
    process id; a binary that cannot be started is reported later, through
    the [error] event. *)
Definition spawn (cmd : string) (args : list string) (dir : string)
    (inherit : bool) (st : State) : Proc * State :=
  let p := mkProc (length (spawned st)) cmd args dir inherit in
  (p, mkState (sdProcess st) (cliProcess st) (serverLogs st) (lastSdArgs st)
              (activeVersion st) (disk st) (spawned st ++ [p]) (signals st)).

(** [p.kill(sig)] *)
Definition kill (p : Proc) (sig : string) (st : State) : State :=
  mkState (sdProcess st) (cliProcess st) (serverLogs st) (lastSdArgs st)
          (activeVersion st) (disk st) (spawned st) (signals st ++ [(pid p, sig)]).

(** JSON response bodies: an object of scalar and string-list fields. *)
Inductive Json : Type :=
  | JsonStr (s : string)
  | JsonNum (n : Z)
  | JsonBool (b : bool)
  | JsonList (l : list string).

Record Response : Type := mkResponse {
  status : Z;
  payload : list (string * Json)
}.

(** [res.json(obj)] and [res.status(code).json(obj)] *)
Definition json (fields : list (string * Json)) : Response :=
  mkResponse 200 fields.

Definition status_json (code : Z) (fields : list (string * Json)) : Response :=
  mkResponse code fields.

(** What reaches a handler: the parsed body, and the files of a multipart
    upload in the order they arrive. *)
Record Upload : Type := mkUpload {
  fieldname : string;
  originalname : string;
  stored_at : Z
}.

Record Request : Type := mkRequest {
  body : gmap string Js.JsValue;
  uploads : list Upload
}.

(** [const { name } = req.body] *)
Definition field (b : gmap string Js.JsValue) (name : string) : Js.JsValue :=
  default Js.JUndefined (b !! name).

(** A body whose fields are all strings, as the body of a multipart form
    is; the handlers hand such fields to [path.join], [includes] and
    [spawn], which throw on a value of another type. *)
Definition strings_only (b : gmap string Js.JsValue) : Prop :=
  ∀ k v, b !! k = Some v -> ∃ s, v = Js.JStr s.

(** The field list of a route, [upload.fields([{ name, maxCount }, ...])]
    and [upload.single(name)], which is [fields] with the one name and
    [maxCount] 1.  [multer] lets a request through when every file it
    carries comes under a listed field and no field has more files than
    its [maxCount]; otherwise it fails the request with
    [LIMIT_UNEXPECTED_FILE] and the handler of the route is not
    called. *)
Definition multer_accepts (fields : list (string * nat)) (ups : list Upload)
    : bool :=
  forallb (λ u, existsb (λ f, String.eqb (fieldname u) f.1) fields) ups &&
  forallb (λ f, (length (filter (λ u, fieldname u = f.1) ups) <=? f.2)%nat)
          fields.

(** [path.basename]: the last non-empty segment of a path *)
Fixpoint segments (cur s : string) : list string :=
  match s with
  | EmptyString => [cur]
  | String c s' =>
      if Ascii.eqb c "/" then cur :: segments "" s'
      else segments (cur +:+ String c "") s'
  end.

Definition basename (s : string) : string :=
  default "" (last (filter (λ x, x ≠ "") (segments "" s))).

(** The request object a handler sees once the upload middleware of its
    route has run. *)
Record Req : Type := mkReq {
  req_body : gmap string Js.JsValue;
  req_files : gmap string (list string);
  req_file : option string;
  req_pmImagesDir : option string;
  req_kontextRefDir : option string
}.

Definition add_file (name path : string) (r : Req) : Req :=
  mkReq (req_body r)
        (<[name := default [] (req_files r !! name) ++ [path]]> (req_files r))
        (req_file r) (req_pmImagesDir r) (req_kontextRefDir r).

(** [req.files && req.files[name] && req.files[name][0]] *)
Definition first_file (r : Req) (name : string) : option string :=
  req_files r !! name ≫= head.

(** How an [await]ed child process ends: the [close] event with its exit
    code ([None] is the [null] code of a process ended by a signal), or
    the [error] event. *)
Inductive Settle : Type :=
  | Closed (code : option Z)
  | Errored (msg : string).

(** The [close] event of a child process that exits with [code] when it
    is left alone: a process that has been sent a signal is ended by the
    signal, and closes with the null code. *)
Definition close_event (p : Proc) (code : Z) (st : State) : Settle :=
  if bool_decide (pid p ∈ (signals st).*1) then Closed None
  else Closed (Some code).

(** A handler suspended at its [await]: what it keeps in local variables
    for the code after the [await]. *)
Record Pending : Type := mkPending {
  p_proc : Proc;
  p_filename : string;
  p_outputPath : string;
  p_pmImagesDir : option string;
  p_kontextRefDir : option string;
  p_uploaded : list string;
  p_output : string
}.

(** A handler either answers before it returns, or is left waiting for
    its child process. *)
Inductive Started : Type :=
  | Responded (r : Response)
  | Awaiting (p : Pending).

(** A field that the handlers use as text (a prompt, a file name, a
    sampler name) is a string when it is present. *)
Definition text (v : Js.JsValue) : string := Js.String_ v.

(** What one call of the inference server comes to: an image, a response
    that is not ok, a response without data, or a failed [fetch]. *)
Inductive Reply : Type :=
  | Image (b64 : string)
  | NotOk (text : string)
  | NoData
  | FetchFailed (msg : string).

(** ** Start-up: the arguments of the server and its port *)

(** [args.indexOf(name)] *)
Definition indexOf (args : list string) (name : string) : option nat :=
  fst <$> list_find (λ a, a = name) args.

(** [const i = args.indexOf(name);
     return (i !== -1 && args[i + 1]) ? args[i + 1] : def] *)
Definition getArg (args : list string) (name def : string) : string :=
  match indexOf args name with
  | Some i =>
      match args !! S i with
      | Some v => if Js.truthy (Js.JStr v) then v else def
      | None => def
      end
  | None => def
  end.

Definition hasFlag (args : list string) (name : string) : bool :=
  bool_decide (name ∈ args).

Definition PORT (args : list string) : Js.JsNum :=
  Js.parseInt (Js.JStr (getArg args "--port" "3000")).

Definition HOST (args : list string) : string :=
  if hasFlag args "--local" then "0.0.0.0" else getArg args "--host" "localhost".

(** What [s.listen(port, '0.0.0.0')] comes to: the [listening] callback,
    with the port of [s.address()], or the [error] event with its code. *)
Inductive ListenResult : Type :=
  | Listening (port : Z)
  | ListenError (code : string).

(** [findAvailablePort]: the promise resolves with a port or is rejected
    with an error; [fuel] bounds the number of ports tried. *)
Fixpoint findAvailablePort (listen : Z -> ListenResult) (fuel : nat)
    (startPort : Z) : option (string + Z) :=
  match fuel with
  | O => None
  | S fuel' =>
      match listen startPort with
      | Listening port => Some (inr port)
      | ListenError code =>
          if String.eqb code "EADDRINUSE"
          then findAvailablePort listen fuel' (startPort + 1)
          else Some (inl code)
      end
  end.

(** ** Reading the parameters stored in a PNG file *)

Abbreviation byte := Byte.byte.

#[local] Instance byte_eq_dec : EqDecision byte := Byte.byte_eq_dec.

(** [Buffer.alloc(1024 * 1024)] *)
Definition BUFFER_LENGTH : Z := 1024 * 1024.

(** The bytes [start .. end) of the buffer, once [fs.readSync] has
    copied the head of the file into it: what [buffer.toString(enc,
    start, end)] decodes.  The buffer is zero-filled behind the file and
    [end] is cut at the length of the buffer. *)
Definition buffer_bytes (file : list byte) (start stop : Z) : list byte :=
  (λ i, default Byte.x00 (file !! Z.to_nat i))
    <$> seqZ start (Z.min stop BUFFER_LENGTH - start).

Definition be32 (bs : list byte) : Z :=
  foldl (λ acc b, acc * 256 + Z.of_N (Byte.to_N b)) 0 bs.

(** [buffer.readUInt32BE(offset)]; [None] is the [RangeError] of a read
    that does not fit in the buffer. *)
Definition readUInt32BE (file : list byte) (offset : Z) : option Z :=
  if offset + 4 <=? BUFFER_LENGTH
  then Some (be32 (buffer_bytes file offset (offset + 4)))
  else None.

(** A string literal of the source as the bytes it is compared with: the
    literals are ASCII, and a decoded string equals one exactly when the
    bytes are those of the literal. *)
Definition ascii_bytes (s : string) : list byte := String.list_byte_of_string s.

Definition PNG_MAGIC : list byte :=
  [Byte.x89; Byte.x50; Byte.x4e; Byte.x47; Byte.x0d; Byte.x0a; Byte.x1a; Byte.x0a].

(** The body of the [if (type === 'tEXt')] block: the text when the
    keyword is [parameters]. *)
Definition tEXt_parameters (file : list byte) (dataOffset length : Z)
    : option (list byte) :=
  match list_find (λ b, b = Byte.x00)
                  (buffer_bytes file dataOffset (dataOffset + length)) with
  | Some (i, _) =>
      let nullByteIndex := Z.of_nat i in
      if 0 <? nullByteIndex then
        let keyword := buffer_bytes file dataOffset (dataOffset + nullByteIndex) in
        let text := buffer_bytes file (dataOffset + nullByteIndex + 1)
                                 (dataOffset + length) in
        if bool_decide (keyword = ascii_bytes "parameters") then Some text else None
      else None
  | None => None
  end.

(** The [while (offset < bytesRead)] loop; the outer [None] is a loop
    that has not ended within [fuel] chunks, the inner one is [null]. *)
Fixpoint readPngParams_loop (file : list byte) (bytesRead : Z) (fuel : nat)
    (offset : Z) : option (option (list byte)) :=
  match fuel with
  | O => None
  | S fuel' =>
      if offset <? bytesRead then
        match readUInt32BE file offset with
        | None => Some None
        | Some length =>
            let type := buffer_bytes file (offset + 4) (offset + 8) in
            let dataOffset := offset + 8 in
            match (if bool_decide (type = ascii_bytes "tEXt")
                   then tEXt_parameters file dataOffset length else None) with
            | Some text => Some (Some text)
            | None => readPngParams_loop file bytesRead fuel' (offset + 12 + length)
            end
        end
      else Some None
  end.

(** [readPngParams(filePath)] on the content of the file, [None] for a
    path that does not exist.  The text is returned as its bytes. *)
Definition readPngParams (content : option (list byte))
    : option (option (list byte)) :=
  match content with
  | None => Some None
  | Some file =>
      let bytesRead := Z.min (Z.of_nat (length file)) BUFFER_LENGTH in
      if bool_decide (buffer_bytes file 0 8 = PNG_MAGIC)
      then readPngParams_loop file bytesRead (S (Z.to_nat bytesRead)) 8
      else Some None
  end.

(** A chunk as the loop walks it: length (4 bytes), type (4 bytes), data,
    CRC (4 bytes). *)
Record Chunk : Type := mkChunk {
  c_length : list byte;
  c_type : list byte;
  c_data : list byte;
  c_crc : list byte
}.

Definition chunk_bytes (c : Chunk) : list byte :=
  c_length c ++ c_type c ++ c_data c ++ c_crc c.

Definition chunk_wf (c : Chunk) : Prop :=
  length (c_length c) = 4%nat ∧ length (c_type c) = 4%nat ∧
  length (c_crc c) = 4%nat ∧ be32 (c_length c) = Z.of_nat (length (c_data c)).

(** The chunks the loop passes over. *)
Definition chunk_skipped (c : Chunk) : Prop :=
  c_type c ≠ ascii_bytes "tEXt" ∨
  ¬ (ascii_bytes "parameters" ++ [Byte.x00]) `prefix_of` c_data c.


(** ** [path.join] with its normalisation *)

(** [normalizeString]: the segments of a path, the empty ones and [.]
    dropped, [..] taking back the segment before it; above the root [..]
    is kept when [allowAboveRoot] and dropped otherwise. *)
Fixpoint normalizeString (allowAboveRoot : bool) (res segs : list string)
    : list string :=
  match segs with
  | [] => res
  | s :: segs' =>
      if bool_decide (s = "" ∨ s = ".") then normalizeString allowAboveRoot res segs'
      else if bool_decide (s = "..") then
        match last res with
        | Some l =>
            if bool_decide (l = "..")
            then normalizeString allowAboveRoot
                   (if allowAboveRoot then res ++ [".."] else res) segs'
            else normalizeString allowAboveRoot (removelast res) segs'
        | None =>
            normalizeString allowAboveRoot
              (if allowAboveRoot then [".."] else []) segs'
        end
      else normalizeString allowAboveRoot (res ++ [s]) segs'
  end.

(** [path.posix.normalize] *)
Definition posix_normalize (path : string) : string :=
  if String.eqb path "" then "."
  else
    let segs := segments "" path in
    let isAbsolute := bool_decide (head segs = Some "") in
    let trailingSeparator := bool_decide (last segs = Some "") in
    let res := normalizeString (negb isAbsolute) [] segs in
    match res with
    | [] => if isAbsolute then "/" else if trailingSeparator then "./" else "."
    | _ =>
        (if isAbsolute then "/" else "") +:+ String.concat "/" res +:+
        (if trailingSeparator then "/" else "")
    end.

(** [path.posix.join] *)
Definition posix_join (parts : list string) : string :=
  match filter (λ p, p ≠ "") parts with
  | [] => "."
  | ps => posix_normalize (String.concat "/" ps)
  end.

(** A segment that [path.normalize] keeps as it is: a name without [/] that
    is neither empty nor [.] nor [..]. *)
Definition plain_segment (s : string) : Prop :=
  s ≠ "" ∧ s ≠ "." ∧ s ≠ ".." ∧ segments "" s = [s].

(** ** The parameters text of an image *)

Module JsString.

(** [s.split(sep)] for a non-empty separator: [skip] counts the
    characters of a separator that are still to be passed over. *)
Fixpoint split_go (sep cur : string) (skip : nat) (s : string) : list string :=
  match s with
  | EmptyString => [cur]
  | String c s' =>
      match skip with
      | S k => split_go sep cur k s'
      | O =>
          if String.prefix sep s
          then cur :: split_go sep "" (String.length sep - 1) s'
          else split_go sep (cur +:+ String c "") 0 s'
      end
  end.

Definition split (sep s : string) : list string := split_go sep "" 0 s.

(** The white space and the line terminators of ECMAScript, as the
    UTF-8 bytes of each code point: U+0009 to U+000D, U+0020, U+00A0,
    U+1680, U+2000 to U+200A, U+2028, U+2029, U+202F, U+205F, U+3000
    and U+FEFF. *)
Definition white_space : list string :=
  [ String "009" ""; String "010" ""; String "011" ""; String "012" "";
    String "013" ""; String "032" "";
    String "194" (String "160" "");
    String "225" (String "154" (String "128" ""));
    String "226" (String "128" (String "128" ""));
    String "226" (String "128" (String "129" ""));
    String "226" (String "128" (String "130" ""));
    String "226" (String "128" (String "131" ""));
    String "226" (String "128" (String "132" ""));
    String "226" (String "128" (String "133" ""));
    String "226" (String "128" (String "134" ""));
    String "226" (String "128" (String "135" ""));
    String "226" (String "128" (String "136" ""));
    String "226" (String "128" (String "137" ""));
    String "226" (String "128" (String "138" ""));
    String "226" (String "128" (String "168" ""));
    String "226" (String "128" (String "169" ""));
    String "226" (String "128" (String "175" ""));
    String "226" (String "129" (String "159" ""));
    String "227" (String "128" (String "128" ""));
    String "239" (String "187" (String "191" "")) ].

(** [s.trimStart()]: [skip] counts the bytes of a white space character
    that are still to be passed over. *)
Fixpoint trimStart_go (skip : nat) (s : string) : string :=
  match s with
  | EmptyString => ""
  | String c s' =>
      match skip with
      | S k => trimStart_go k s'
      | O =>
          match List.find (fun w => String.prefix w s) white_space with
          | Some w => trimStart_go (String.length w - 1) s'
          | None => s
          end
      end
  end.

Definition trimStart (s : string) : string := trimStart_go 0 s.

(** [s.trimEnd()]: what is left is cut where only white space follows. *)
Fixpoint trimEnd (s : string) : string :=
  if String.eqb (trimStart s) "" then ""
  else match s with
       | EmptyString => ""
       | String c s' => String c (trimEnd s')
       end.

(** [s.trim()] *)
Definition trim (s : string) : string := trimEnd (trimStart s).

Fixpoint string_drop (n : nat) (s : string) : string :=
  match n, s with
  | S k, String _ s' => string_drop k s'
  | _, _ => s
  end.

(** [s.replace(pat, rep)] for a string pattern: the first occurrence. *)
Fixpoint replace (pat rep s : string) : string :=
  if String.prefix pat s then rep +:+ string_drop (String.length pat) s
  else match s with
       | EmptyString => ""
       | String c s' => String c (replace pat rep s')
       end.

End JsString.

(** The object the route answers with; [None] is a property that is not
    set, or is set to [undefined]. *)
Record ImageParams : Type := mkImageParams {
  ip_prompt : option string;
  ip_negativePrompt : option string;
  ip_steps : option Js.JsNum;
  ip_cfgScale : option Js.JsNum;
  ip_seed : option Js.JsNum;
  ip_width : option Js.JsNum;
  ip_height : option Js.JsNum;
  ip_sampler : option string;
  ip_scheduler : option string;
  ip_diffusionModel : option string
}.

Definition no_params : ImageParams :=
  mkImageParams None None None None None None None None None None.

(** The body of the loop over the lines after the first. *)
Definition image_params_line (acc : string * string * string) (line : string)
    : string * string * string :=
  let '(prompt, negativePrompt, otherParams) := acc in
  if String.prefix "Negative prompt:" line then
    (prompt, JsString.trim (JsString.replace "Negative prompt:" "" line), otherParams)
  else if String.prefix "Steps:" line then (prompt, negativePrompt, line)
  else if String.eqb negativePrompt "" && String.eqb otherParams "" then
    (prompt +:+ String "010" line, negativePrompt, otherParams)
  else acc.

(** [parseInt(v)] and [parseFloat(v)] on a value that may be [undefined] *)
Definition opt_value (v : option string) : Js.JsValue :=
  from_option Js.JStr Js.JUndefined v.

(** The body of [pairs.forEach] once [k] and [v] are bound; [None] is
    the [TypeError] of [v.split('x')] on an undefined [v]. *)
Definition image_params_assign (r : ImageParams) (k : string) (v : option string)
    : option ImageParams :=
  let r1 :=
    if String.eqb k "Steps" then
      mkImageParams (ip_prompt r) (ip_negativePrompt r)
        (Some (Js.parseInt (opt_value v))) (ip_cfgScale r) (ip_seed r)
        (ip_width r) (ip_height r) (ip_sampler r) (ip_scheduler r)
        (ip_diffusionModel r)
    else r in
  let r2 :=
    if String.eqb k "CFG scale" then
      mkImageParams (ip_prompt r1) (ip_negativePrompt r1) (ip_steps r1)
        (Some (Js.parseFloat (opt_value v))) (ip_seed r1)
        (ip_width r1) (ip_height r1) (ip_sampler r1) (ip_scheduler r1)
        (ip_diffusionModel r1)
    else r1 in
  let r3 :=
    if String.eqb k "Seed" then
      mkImageParams (ip_prompt r2) (ip_negativePrompt r2) (ip_steps r2)
        (ip_cfgScale r2) (Some (Js.parseInt (opt_value v)))
        (ip_width r2) (ip_height r2) (ip_sampler r2) (ip_scheduler r2)
        (ip_diffusionModel r2)
    else r2 in
  r4 ←
    (if String.eqb k "Size" then
       match v with
       | None => None
       | Some v' =>
           match JsString.split "x" v' with
           | [w; h] =>
               Some (mkImageParams (ip_prompt r3) (ip_negativePrompt r3)
                       (ip_steps r3) (ip_cfgScale r3) (ip_seed r3)
                       (Some (Js.parseInt (Js.JStr w)))
                       (Some (Js.parseInt (Js.JStr h)))
                       (ip_sampler r3) (ip_scheduler r3) (ip_diffusionModel r3))
           | _ => Some r3
           end
       end
     else Some r3);
  let r5 :=
    if String.eqb k "Sampler" then
      mkImageParams (ip_prompt r4) (ip_negativePrompt r4) (ip_steps r4)
        (ip_cfgScale r4) (ip_seed r4) (ip_width r4) (ip_height r4)
        v (ip_scheduler r4) (ip_diffusionModel r4)
    else r4 in
  let r6 :=
    if String.eqb k "Scheduler" then
      mkImageParams (ip_prompt r5) (ip_negativePrompt r5) (ip_steps r5)
        (ip_cfgScale r5) (ip_seed r5) (ip_width r5) (ip_height r5)
        (ip_sampler r5) v (ip_diffusionModel r5)
    else r5 in
  Some (if String.eqb k "Model" then
          mkImageParams (ip_prompt r6) (ip_negativePrompt r6) (ip_steps r6)
            (ip_cfgScale r6) (ip_seed r6) (ip_width r6) (ip_height r6)
            (ip_sampler r6) (ip_scheduler r6) v
        else r6).

(** [const [k, v] = p.split(': ')] and the body of [pairs.forEach] *)
Definition image_params_pair (r : ImageParams) (p : string) : option ImageParams :=
  let kv := JsString.split ": " p in
  image_params_assign r (default "" (kv !! 0%nat)) (kv !! 1%nat).

(** What the route makes of the text [readPngParams] returned. *)
Definition image_params_parse (paramsText : option string) : option ImageParams :=
  match paramsText with
  | None | Some EmptyString => Some no_params
  | Some paramsText =>
      let lines := JsString.split (String "010" "") paramsText in
      let '(prompt, negativePrompt, otherParams) :=
        foldl image_params_line (default "" (head lines), "", "") (tail lines) in
      let result :=
        mkImageParams (Some (JsString.trim prompt)) (Some (JsString.trim negativePrompt))
                      None None None None None None None None in
      if String.eqb otherParams "" then Some result
      else foldl (λ r p, r ≫= λ r, image_params_pair r p) (Some result)
                 (JsString.split ", " otherParams)
  end.

(** [sep] occurs nowhere in [s]. *)
Fixpoint sep_free (sep s : string) : bool :=
  match s with
  | EmptyString => true
  | String c s' => negb (String.prefix sep s) && sep_free sep s'
  end.

(** A separator no occurrence of which can start in a text free of it
    and run into what follows, the separator again or the end. *)
Definition no_overlap (sep : string) : Prop :=
  sep ≠ "" ∧
  ∀ c s r, sep_free sep (String c s) = true ->
    String.prefix sep (String c s +:+ sep +:+ r) = false ∧
    String.prefix sep (String c s) = false.

Definition newline : string := String "010" "".

(** The parameters text in the form the route is written for: the
    prompt, the negative prompt, and a line of [key: value] items. *)
Definition params_text (prompt negativePrompt : string) (items : list string)
    : string :=
  prompt +:+ newline +:+ "Negative prompt: " +:+ negativePrompt +:+ newline +:+
  String.concat ", " items.

(** The items the stable-diffusion front ends write on the last line *)
Definition params_items (steps sampler cfgScale seed width height model : string)
    : list string :=
  [ "Steps: " +:+ steps; "Sampler: " +:+ sampler; "CFG scale: " +:+ cfgScale;
    "Seed: " +:+ seed; "Size: " +:+ width +:+ "x" +:+ height;
    "Model: " +:+ model ].

(** ** Example requests and states *)

Definition is_quote (c : ascii) : bool := (Ascii.nat_of_ascii c =? 34)%nat.

(** [JSON.parse] read on an array of plain string literals, a list of file
    names between square brackets; any other text counts as a parse
    error. *)
Fixpoint parse_names_go (s : string) (cur : option string) (acc : list string)
    : option (list string) :=
  match s, cur with
  | EmptyString, _ => None
  | String c s', Some w =>
      if is_quote c then parse_names_go s' None (acc ++ [w])
      else parse_names_go s' (Some (w +:+ String c "")) acc
  | String c s', None =>
      if is_quote c then parse_names_go s' (Some "") acc
      else if Ascii.eqb c "," || Js.is_space c then parse_names_go s' None acc
      else if Ascii.eqb c "]" then Some acc
      else None
  end.

Definition parse_names (s : string) : option (list string) :=
  match Js.skip_space s with
  | String "[" s' => parse_names_go s' None []
  | _ => None
  end.

Definition idle_state : State := mkState None None [] None "custom" ∅ [] [].

Definition sd_server : Proc :=
  mkProc 0 "/opt/flaxeo/backend/custom/sd-server" ["--listen-port"; "1234"; "-v"]
         "/opt/flaxeo/backend/custom" false.

Definition serving_state : State :=
  mkState (Some sd_server) None [] None "custom" ∅ [sd_server] [].

Definition first_job : Proc :=
  mkProc 0 "/opt/flaxeo/backend/custom/sd-cli" ["-m"; "sd15.safetensors"; "-v"]
         "/opt/flaxeo/backend/custom" true.

Definition busy_state : State :=
  mkState None (Some first_job) [] None "custom" ∅ [first_job] [].

Definition scenario_request : gmap string Js.JsValue :=
  list_to_map [("diffusionModel", Js.JStr "sd15.safetensors");
               ("prompt", Js.JStr "a cat");
               ("width", Js.JNum (Js.Int 1000));
               ("height", Js.JNum (Js.Int 777));
               ("steps", Js.JNum (Js.Int 20));
               ("seed", Js.JNum (Js.Int 42))].

Definition split_request : gmap string Js.JsValue :=
  list_to_map [("loadMode", Js.JStr "split");
               ("diffusionModel", Js.JStr "flux1-dev.gguf");
               ("clipL", Js.JStr "clip_l.safetensors");
               ("t5xxl", Js.JStr "t5xxl_fp16.safetensors");
               ("vae", Js.JStr "ae.safetensors");
               ("prompt", Js.JStr "a cat")].

Definition standard_request : gmap string Js.JsValue :=
  list_to_map [("loadMode", Js.JStr "standard");
               ("diffusionModel", Js.JStr "sd15.safetensors");
               ("prompt", Js.JStr "a cat")].

Definition zero_request : gmap string Js.JsValue :=
  list_to_map [("diffusionModel", Js.JStr "sd15.safetensors");
               ("prompt", Js.JStr "a cat");
               ("seed", Js.JNum (Js.Int 0));
               ("steps", Js.JNum (Js.Int 0));
               ("cfg_scale", Js.JNum (Js.Int 0))].

Definition batch_request (S : Z) : gmap string Js.JsValue :=
  list_to_map [("prompt", Js.JStr "a cat");
               ("width", Js.JNum (Js.Int 512));
               ("height", Js.JNum (Js.Int 512));
               ("seed", Js.JNum (Js.Int S));
               ("batch_size", Js.JNum (Js.Int 3))].

Definition every_reply_an_image : Z -> Reply := λ _, Image "iVBORw0KGgo=".

Definition clock : Z -> Z := λ i, 1700000000000 + i.

Definition inpaint_job : Pending :=
  mkPending first_job "inpaint_1700000000000.png"
            "/opt/flaxeo/output/inpaint_1700000000000.png" None None [] "".

(** A text-to-image request as the upload middleware leaves it when a
    Kontext reference image came with it, and a disk on which the
    directory of that image is left. *)
Definition kontext_request : Req :=
  mkReq scenario_request ∅ None None (Some "/opt/flaxeo/temp/kontext_1699999999000").

Definition leftover_state : State :=
  mkState None None [] None "custom"
          {[ "/opt/flaxeo/temp/kontext_1699999999000";
             "/opt/flaxeo/temp/kontext_1699999999000/1699999999000_ref.png" ]}
          [] [].

Definition pm_upload_request : Request :=
  mkRequest scenario_request [mkUpload "pmImages" "face.png" 1700000000000].

Definition second_reply_fails : Z -> Reply :=
  λ i, if i =? 1 then NotOk "out of memory" else Image "iVBORw0KGgo=".

Definition convert_request : gmap string Js.JsValue :=
  list_to_map [("sourceType", Js.JStr "diffusion");
               ("sourceModel", Js.JStr "sd15.safetensors");
               ("outputFormat", Js.JStr "q8_0");
               ("outputName", Js.JStr "sd15-q8_0.gguf")].

Definition installed_state : State :=
  mkState None None [] None "custom"
          {[ "/opt/flaxeo/models/diffusion/sd15.safetensors";
             "/opt/flaxeo/backend/custom/sd-cli";
             "/opt/flaxeo/backend/releases/master-abc1234/sd-server" ]}
          [] [].

Definition release_request : gmap string Js.JsValue :=
  list_to_map [("version", Js.JStr "master-abc1234")].

Definition logging_state : State :=
  mkState None None ["loading model"; "step 1"; "step 2"; "done"] None "custom" ∅ [] [].

Definition page_query : gmap string Js.JsValue :=
  list_to_map [("since", Js.JStr "1"); ("limit", Js.JStr "2")].

Definition inpaint_upload_request : Request :=
  mkRequest (list_to_map [("prompt", Js.JStr "a red door");
                          ("initImagePath", Js.JStr "gen_1.png")])
            [mkUpload "initImage" "photo.png" 1700000000000;
             mkUpload "mask" "mask.png" 1700000000001].

Definition mask_only_request : Request :=
  mkRequest (list_to_map [("prompt", Js.JStr "a red door")])
            [mkUpload "mask" "mask.png" 1700000000001].

(** Ports 3000 and 3001 are taken, the others are free. *)
Definition two_ports_taken : Z -> ListenResult :=
  λ p, if (3000 <=? p) && (p <? 3002) then ListenError "EADDRINUSE" else Listening p.

(** A PNG file with a header chunk, a text chunk that holds the
    generation parameters, and an end chunk. *)
Definition header_chunk : Chunk :=
  mkChunk [Byte.x00; Byte.x00; Byte.x00; Byte.x01] (ascii_bytes "IHDR")
          [Byte.x2a] [Byte.x00; Byte.x00; Byte.x00; Byte.x00].

Definition end_chunk : Chunk :=
  mkChunk [Byte.x00; Byte.x00; Byte.x00; Byte.x00] (ascii_bytes "IEND")
          [] [Byte.xae; Byte.x42; Byte.x60; Byte.x82].

(** A text-to-image request with a PhotoMaker model, a ControlNet model
    and an uploaded ControlNet image. *)
Definition controlnet_upload_request : Request :=
  mkRequest (list_to_map [("diffusionModel", Js.JStr "sdxl.safetensors");
                          ("prompt", Js.JStr "a dancer");
                          ("photoMaker", Js.JStr "photomaker-v1.safetensors");
                          ("controlNet", Js.JStr "openpose.safetensors")])
            [mkUpload "controlNetImage" "pose.png" 1700000000000].

(** An image-to-video request with an uploaded first frame. *)
Definition video_upload_request : Request :=
  mkRequest (list_to_map [("diffusionModel", Js.JStr "wan2.1.gguf");
                          ("prompt", Js.JStr "a cat walking")])
            [mkUpload "initImage" "frame.png" 1700000000000].


Definition sibling_request : gmap string Js.JsValue :=
  list_to_map [("path", Js.JStr "../output_old/a.png")].

(** ** The server *)

Section Server.

(** [process.env.FLAXEO_RESOURCES_PATH || __dirname], [process.platform],
    and [JSON.parse] restricted to what the handlers make of its result: a
    list of file names, or [None] when parsing throws or the value has no
    elements to copy. *)
Variable RESOURCES_PATH : string.
Variable platform : string.
Variable JSON_parse : string -> option (list string).

Definition BACKEND_DIR : string := path_join [RESOURCES_PATH; "backend"].
Definition CUSTOM_DIR : string := path_join [BACKEND_DIR; "custom"].
Definition RELEASES_DIR : string := path_join [BACKEND_DIR; "releases"].
Definition MODELS_DIR : string := path_join [RESOURCES_PATH; "models"].
Definition OUTPUT_DIR : string := path_join [RESOURCES_PATH; "output"].
Definition TEMP_DIR : string := path_join [RESOURCES_PATH; "temp"].

Definition getActiveBackendPath (st : State) : string :=
  if String.eqb (activeVersion st) "custom" then CUSTOM_DIR
  else path_join [RELEASES_DIR; activeVersion st].

Definition getSdCliPath (st : State) : string :=
  path_join [getActiveBackendPath st;
             if String.eqb platform "win32" then "sd-cli.exe" else "sd-cli"].

Definition model_path (category : string) (v : Js.JsValue) : string :=
  path_join [MODELS_DIR; category; text v].

(** [if (v) args.push(flag, path.join(MODELS_DIR, category, v))] *)
Definition model_opt (flag category : string) (v : Js.JsValue) : list Arg :=
  when (Js.truthy v) [Opt flag (model_path category v)].

(** [if (v) args.push(flag, v)] and [if (v) args.push(flag, String(v))] *)
Definition text_opt (flag : string) (v : Js.JsValue) : list Arg :=
  when (Js.truthy v) [Opt flag (text v)].

(** [if (p && fs.existsSync(p)) args.push(flag, p)] *)
Definition path_opt (flag : string) (p : option string) (d : Disk) : list Arg :=
  match p with
  | Some x => when (Js.truthy (Js.JStr x) && existsSync x d) [Opt flag x]
  | None => []
  end.

(** [if (v === true || v === 'true') args.push(flag)] *)
Definition bool_flag (flag : string) (v : Js.JsValue) : list Arg :=
  when (Js.is_true v) [Flag flag].

(** [Math.round((v || dflt) / m) * m], in exact arithmetic: the value the
    code computes when [v || dflt] is a safe integer. *)
Definition rounded_dim (v : Js.JsValue) (dflt : Z) (m : positive) : Js.JsNum :=
  Js.mul (Js.round (Js.div (Js.Number_ (Js.or v (Js.JNum (Js.Int dflt)))) m))
         (Zpos m).

Definition num (z : Z) : Js.JsValue := Js.JNum (Js.Int z).

(** *** POST /api/generate-cli *)

(** The [multer] storage of the route: a directory per Kontext reference
    image, one directory for every other uploaded file of the request. *)
Definition cliUpload_destination (up : Upload) (r : Req) (d : Disk)
    : string * Req * Disk :=
  if String.eqb (fieldname up) "kontextRefImage" then
    let kontextDir := path_join [TEMP_DIR; "kontext_" +:+ pretty (stored_at up)] in
    (kontextDir,
     mkReq (req_body r) (req_files r) (req_file r) (req_pmImagesDir r)
           (Some kontextDir),
     mkdirSync kontextDir d)
  else
    match req_pmImagesDir r with
    | None =>
        let dir := path_join [TEMP_DIR; "pm_" +:+ pretty (stored_at up)] in
        (dir,
         mkReq (req_body r) (req_files r) (req_file r) (Some dir)
               (req_kontextRefDir r),
         mkdirSync dir d)
    | Some dir => (dir, r, d)
    end.

Definition cliUpload_filename (up : Upload) : string :=
  pretty (stored_at up) +:+ "_" +:+ originalname up.

Definition cliUpload_file (acc : Req * Disk) (up : Upload) : Req * Disk :=
  let '(dir, r, d) := cliUpload_destination up acc.1 acc.2 in
  let path := path_join [dir; cliUpload_filename up] in
  (add_file (fieldname up) path r, writeFileSync path d).

(** The storage at work on the files of a request, one after the other;
    which requests get this far is said by [cliUpload_fields]. *)
Definition cliUpload (rq : Request) (d : Disk) : Req * Disk :=
  foldl cliUpload_file (mkReq (body rq) ∅ None None None, d) (uploads rq).

(** The field list the middleware is made with, and the middleware
    itself: the storage for a request the list lets through, [None] for a
    request that [multer] fails, whose handler is not called. *)
Definition cli_fields : list (string * nat) :=
  [("pmImages", 4%nat); ("kontextRefImage", 1%nat); ("controlNetImage", 1%nat)].

Definition cliUpload_fields (rq : Request) (d : Disk) : option (Req * Disk) :=
  if multer_accepts cli_fields (uploads rq) then Some (cliUpload rq d) else None.

(** Priority: uploaded file, then the path in the body, then the gallery. *)
Definition pick_image (r : Req) (upload_field : string)
    (pathBody gallery : Js.JsValue) : option string :=
  match first_file r upload_field with
  | Some f => Some f
  | None =>
      if Js.truthy pathBody then Some (text pathBody)
      else if Js.truthy gallery then Some (path_join [OUTPUT_DIR; text gallery])
      else None
  end.

(** [if (!pmImagesDir) { pmImagesDir = ...; fs.mkdirSync(pmImagesDir) }] *)
Definition ensure_pm_dir (now : Z) (pm : option string) (d : Disk)
    : string * Disk :=
  match pm with
  | Some dir => (dir, d)
  | None =>
      let dir := path_join [TEMP_DIR; "pm_" +:+ pretty now] in
      (dir, mkdirSync dir d)
  end.

Definition copy_if_exists (src dst : string) (d : Disk) : Disk :=
  if existsSync src d then copyFileSync src dst d else d.

(** The PhotoMaker images named by local path ([photoMakerImages]) and by
    gallery name ([pmGalleryImages]) are copied into the directory of the
    uploaded ones, which is created when there were none. *)
Definition materialize_pm (b : gmap string Js.JsValue) (now : Z)
    (pm0 : option string) (d0 : Disk) : option string * Disk :=
  let '(pm1, d1) :=
    match field b "photoMakerImages" with
    | Js.JArr (img :: imgs) =>
        let '(dir, d) := ensure_pm_dir now pm0 d0 in
        (Some dir,
         foldl (λ d imgPath,
                  copy_if_exists imgPath (path_join [dir; basename imgPath]) d)
               d (img :: imgs))
    | _ => (pm0, d0)
    end in
  if Js.truthy (field b "pmGalleryImages") then
    match JSON_parse (text (field b "pmGalleryImages")) with
    | Some (g :: gs) =>
        let '(dir, d) := ensure_pm_dir now pm1 d1 in
        (Some dir,
         foldl (λ d gFile,
                  copy_if_exists (path_join [OUTPUT_DIR; gFile])
                                 (path_join [dir; gFile]) d)
               d (g :: gs))
    | _ => (pm1, d1)
    end
  else (pm1, d1).

(** Model loading based on mode. *)
Definition generate_cli_load (b : gmap string Js.JsValue) : list Arg :=
  if Js.is_str (field b "loadMode") "split" then
    model_opt "--diffusion-model" "diffusion" (field b "diffusionModel") ++
    model_opt "--clip_l" "clip" (field b "clipL") ++
    model_opt "--clip_g" "clip" (field b "clipG") ++
    model_opt "--clip_vision" "clip_vision" (field b "clipVision") ++
    model_opt "--t5xxl" "t5xxl" (field b "t5xxl") ++
    model_opt "--llm" "llm" (field b "llm") ++
    model_opt "--vae" "vae" (field b "vae")
  else
    model_opt "-m" "diffusion" (field b "diffusionModel") ++
    model_opt "--vae" "vae" (field b "vae").

(** Generation parameters. *)
Definition generate_cli_params (b : gmap string Js.JsValue)
    (outputPath : string) : list Arg :=
  [Opt "-p" (text (Js.or (field b "prompt") (Js.JStr "")))] ++
  text_opt "-n" (field b "negative_prompt") ++
  [Opt "--steps" (Js.String_ (Js.or (field b "steps") (num 20)));
   Opt "--cfg-scale" (Js.String_ (Js.or (field b "cfg_scale") (num 7)));
   Opt "-W" (Js.string_of_num (rounded_dim (field b "width") 1024 64));
   Opt "-H" (Js.string_of_num (rounded_dim (field b "height") 1024 64));
   Opt "-s" (Js.String_ (Js.or (field b "seed") (num (-1))));
   Opt "-o" outputPath].

(** Optional parameters. *)
Definition generate_cli_optional (b : gmap string Js.JsValue) : list Arg :=
  text_opt "--guidance" (field b "guidance") ++
  when (Js.truthy (field b "clip_skip") &&
        negb (Js.num_eqb (Js.parseInt (field b "clip_skip")) (Js.Int (-1))))
       [Opt "--clip-skip" (Js.String_ (field b "clip_skip"))] ++
  text_opt "--scheduler" (field b "scheduler") ++
  text_opt "--sampling-method" (field b "samplingMethod") ++
  text_opt "--lora-apply-mode" (field b "loraApplyMode") ++
  text_opt "--vae-tile-size" (field b "vaeTileSize") ++
  text_opt "--rng" (field b "rngType") ++
  when (Js.truthy (field b "batchCount") &&
        Js.num_ltb (Js.Int 1) (Js.parseInt (field b "batchCount")))
       [Opt "-b" (Js.String_ (field b "batchCount"))].

(** Hardware flags, the embeddings and LoRA directories. *)
Definition generate_cli_hardware (b : gmap string Js.JsValue) (d : Disk)
    : list Arg :=
  let promptStr := text (Js.or (field b "prompt") (Js.JStr "")) in
  let embeddingsDir := path_join [MODELS_DIR; "embeddings"] in
  when (Js.is_true (field b "diffusionFa") &&
        negb (Js.includes promptStr "<lora:")) [Flag "--diffusion-fa"] ++
  bool_flag "--vae-tiling" (field b "vaeTiling") ++
  bool_flag "--clip-on-cpu" (field b "clipOnCpu") ++
  bool_flag "--offload-to-cpu" (field b "offloadToCpu") ++
  bool_flag "--diffusion-conv-direct" (field b "diffusionConvDirect") ++
  bool_flag "--vae-conv-direct" (field b "vaeConvDirect") ++
  bool_flag "--force-sdxl-vae-conv-scale" (field b "forceSDXLVaeConvScale") ++
  when (existsSync embeddingsDir d) [Opt "--embd-dir" embeddingsDir] ++
  when (Js.includes promptStr "<lora:")
       [Opt "--lora-model-dir" (path_join [MODELS_DIR; "loras"])].

(** Quantization, Kontext reference, upscaler, TAESD, live preview,
    PhotoMaker and ControlNet. *)
Definition generate_cli_features (b : gmap string Js.JsValue) (d : Disk)
    (kontextRefPath controlImagePath pmImagesDir : option string) : list Arg :=
  text_opt "--type" (field b "quantizationType") ++
  path_opt "-r" kontextRefPath d ++
  model_opt "--upscale-model" "upscale" (field b "upscaleModel") ++
  model_opt "--taesd" "taesd" (field b "taesdModel") ++
  when (Js.truthy (field b "livePreviewMethod"))
       [Opt "--preview" (text (field b "livePreviewMethod"));
        Opt "--preview-path" (path_join [TEMP_DIR; "preview.png"]);
        Opt "--preview-interval" "1"] ++
  when (Js.truthy (field b "photoMaker"))
       ([Opt "--photo-maker" (model_path "photomaker" (field b "photoMaker"))] ++
        match pmImagesDir with
        | Some dir =>
            when (Js.truthy (Js.JStr dir) && existsSync dir d &&
                  readdir_nonempty dir d)
                 [Opt "--pm-id-images-dir" dir]
        | None => []
        end ++
        text_opt "--pm-style-strength" (field b "pmStyleStrength") ++
        text_opt "--pm-id-embed-path" (field b "pmIdEmbedsPath")) ++
  when (Js.truthy (field b "controlNet"))
       ([Opt "--control-net" (model_path "controlnet" (field b "controlNet"))] ++
        path_opt "--control-image" controlImagePath d ++
        text_opt "--control-strength" (field b "controlStrength") ++
        bool_flag "--canny" (field b "applyCanny")).

(** The whole command line of [sd-cli] for a text-to-image request. *)
Definition generate_cli_args (b : gmap string Js.JsValue) (d : Disk)
    (outputPath : string)
    (kontextRefPath controlImagePath pmImagesDir : option string) : list Arg :=
  generate_cli_load b ++
  generate_cli_params b outputPath ++
  generate_cli_optional b ++
  generate_cli_hardware b d ++
  generate_cli_features b d kontextRefPath controlImagePath pmImagesDir ++
  [Flag "-v"].

(** [if (dir && fs.existsSync(dir)) fs.rmSync(dir, ...)] *)
Definition cleanup_dir (dir : option string) (d : Disk) : Disk :=
  match dir with
  | Some x => if Js.truthy (Js.JStr x) && existsSync x d then rmSync x d else d
  | None => d
  end.

(** The handler up to its [await]. *)
Definition generate_cli_begin (r : Req) (now : Z) (st : State)
    : Started * State :=
  let b := req_body r in
  let filename := "gen_" +:+ pretty now +:+ ".png" in
  let outputPath := path_join [OUTPUT_DIR; filename] in
  let kontextRefPath :=
    pick_image r "kontextRefImage" (field b "kontextRefPath")
               (field b "kontextRefGallery") in
  let controlImagePath :=
    pick_image r "controlNetImage" (field b "controlImagePath")
               (field b "controlNetImageGallery") in
  let '(pmImagesDir, d1) := materialize_pm b now (req_pmImagesDir r) (disk st) in
  let st1 := set_disk d1 st in
  if negb (Js.truthy (field b "diffusionModel")) then
    (Responded (status_json 400
       [("message", JsonStr "No model selected. Please select a model in the sidebar (Model Configuration section).");
        ("error", JsonStr "MODEL_REQUIRED")]),
     st1)
  else
    let args := generate_cli_args b d1 outputPath kontextRefPath
                                  controlImagePath pmImagesDir in
    let '(p, st2) := spawn (getSdCliPath st1) (tokens args)
                           (getActiveBackendPath st1) true st1 in
    (Awaiting (mkPending p filename outputPath pmImagesDir
                         (req_kontextRefDir r) [] ""),
     set_cliProcess (Some p) st2).

(** The handler from the end of its child process on: the [close] and
    [error] listeners, then the code after the [await] or the [catch]
    block. *)
Definition generate_cli_settle (p : Pending) (ev : Settle) (st : State)
    : Response * State :=
  let st1 := set_cliProcess None st in
  let clean (st : State) : State :=
    set_disk (cleanup_dir (p_kontextRefDir p)
                (cleanup_dir (p_pmImagesDir p) (disk st))) st in
  match ev with
  | Closed None =>
      (json [("message", JsonStr "Cancelled")], clean st1)
  | Closed (Some 0) =>
      let st2 := clean st1 in
      if existsSync (p_outputPath p) (disk st2) then
        (json [("message", JsonStr "Complete");
               ("filenames", JsonList [p_filename p])], st2)
      else
        (status_json 500
           [("message", JsonStr "Generation failed - no output file")], st2)
  | Closed (Some code) =>
      (status_json 500
         [("message", JsonStr "CLI generation failed");
          ("error", JsonStr ("CLI exited with code " +:+ pretty code))],
       clean (set_cliProcess None st1))
  | Errored msg =>
      (status_json 500
         [("message", JsonStr "CLI generation failed");
          ("error", JsonStr msg)],
       clean (set_cliProcess None st1))
  end.

(** *** POST /api/cancel-cli *)
Definition cancel_cli (st : State) : Response * State :=
  match cliProcess st with
  | Some p => (json [("message", JsonStr "Cancelled")], kill p "SIGTERM" st)
  | None => (json [("message", JsonStr "No CLI process running")], st)
  end.

(** *** POST /api/inpaint *)

(** The [multer] storage of the route: every file goes to the temp
    directory, named after its field ([initImage], [mask]). *)
Definition inpaintUpload_file (acc : Req * Disk) (up : Upload) : Req * Disk :=
  let path := path_join [TEMP_DIR;
                         fieldname up +:+ "_" +:+ pretty (stored_at up) +:+ ".png"] in
  (add_file (fieldname up) path acc.1, writeFileSync path acc.2).

Definition inpaintUpload (rq : Request) (d : Disk) : Req * Disk :=
  foldl inpaintUpload_file (mkReq (body rq) ∅ None None None, d) (uploads rq).

(** The middleware of the route, [inpaintUpload.fields([...])]: the
    storage for a request the field list lets through, [None] for a request
    that [multer] fails, whose handler is not called. *)
Definition inpaint_fields : list (string * nat) :=
  [("initImage", 1%nat); ("mask", 1%nat)].

Definition inpaintUpload_fields (rq : Request) (d : Disk) : option (Req * Disk) :=
  if multer_accepts inpaint_fields (uploads rq) then Some (inpaintUpload rq d)
  else None.

Definition inpaint_load (b : gmap string Js.JsValue) : list Arg :=
  if Js.is_str (field b "loadMode") "split" then
    model_opt "--diffusion-model" "diffusion" (field b "diffusionModel") ++
    model_opt "--clip_l" "clip" (field b "clipL") ++
    model_opt "--clip_g" "clip" (field b "clipG") ++
    model_opt "--t5xxl" "t5xxl" (field b "t5xxl") ++
    model_opt "--llm" "llm" (field b "llm") ++
    model_opt "--vae" "vae" (field b "vae")
  else
    model_opt "-m" "diffusion" (field b "diffusionModel") ++
    model_opt "--vae" "vae" (field b "vae").

(** [parseFloat(strength) || 0.75] *)
Definition strengthVal (v : Js.JsValue) : Js.JsNum :=
  let s := Js.parseFloat v in
  if Js.truthy_num s then s else Js.Frac (3 # 4).

Definition inpaint_args (b : gmap string Js.JsValue) (initImg : string)
    (maskPath : option string) (outputPath : string) : list Arg :=
  inpaint_load b ++
  [Opt "-i" initImg] ++
  match maskPath with
  | Some m => when (Js.truthy (Js.JStr m)) [Opt "--mask" m]
  | None => []
  end ++
  [Opt "--strength" (Js.string_of_num (strengthVal (field b "strength")));
   Opt "-p" (text (Js.or (field b "prompt") (Js.JStr "")))] ++
  text_opt "-n" (field b "negative_prompt") ++
  [Opt "--steps" (Js.String_ (Js.or (field b "steps") (num 20)));
   Opt "--cfg-scale" (Js.String_ (Js.or (field b "cfg_scale") (num 7)));
   Opt "-s" (Js.String_ (Js.or (field b "seed") (num (-1))));
   Opt "-o" outputPath] ++
  text_opt "--guidance" (field b "guidance") ++
  text_opt "--scheduler" (field b "scheduler") ++
  text_opt "--sampling-method" (field b "samplingMethod") ++
  bool_flag "--vae-tiling" (field b "vaeTiling") ++
  bool_flag "--clip-on-cpu" (field b "clipOnCpu") ++
  bool_flag "--offload-to-cpu" (field b "offloadToCpu") ++
  when (Js.truthy (field b "prompt") &&
        Js.includes (text (field b "prompt")) "<lora:")
       [Opt "--lora-model-dir" (path_join [MODELS_DIR; "loras"])] ++
  [Flag "-v"].

Definition inpaint_begin (r : Req) (now : Z) (st : State) : Started * State :=
  let b := req_body r in
  let initImg :=
    match first_file r "initImage" with
    | Some f => Some f
    | None =>
        if Js.truthy (field b "initImagePath")
        then Some (path_join [OUTPUT_DIR; text (field b "initImagePath")])
        else None
    end in
  match initImg with
  | Some img =>
      if Js.truthy (Js.JStr img) && existsSync img (disk st) then
        let maskPath := first_file r "mask" in
        let filename := "inpaint_" +:+ pretty now +:+ ".png" in
        let outputPath := path_join [OUTPUT_DIR; filename] in
        let args := inpaint_args b img maskPath outputPath in
        let '(p, st1) := spawn (getSdCliPath st) (tokens args)
                               (getActiveBackendPath st) false st in
        (Awaiting (mkPending p filename outputPath None None
                     (option_list (first_file r "initImage") ++
                      option_list (first_file r "mask")) ""),
         set_cliProcess (Some p) st1)
      else
        (Responded (status_json 400 [("message", JsonStr "Init image required")]), st)
  | None =>
      (Responded (status_json 400 [("message", JsonStr "Init image required")]), st)
  end.

(** The [data] listeners of the child's stdout and stderr. *)
Definition cli_data (p : Pending) (msg : string) (st : State) : Pending * State :=
  (mkPending (p_proc p) (p_filename p) (p_outputPath p) (p_pmImagesDir p)
             (p_kontextRefDir p) (p_uploaded p) (p_output p +:+ msg),
   set_serverLogs (serverLogs st ++ [msg]) st).

(** [try { fs.unlinkSync(path) } catch (e) { }] for each uploaded file *)
Definition unlink_uploaded (p : Pending) (st : State) : State :=
  set_disk (foldl (λ d f, unlinkSync f d) (disk st) (p_uploaded p)) st.

(** The end of an inpainting or video request; [what] is the word the
    messages of the route start with. *)
Definition cli_settle (what : string) (p : Pending) (ev : Settle) (st : State)
    : Response * State :=
  let st1 := set_cliProcess None st in
  match ev with
  | Closed None =>
      (json [("message", JsonStr "Cancelled")], unlink_uploaded p st1)
  | Closed (Some 0) =>
      let st2 := unlink_uploaded p st1 in
      if existsSync (p_outputPath p) (disk st2) then
        (json [("message", JsonStr "Complete");
               ("filenames", JsonList [p_filename p])], st2)
      else
        (status_json 500
           [("message", JsonStr (what +:+ " failed - no output file"));
            ("output", JsonStr (p_output p))], st2)
  | Closed (Some code) =>
      (status_json 500
         [("message", JsonStr (what +:+ " failed"));
          ("error", JsonStr ("CLI exited with code " +:+ pretty code))],
       unlink_uploaded p (set_cliProcess None st1))
  | Errored msg =>
      (status_json 500
         [("message", JsonStr (what +:+ " failed")); ("error", JsonStr msg)],
       unlink_uploaded p (set_cliProcess None st1))
  end.

Definition inpaint_settle : Pending -> Settle -> State -> Response * State :=
  cli_settle "Inpainting".

(** *** POST /api/generate-video *)

(** The storage of [videoUpload] at work on the file of a request, which
    becomes [req.file]. *)
Definition videoUpload (rq : Request) (d : Disk) : Req * Disk :=
  match uploads rq with
  | up :: _ =>
      let path := path_join [TEMP_DIR;
                             "video_init_" +:+ pretty (stored_at up) +:+ ".png"] in
      (mkReq (body rq) ∅ (Some path) None None, writeFileSync path d)
  | [] => (mkReq (body rq) ∅ None None None, d)
  end.

(** The middleware of the route, [videoUpload.single('initImage')]: at
    most one file, under the field [initImage]; [None] for a request that
    [multer] fails, whose handler is not called. *)
Definition video_fields : list (string * nat) := [("initImage", 1%nat)].

Definition videoUpload_single (rq : Request) (d : Disk) : option (Req * Disk) :=
  if multer_accepts video_fields (uploads rq) then Some (videoUpload rq d)
  else None.

Definition generate_video_args (b : gmap string Js.JsValue) (d : Disk)
    (initImg : option string) (outputPath : string) : list Arg :=
  [Opt "-M" "vid_gen"] ++
  model_opt "--diffusion-model" "diffusion" (field b "diffusionModel") ++
  model_opt "--high-noise-diffusion-model" "diffusion"
            (field b "highNoiseDiffusionModel") ++
  model_opt "--t5xxl" "t5xxl" (field b "t5xxl") ++
  model_opt "--vae" "vae" (field b "vae") ++
  model_opt "--clip_vision" "clip_vision" (field b "clipVision") ++
  path_opt "-i" initImg d ++
  [Opt "-p" (text (Js.or (field b "prompt") (Js.JStr "a beautiful scene")))] ++
  text_opt "-n" (field b "negative_prompt") ++
  [Opt "--steps" (Js.String_ (Js.or (field b "steps") (num 20)));
   Opt "--cfg-scale" (Js.String_ (Js.or (field b "cfg_scale") (num 6)));
   Opt "-W" (Js.string_of_num (rounded_dim (field b "width") 832 16));
   Opt "-H" (Js.string_of_num (rounded_dim (field b "height") 480 16));
   Opt "-s" (Js.String_ (Js.or (field b "seed") (num (-1))));
   Opt "-o" outputPath;
   Opt "--video-frames" (Js.String_ (Js.or (field b "videoFrames") (num 33)));
   Opt "--flow-shift" (Js.String_ (Js.or (field b "flowShift") (num 3)))] ++
  when (Js.truthy (field b "highNoiseDiffusionModel"))
       (text_opt "--high-noise-cfg-scale" (field b "highNoiseCfg") ++
        text_opt "--high-noise-steps" (field b "highNoiseSteps") ++
        text_opt "--high-noise-sampling-method" (field b "highNoiseSampler")) ++
  text_opt "--guidance" (field b "guidance") ++
  text_opt "--scheduler" (field b "scheduler") ++
  text_opt "--sampling-method" (field b "samplingMethod") ++
  bool_flag "--diffusion-fa" (field b "diffusionFa") ++
  bool_flag "--vae-tiling" (field b "vaeTiling") ++
  bool_flag "--clip-on-cpu" (field b "clipOnCpu") ++
  bool_flag "--offload-to-cpu" (field b "offloadToCpu") ++
  when (Js.truthy (field b "prompt") &&
        Js.includes (text (field b "prompt")) "<lora:")
       [Opt "--lora-model-dir" (path_join [MODELS_DIR; "loras"])] ++
  text_opt "--type" (field b "quantizationType") ++
  [Flag "-v"].

Definition generate_video_begin (r : Req) (now : Z) (st : State)
    : Started * State :=
  let b := req_body r in
  let filename := "video_" +:+ pretty now +:+ ".mp4" in
  let outputPath := path_join [OUTPUT_DIR; filename] in
  let initImg :=
    match req_file r with
    | Some f => Some f
    | None =>
        if Js.truthy (field b "initImagePath")
        then Some (path_join [OUTPUT_DIR; text (field b "initImagePath")])
        else None
    end in
  let args := generate_video_args b (disk st) initImg outputPath in
  let '(p, st1) := spawn (getSdCliPath st) (tokens args)
                         (getActiveBackendPath st) false st in
  (Awaiting (mkPending p filename outputPath None None
               (option_list (req_file r)) ""),
   set_cliProcess (Some p) st1).

Definition generate_video_settle : Pending -> Settle -> State -> Response * State :=
  cli_settle "Video generation".

(** *** POST /api/convert *)

(** The route answers from the listeners of its child process; it does
    not keep the process in [cliProcess]. *)
Definition convert_begin (b : gmap string Js.JsValue) (st : State)
    : Started * State :=
  if negb (Js.truthy (field b "sourceType")) || negb (Js.truthy (field b "sourceModel"))
     || negb (Js.truthy (field b "outputFormat")) || negb (Js.truthy (field b "outputName"))
  then (Responded (status_json 400
          [("success", JsonBool false);
           ("error", JsonStr "Missing required parameters")]), st)
  else
    let sourcePath := path_join [MODELS_DIR; text (field b "sourceType");
                                 text (field b "sourceModel")] in
    let outputPath := path_join [MODELS_DIR; text (field b "sourceType");
                                 text (field b "outputName")] in
    if negb (existsSync sourcePath (disk st)) then
      (Responded (status_json 400
         [("success", JsonBool false); ("error", JsonStr "Source model not found")]), st)
    else if existsSync outputPath (disk st) then
      (Responded (status_json 400
         [("success", JsonBool false);
          ("error", JsonStr "Output file already exists")]), st)
    else if negb (existsSync (getSdCliPath st) (disk st)) then
      (Responded (status_json 500
         [("success", JsonBool false);
          ("error", JsonStr "sd-cli not found. Configure backend first.")]), st)
    else
      let args := [Opt "-M" "convert"; Opt "-m" sourcePath; Opt "-o" outputPath;
                   Opt "--type" (text (field b "outputFormat")); Flag "-v"] in
      let '(p, st1) := spawn (getSdCliPath st) (tokens args) "" false st in
      (Awaiting (mkPending p (text (field b "outputName")) outputPath
                           None None [] ""), st1).

Definition convert_data (p : Pending) (msg : string) : Pending :=
  mkPending (p_proc p) (p_filename p) (p_outputPath p) (p_pmImagesDir p)
            (p_kontextRefDir p) (p_uploaded p) (p_output p +:+ msg).

Definition convert_settle (p : Pending) (ev : Settle) (st : State) : Response :=
  match ev with
  | Closed code =>
      if bool_decide (code = Some 0) && existsSync (p_outputPath p) (disk st) then
        json [("success", JsonBool true); ("outputPath", JsonStr (p_filename p));
              ("output", JsonStr (p_output p))]
      else
        json [("success", JsonBool false);
              ("error", JsonStr ("Conversion failed with code " +:+
                                 from_option pretty "null" code));
              ("output", JsonStr (p_output p))]
  | Errored msg =>
      status_json 500 [("success", JsonBool false); ("error", JsonStr msg)]
  end.

(** *** The inference server: POST /api/start, /api/stop, GET /api/status *)

Definition start_args (b : gmap string Js.JsValue) : list Arg :=
  [Opt "--listen-port" (Js.String_ (Js.or (field b "port") (num 1234)));
   Flag "-v"] ++
  (if Js.is_str (field b "loadMode") "split" then
     model_opt "--diffusion-model" "diffusion" (field b "diffusionModel") ++
     model_opt "--clip_l" "clip" (field b "clipL") ++
     model_opt "--clip_g" "clip" (field b "clipG") ++
     model_opt "--t5xxl" "t5xxl" (field b "t5xxl") ++
     model_opt "--llm" "llm" (field b "llm") ++
     model_opt "--vae" "vae" (field b "vae")
   else
     model_opt "-m" "diffusion" (field b "diffusionModel") ++
     model_opt "--vae" "vae" (field b "vae")) ++
  when (Js.truthy (field b "loraDir"))
       [Opt "--lora-model-dir" (path_join [MODELS_DIR; "loras"])] ++
  [Opt "--lora-apply-mode" (text (Js.or (field b "loraApplyMode") (Js.JStr "auto")))] ++
  text_opt "--scheduler" (field b "scheduler") ++
  text_opt "--sampling-method" (field b "samplingMethod") ++
  text_opt "--rng" (field b "rngType") ++
  when (Js.truthy (field b "diffusionFa")) [Flag "--diffusion-fa"] ++
  when (Js.truthy (field b "vaeTiling")) [Flag "--vae-tiling"] ++
  when (Js.truthy (field b "clipOnCpu")) [Flag "--clip-on-cpu"] ++
  when (Js.truthy (field b "vaeOnCpu")) [Flag "--vae-on-cpu"] ++
  when (Js.truthy (field b "offloadToCpu")) [Flag "--offload-to-cpu"] ++
  text_opt "--vae-tile-size" (field b "vaeTileSize") ++
  model_opt "--control-net" "controlnet" (field b "controlNet") ++
  model_opt "--photo-maker" "photomaker" (field b "photoMaker") ++
  text_opt "--steps" (field b "defaultSteps") ++
  text_opt "--cfg-scale" (field b "defaultCfg").

Definition start (b : gmap string Js.JsValue) (st : State) : Response * State :=
  match sdProcess st with
  | Some _ => (status_json 400 [("message", JsonStr "Server already running")], st)
  | None =>
      let args := start_args b in
      let st1 := set_serverLogs [] st in
      let activeBackend := getActiveBackendPath st1 in
      let sdServerBin :=
        path_join [activeBackend;
                   if String.eqb platform "win32" then "sd-server.exe"
                   else "sd-server"] in
      let '(p, st2) := spawn sdServerBin (tokens args) activeBackend false st1 in
      (json [("message", JsonStr "Server started");
             ("args", JsonList (tokens args))],
       set_lastSdArgs (Some (tokens args)) (set_sdProcess (Some p) st2))
  end.

(** The listeners of the server process. *)
Definition sd_data (msg : string) (st : State) : State :=
  set_serverLogs (serverLogs st ++ [msg]) st.

Definition sd_close (code : option Z) (st : State) : State :=
  let st1 := set_sdProcess None st in
  set_serverLogs (serverLogs st1 ++ ["EXIT: " +:+ from_option pretty "null" code]) st1.

Definition stop (st : State) : Response * State :=
  match sdProcess st with
  | Some p => (json [("message", JsonStr "Stopped")],
               set_sdProcess None (kill p "SIGTERM" st))
  | None => (status_json 400 [("message", JsonStr "Not running")], st)
  end.

(** [l.slice(start, end)] *)
Definition slice {A : Type} (l : list A) (start stop : Z) : list A :=
  let len := Z.of_nat (length l) in
  let clamp (i : Z) := if i <? 0 then Z.max (len + i) 0 else Z.min i len in
  take (Z.to_nat (clamp stop - clamp start)) (drop (Z.to_nat (clamp start)) l).

Definition api_status (st : State) : Response :=
  json [("running", JsonBool (bool_decide (is_Some (sdProcess st))));
        ("logs", JsonList (slice (serverLogs st) (-50)
                                 (Z.of_nat (length (serverLogs st)))))].

(** *** GET /api/logs and POST /api/logs/clear *)

(** [parseInt(v) || dflt] *)
Definition int_or (v : Js.JsValue) (dflt : Z) : Z :=
  match Js.parseInt v with
  | Js.Int z => if z =? 0 then dflt else z
  | _ => dflt
  end.

Definition logs (query : gmap string Js.JsValue) (st : State) : Response :=
  let since := int_or (field query "since") 0 in
  let limit := int_or (field query "limit") 100 in
  let l := slice (serverLogs st) since (since + limit) in
  json [("logs", JsonList l);
        ("total", JsonNum (Z.of_nat (length (serverLogs st))));
        ("hasMore", JsonBool (since + Z.of_nat (length l)
                              <? Z.of_nat (length (serverLogs st))))].

Definition logs_clear (st : State) : Response * State :=
  (json [("success", JsonBool true)], set_serverLogs [] st).

(** *** POST /api/generate (server mode) *)

(** The JSON body sent to the inference server. *)
Record Payload : Type := mkPayload {
  pl_prompt : Js.JsValue;
  pl_negative_prompt : Js.JsValue;
  pl_n : Z;
  pl_size : string;
  pl_response_format : string;
  pl_steps : Z;
  pl_sample_steps : Z;
  pl_num_inference_steps : Z;
  pl_cfg_scale : Js.JsNum;
  pl_seed : Z;
  pl_guidance : option Js.JsNum;
  pl_clip_skip : option Js.JsNum
}.

Definition set_seed (v : Z) (pl : Payload) : Payload :=
  mkPayload (pl_prompt pl) (pl_negative_prompt pl) (pl_n pl) (pl_size pl)
            (pl_response_format pl) (pl_steps pl) (pl_sample_steps pl)
            (pl_num_inference_steps pl) (pl_cfg_scale pl) v
            (pl_guidance pl) (pl_clip_skip pl).

(** [Math.round(v / 64) * 64] *)
Definition size_dim (v : Js.JsValue) : Js.JsNum :=
  Js.mul (Js.round (Js.div (Js.Number_ v) 64)) 64.

Definition generate_payload (b : gmap string Js.JsValue) : Payload :=
  let stepsVal := int_or (field b "steps") 20 in
  let cfg := Js.parseFloat (field b "cfg_scale") in
  mkPayload
    (field b "prompt")
    (Js.or (field b "negative_prompt") (Js.JStr ""))
    1
    (Js.string_of_num (size_dim (field b "width")) +:+ "x" +:+
     Js.string_of_num (size_dim (field b "height")))
    "b64_json"
    stepsVal stepsVal stepsVal
    (if Js.truthy_num cfg then cfg else Js.Int 7)
    (int_or (field b "seed") (-1))
    (if Js.truthy (field b "guidance")
     then Some (Js.parseFloat (field b "guidance")) else None)
    (if Js.truthy (field b "clip_skip")
     then Some (Js.parseInt (field b "clip_skip")) else None).

(** How often [for (let i = 0; i < batch_size; i++)] runs its body. *)
Definition iterations (batch_size : Js.JsValue) : nat :=
  match Js.Number_ batch_size with
  | Js.NaN => O
  | Js.Int z => Z.to_nat z
  | Js.Frac q => Z.to_nat (Qceiling q)
  end.

(** The batch loop, [count] iterations from index [i] on.  It gives the
    file names or the message of the error thrown, the file system, and
    the payloads sent to the inference server, in order.  The seed is
    incremented in exact arithmetic, which is what [payload.seed += 1]
    does as long as the seed stays a safe integer. *)
Fixpoint generate_loop (count : nat) (i : Z) (pl : Payload)
    (reply : Z -> Reply) (now : Z -> Z) (generatedFiles : list string)
    (d : Disk) (sent : list Payload)
    : (list string + string) * Disk * list Payload :=
  match count with
  | O => (inl generatedFiles, d, sent)
  | S count' =>
      let pl1 := if negb (pl_seed pl =? -1) && (0 <? i)
                 then set_seed (pl_seed pl + 1) pl else pl in
      match reply i with
      | Image b64 =>
          let filename := "gen_" +:+ pretty (now i) +:+ "_" +:+ pretty i +:+ ".png" in
          generate_loop count' (i + 1) pl1 reply now (generatedFiles ++ [filename])
                        (writeFileSync (path_join [OUTPUT_DIR; filename]) d)
                        (sent ++ [pl1])
      | NotOk text => (inr text, d, sent ++ [pl1])
      | NoData => (inr "No data received", d, sent ++ [pl1])
      | FetchFailed msg => (inr msg, d, sent ++ [pl1])
      end
  end.

Definition generate (b : gmap string Js.JsValue) (reply : Z -> Reply)
    (now : Z -> Z) (st : State) : Response * State * list Payload :=
  match sdProcess st with
  | None => (status_json 400 [("message", JsonStr "Server not running")], st, [])
  | Some _ =>
      let batch_size :=
        match field b "batch_size" with
        | Js.JUndefined => num 1
        | v => v
        end in
      let '(result, d, sent) :=
        generate_loop (iterations batch_size) 0 (generate_payload b)
                      reply now [] (disk st) [] in
      match result with
      | inl generatedFiles =>
          (json [("message", JsonStr "Complete");
                 ("filenames", JsonList generatedFiles)], set_disk d st, sent)
      | inr msg =>
          (status_json 500 [("message", JsonStr "Generation failed");
                            ("error", JsonStr msg)], set_disk d st, sent)
      end
  end.



(** The seeds of the payloads a server-mode request sends, in order. *)
Definition batch_seeds (b : gmap string Js.JsValue) (reply : Z -> Reply)
    (now : Z -> Z) (st : State) : list Z :=
  pl_seed <$> (generate b reply now st).2.

(** The log buffer after the [data] listeners of the server process,
    respectively of an inpainting or video child, have seen [chunks]. *)
Definition sd_output (chunks : list string) (st : State) : State :=
  foldl (λ st msg, sd_data msg st) st chunks.

Definition cli_output (chunks : list string) (p : Pending) (st : State)
    : Pending * State :=
  foldl (λ acc msg, cli_data acc.1 msg acc.2) (p, st) chunks.

(** A text-to-image request that names a PhotoMaker image by its local
    path and selects no model, and a request that carries a prompt only. *)
Definition pm_path_request : gmap string Js.JsValue :=
  list_to_map [("prompt", Js.JStr "portrait photo");
               ("photoMaker", Js.JStr "photomaker-v1.safetensors");
               ("photoMakerImages", Js.JArr ["/home/user/face.png"])].

Definition prompt_only_request : gmap string Js.JsValue :=
  list_to_map [("prompt", Js.JStr "a cat")].

Definition MODEL_REQUIRED : Response :=
  status_json 400
    [("message", JsonStr "No model selected. Please select a model in the sidebar (Model Configuration section).");
     ("error", JsonStr "MODEL_REQUIRED")].

(** The text-to-image request of a multipart form whose seed, step count
    and cfg scale are the string ["0"]. *)
Definition string_zero_request : gmap string Js.JsValue :=
  list_to_map [("diffusionModel", Js.JStr "sd15.safetensors");
               ("prompt", Js.JStr "a cat");
               ("seed", Js.JStr "0"); ("steps", Js.JStr "0");
               ("cfg_scale", Js.JStr "0")].

(** A video request with the standard load mode. *)
Definition standard_video_request : gmap string Js.JsValue :=
  list_to_map [("loadMode", Js.JStr "standard");
               ("diffusionModel", Js.JStr "wan2.1.gguf");
               ("prompt", Js.JStr "a cat walking")].

(** A video request that turns flash attention on and names a LoRA in its
    prompt. *)
Definition video_lora_request : gmap string Js.JsValue :=
  list_to_map [("diffusionModel", Js.JStr "wan2.1.gguf");
               ("prompt", Js.JStr "<lora:detail:1> a cat walking");
               ("diffusionFa", Js.JBool true)].

(** *** Notions that further properties are stated with *)

(** The name of the [i]-th file of a server-mode batch. *)
Definition batch_filename (now : Z -> Z) (i : Z) : string :=
  "gen_" +:+ pretty (now i) +:+ "_" +:+ pretty i +:+ ".png".

(** The message of the error a reply of the inference server makes the
    batch loop throw, if it does. *)
Definition reply_error (r : Reply) : option string :=
  match r with
  | Image _ => None
  | NotOk text => Some text
  | NoData => Some "No data received"
  | FetchFailed msg => Some msg
  end.

(** How many images a server-mode request asks for. *)
Definition batch_count (b : gmap string Js.JsValue) : nat :=
  iterations match field b "batch_size" with
             | Js.JUndefined => num 1
             | v => v
             end.

(** Where the [multer] storage of the inpainting route puts an upload. *)
Definition inpaintUpload_path (up : Upload) : string :=
  path_join [TEMP_DIR; fieldname up +:+ "_" +:+ pretty (stored_at up) +:+ ".png"].

(** One of the three handlers that run [sd-cli] for a request starts the
    job [job]. *)
Definition cli_job_begin (r : Req) (now : Z) (st : State) (job : Pending)
    (st1 : State) : Prop :=
  generate_cli_begin r now st = (Awaiting job, st1) ∨
  inpaint_begin r now st = (Awaiting job, st1) ∨
  generate_video_begin r now st = (Awaiting job, st1).

(** *** POST /api/backend/use-custom and /api/backend/set-active *)

Definition CONFIG_FILE : string := path_join [RESOURCES_PATH; "backend-config.json"].

Definition set_activeVersion (v : string) (st : State) : State :=
  mkState (sdProcess st) (cliProcess st) (serverLogs st) (lastSdArgs st)
          v (disk st) (spawned st) (signals st).

(** [saveBackendConfig(backendConfig)] *)
Definition saveBackendConfig (st : State) : State :=
  set_disk (writeFileSync CONFIG_FILE (disk st)) st.

Definition use_custom (st : State) : Response * State :=
  (json [("success", JsonBool true); ("activeVersion", JsonStr "custom")],
   saveBackendConfig (set_activeVersion "custom" st)).

Definition set_active (b : gmap string Js.JsValue) (st : State)
    : Response * State :=
  let version := field b "version" in
  if negb (Js.truthy version) then
    (status_json 400 [("error", JsonStr "Version required")], st)
  else
    let versionPath := path_join [RELEASES_DIR; text version] in
    let sdServer :=
      existsSync (path_join [versionPath; "sd-server"]) (disk st) ||
      existsSync (path_join [versionPath; "sd-server.exe"]) (disk st) in
    if negb (Js.is_str version "custom") && negb sdServer then
      (status_json 400
         [("error", JsonStr ("Version " +:+ text version +:+ " not found"))], st)
    else
      (json [("success", JsonBool true); ("activeVersion", JsonStr (text version))],
       saveBackendConfig (set_activeVersion (text version) st)).

(** *** POST /api/delete *)


(** *** POST /api/image/params: the file that is read *)

(** The handler up to its call of [readPngParams]: an early answer, or
    the path of the file whose parameters are read. *)
Definition image_params_file (b : gmap string Js.JsValue) : Response + string :=
  let relativePath := field b "path" in
  if negb (Js.truthy relativePath) then
    inl (status_json 400 [("error", JsonStr "Path required")])
  else
    let filePath := posix_join [OUTPUT_DIR; text relativePath] in
    if negb (String.prefix OUTPUT_DIR filePath) then
      inl (status_json 403 [("error", JsonStr "Access denied")])
    else inr filePath.

(** *** The exit handler *)

(** [cleanup], as far as the two process handles go: the tunnels are
    outside the model, and the server process ends with [process.exit]. *)
Definition cleanup (st : State) : State :=
  match cliProcess st with
  | Some p => kill p "SIGTERM" st
  | None => st
  end.

(** ** Properties *)

(** *** JavaScript coercions *)

Lemma is_str_spec v t : Js.is_str v t = true <-> v = Js.JStr t.
Proof.
  destruct v; simpl; try (split; [discriminate | congruence]).
  rewrite String.eqb_eq. split; congruence.
Qed.

Lemma or_falsy a b : Js.truthy a = false -> Js.or a b = b.
Proof. unfold Js.or. by intros ->. Qed.

Lemma or_truthy a b : Js.truthy a = true -> Js.or a b = a.
Proof. unfold Js.or. by intros ->. Qed.

Lemma String_num_inj z1 z2 : Js.String_ (num z1) = Js.String_ (num z2) -> z1 = z2.
Proof. simpl. apply (inj pretty). Qed.






(** *** Reading command lines *)

Lemma has_flag_app f a b : has_flag f (a ++ b) = has_flag f a || has_flag f b.
Proof. apply existsb_app. Qed.

Lemma has_flag_when f c l : has_flag f (when c l) = c && has_flag f l.
Proof. by destruct c. Qed.

Lemma has_flag_cons f a l :
  has_flag f (a :: l) = String.eqb (arg_name a) f || has_flag f l.
Proof. reflexivity. Qed.

Lemma has_flag_model_opt f g c v :
  has_flag f (model_opt g c v) = Js.truthy v && String.eqb g f.
Proof. unfold model_opt. destruct (Js.truthy v); simpl; [apply orb_false_r | done]. Qed.

Lemma has_flag_text_opt f g v :
  has_flag f (text_opt g v) = Js.truthy v && String.eqb g f.
Proof. unfold text_opt. destruct (Js.truthy v); simpl; [apply orb_false_r | done]. Qed.

Lemma has_flag_bool_flag f g v :
  has_flag f (bool_flag g v) = Js.is_true v && String.eqb g f.
Proof. unfold bool_flag. destruct (Js.is_true v); simpl; [apply orb_false_r | done]. Qed.

Lemma has_flag_In f args : has_flag f args = true <-> In f (flags args).
Proof.
  unfold has_flag, flags. rewrite existsb_exists, in_map_iff.
  split; intros (a & H1 & H2).
  - exists a. apply String.eqb_eq in H2. by split.
  - exists a. split; [done | by apply String.eqb_eq].
Qed.

Lemma opt_values_app f a b : opt_values f (a ++ b) = opt_values f a ++ opt_values f b.
Proof. apply omap_app. Qed.

Lemma opt_values_when f c l :
  opt_values f (when c l) = if c then opt_values f l else [].
Proof. by destruct c. Qed.

Lemma opt_values_model_opt f g c v :
  opt_values f (model_opt g c v) =
  if Js.truthy v && String.eqb g f then [model_path c v] else [].
Proof. unfold model_opt. destruct (Js.truthy v); simpl; [by destruct (String.eqb g f) | done]. Qed.

Lemma opt_values_text_opt f g v :
  opt_values f (text_opt g v) =
  if Js.truthy v && String.eqb g f then [text v] else [].
Proof. unfold text_opt. destruct (Js.truthy v); simpl; [by destruct (String.eqb g f) | done]. Qed.

Lemma opt_values_bool_flag f g v : opt_values f (bool_flag g v) = [].
Proof. unfold bool_flag. by destruct (Js.is_true v). Qed.

Lemma opt_values_In f v args : In v (opt_values f args) <-> In (Opt f v) args.
Proof.
  unfold opt_values. rewrite <- !list_elem_of_In, list_elem_of_omap.
  split.
  - intros ([n|n w] & H1 & H2); [done |].
    destruct (String.eqb_spec n f); [| done]. by simplify_eq.
  - intros H. exists (Opt f v). split; [done |]. by rewrite String.eqb_refl.
Qed.

(** An option of the command line and its value are neighbours in the
    array handed to [spawn]. *)
Lemma tokens_opt f v args :
  In (Opt f v) args -> ∃ l1 l2, tokens args = l1 ++ f :: v :: l2.
Proof.
  intros (a1 & a2 & ->)%in_split. unfold tokens.
  exists (a1 ≫= arg_tokens), (a2 ≫= arg_tokens).
  by rewrite bind_app.
Qed.

(** The option [f] with the value [v] puts the two tokens next to each
    other on the command line. *)
Lemma opt_values_run f v args :
  v ∈ opt_values f args -> run_of [f; v] (tokens args).
Proof.
  intros H%list_elem_of_In%opt_values_In%tokens_opt.
  destruct H as (l1 & l2 & ->). by exists l1, l2.
Qed.

(** A token of the array is a flag or the value of an option. *)
Lemma tokens_In t args :
  In t (tokens args) <-> In t (flags args) ∨ ∃ f, In (Opt f t) args.
Proof.
  unfold tokens, flags. rewrite <- !list_elem_of_In, list_elem_of_bind, list_elem_of_fmap.
  setoid_rewrite <- list_elem_of_In. split.
  - intros ([n | n v] & Ht & Ha); simpl in Ht.
    + apply list_elem_of_singleton in Ht as ->. left. by exists (Flag n).
    + apply elem_of_cons in Ht as [-> | Ht].
      * left. by exists (Opt n v).
      * apply list_elem_of_singleton in Ht as ->. right. by exists n.
  - intros [(a & -> & Ha) | (f & Ha)].
    + exists a. split; [| done]. destruct a; simpl; apply elem_of_cons; by left.
    + exists (Opt f t). split; [| done]. simpl.
      apply elem_of_cons. right. by apply list_elem_of_singleton.
Qed.

Lemma has_flag_nil f : has_flag f [] = false.
Proof. reflexivity. Qed.

Lemma has_flag_if f (c : bool) a b :
  has_flag f (if c then a else b) = if c then has_flag f a else has_flag f b.
Proof. by destruct c. Qed.

Lemma has_flag_path_opt f g p d :
  has_flag f (path_opt g p d) =
  from_option (λ x, Js.truthy (Js.JStr x) && existsSync x d) false p &&
  String.eqb g f.
Proof.
  destruct p as [x|]; simpl; [| done].
  rewrite has_flag_when. simpl. by rewrite orb_false_r.
Qed.

Lemma opt_values_nil f : opt_values f [] = [].
Proof. reflexivity. Qed.

Lemma opt_values_flag f n l : opt_values f (Flag n :: l) = opt_values f l.
Proof. reflexivity. Qed.

Lemma opt_values_opt f n v l :
  opt_values f (Opt n v :: l) =
  (if String.eqb n f then [v] else []) ++ opt_values f l.
Proof. unfold opt_values. simpl. by destruct (String.eqb n f). Qed.

Lemma opt_values_if f (c : bool) a b :
  opt_values f (if c then a else b) =
  if c then opt_values f a else opt_values f b.
Proof. by destruct c. Qed.

Lemma opt_values_path_opt f g p d :
  opt_values f (path_opt g p d) =
  if String.eqb g f
  then from_option (λ x, when' (Js.truthy (Js.JStr x) && existsSync x d) x) [] p
  else [].
Proof.
  unfold when'. destruct p as [x|]; simpl; [| by destruct (String.eqb g f)].
  rewrite opt_values_when, opt_values_opt.
  by destruct (String.eqb g f), (existsSync x d), (String.eqb x "").
Qed.

Lemma if_same {A} (c : bool) (x : A) : (if c then x else x) = x.
Proof. by destruct c. Qed.

Create Rewrite HintDb flagdb.
Create Rewrite HintDb optdb.

Hint Rewrite has_flag_app has_flag_when has_flag_model_opt has_flag_text_opt
  has_flag_bool_flag has_flag_path_opt has_flag_if has_flag_nil has_flag_cons
  : flagdb.

Hint Rewrite opt_values_app opt_values_when opt_values_model_opt
  opt_values_text_opt opt_values_bool_flag opt_values_path_opt opt_values_if
  opt_values_nil opt_values_flag opt_values_opt : optdb.

(** Comparisons of two string literals are evaluated. *)
Ltac eval_eqb :=
  repeat match goal with
  | |- context [String.eqb ?a ?b] =>
      let r := eval vm_compute in (String.eqb a b) in
      lazymatch r with
      | true => change (String.eqb a b) with true
      | false => change (String.eqb a b) with false
      end
  end.

Ltac bool_norm :=
  repeat (progress rewrite ?andb_false_r, ?andb_true_r, ?orb_false_r,
            ?orb_false_l, ?andb_false_l, ?andb_true_l, ?orb_true_l, ?if_same).

(** [has_flag] and [opt_values] are pushed through a command line that is
    built from the pieces above. *)
Ltac flag_norm :=
  (rewrite_strat (topdown (hints flagdb)));
  cbn [arg_name]; eval_eqb; bool_norm.

Ltac opt_norm :=
  (rewrite_strat (topdown (hints optdb)));
  eval_eqb; bool_norm; rewrite ?app_nil_r; cbn [app].

Ltac unfold_cli :=
  unfold generate_cli_args, generate_cli_load, generate_cli_params,
    generate_cli_optional, generate_cli_hardware, generate_cli_features.

(** *** The text-to-image builder *)

Lemma generate_cli_has_m b d out k c pm :
  has_flag "-m" (generate_cli_args b d out k c pm) =
  negb (Js.is_str (field b "loadMode") "split") &&
  Js.truthy (field b "diffusionModel").
Proof.
  unfold_cli. destruct pm; flag_norm.
  all: by destruct (Js.is_str _ _).
Qed.

Lemma generate_cli_has_diffusion_model b d out k c pm :
  has_flag "--diffusion-model" (generate_cli_args b d out k c pm) =
  Js.is_str (field b "loadMode") "split" &&
  Js.truthy (field b "diffusionModel").
Proof.
  unfold_cli. destruct pm; flag_norm.
  all: by destruct (Js.is_str _ _).
Qed.

Lemma generate_cli_has_diffusion_fa b d out k c pm :
  has_flag "--diffusion-fa" (generate_cli_args b d out k c pm) =
  Js.is_true (field b "diffusionFa") &&
  negb (Js.includes (text (Js.or (field b "prompt") (Js.JStr ""))) "<lora:").
Proof. unfold_cli. destruct pm; flag_norm; reflexivity. Qed.

Lemma generate_cli_has_lora_dir b d out k c pm :
  has_flag "--lora-model-dir" (generate_cli_args b d out k c pm) =
  Js.includes (text (Js.or (field b "prompt") (Js.JStr ""))) "<lora:".
Proof. unfold_cli. destruct pm; flag_norm; reflexivity. Qed.



Lemma generate_cli_steps b d out k c pm :
  opt_values "--steps" (generate_cli_args b d out k c pm) =
  [Js.String_ (Js.or (field b "steps") (num 20))].
Proof. unfold_cli. destruct pm; opt_norm; reflexivity. Qed.

Lemma generate_cli_cfg_scale b d out k c pm :
  opt_values "--cfg-scale" (generate_cli_args b d out k c pm) =
  [Js.String_ (Js.or (field b "cfg_scale") (num 7))].
Proof. unfold_cli. destruct pm; opt_norm; reflexivity. Qed.

Lemma generate_cli_s b d out k c pm :
  opt_values "-s" (generate_cli_args b d out k c pm) =
  [Js.String_ (Js.or (field b "seed") (num (-1)))].
Proof. unfold_cli. destruct pm; opt_norm; reflexivity. Qed.

(** *** The inpainting builder *)

Lemma inpaint_has_m b img mask out :
  has_flag "-m" (inpaint_args b img mask out) =
  negb (Js.is_str (field b "loadMode") "split") &&
  Js.truthy (field b "diffusionModel").
Proof.
  unfold inpaint_args, inpaint_load. destruct mask; flag_norm.
  all: by destruct (Js.is_str _ _).
Qed.

Lemma inpaint_has_diffusion_model b img mask out :
  has_flag "--diffusion-model" (inpaint_args b img mask out) =
  Js.is_str (field b "loadMode") "split" &&
  Js.truthy (field b "diffusionModel").
Proof.
  unfold inpaint_args, inpaint_load. destruct mask; flag_norm.
  all: by destruct (Js.is_str _ _).
Qed.

Lemma inpaint_has_diffusion_fa b img mask out :
  has_flag "--diffusion-fa" (inpaint_args b img mask out) = false.
Proof. unfold inpaint_args, inpaint_load. destruct mask; flag_norm; reflexivity. Qed.

(** *** The video builder *)

Lemma generate_video_has_diffusion_fa b d img out :
  has_flag "--diffusion-fa" (generate_video_args b d img out) =
  Js.is_true (field b "diffusionFa").
Proof. unfold generate_video_args. flag_norm. reflexivity. Qed.

Lemma generate_video_has_lora_dir b d img out :
  has_flag "--lora-model-dir" (generate_video_args b d img out) =
  Js.truthy (field b "prompt") && Js.includes (text (field b "prompt")) "<lora:".
Proof. unfold generate_video_args. flag_norm. reflexivity. Qed.

Lemma generate_video_has_diffusion_model b d img out :
  has_flag "--diffusion-model" (generate_video_args b d img out) =
  Js.truthy (field b "diffusionModel").
Proof. unfold generate_video_args. flag_norm. reflexivity. Qed.



(** *** The command line of the inference server *)

Lemma start_has_m b :
  has_flag "-m" (start_args b) =
  negb (Js.is_str (field b "loadMode") "split") &&
  Js.truthy (field b "diffusionModel").
Proof. unfold start_args. flag_norm. by destruct (Js.is_str _ _). Qed.

Lemma start_has_diffusion_model b :
  has_flag "--diffusion-model" (start_args b) =
  Js.is_str (field b "loadMode") "split" &&
  Js.truthy (field b "diffusionModel").
Proof. unfold start_args. flag_norm. by destruct (Js.is_str _ _). Qed.

(** ** The claims about the argument builders *)

Lemma tokens_app a b : tokens (a ++ b) = tokens a ++ tokens b.
Proof. unfold tokens. apply bind_app. Qed.

Lemma run_of_mid a run c l : run_of (a ++ run ++ c) l -> run_of run l.
Proof.
  intros (pre & post & ->). exists (pre ++ a), (c ++ post).
  by rewrite <- !app_assoc.
Qed.

(** The generation parameters stand next to each other on the command
    line of a text-to-image request, and on that of a video request. *)
Lemma generate_cli_params_run b d out k c pm :
  run_of ["--steps"; Js.String_ (Js.or (field b "steps") (num 20));
          "--cfg-scale"; Js.String_ (Js.or (field b "cfg_scale") (num 7));
          "-W"; Js.string_of_num (rounded_dim (field b "width") 1024 64);
          "-H"; Js.string_of_num (rounded_dim (field b "height") 1024 64);
          "-s"; Js.String_ (Js.or (field b "seed") (num (-1)));
          "-o"; out]
         (tokens (generate_cli_args b d out k c pm)).
Proof.
  unfold generate_cli_args, generate_cli_params.
  exists (tokens (generate_cli_load b) ++
          tokens ([Opt "-p" (text (Js.or (field b "prompt") (Js.JStr "")))] ++
                  text_opt "-n" (field b "negative_prompt"))),
         (tokens (generate_cli_optional b ++ generate_cli_hardware b d ++
                  generate_cli_features b d k c pm ++ [Flag "-v"])).
  rewrite !tokens_app, <- !app_assoc. reflexivity.
Qed.



Lemma generate_video_has_m b d img out :
  has_flag "-m" (generate_video_args b d img out) = false.
Proof. unfold generate_video_args. flag_norm. reflexivity. Qed.

Lemma generate_video_opt_diffusion_model b d img out :
  opt_values "--diffusion-model" (generate_video_args b d img out) =
  when' (Js.truthy (field b "diffusionModel"))
        (model_path "diffusion" (field b "diffusionModel")).
Proof.
  unfold generate_video_args. opt_norm.
  by destruct (Js.truthy (field b "diffusionModel")).
Qed.

(** C5, as the code has it.  The text-to-image and inpainting builders
    and the command line of the inference server emit no [-m] with
    [loadMode = "split"] and no [--diffusion-model] with any other load
    mode.  The video builder reads no load mode: it never emits [-m], and
    whatever the load mode it emits [--diffusion-model] with the model
    that the request names, and only then. *)
Theorem load_modes_exclusive b :
  (field b "loadMode" = Js.JStr "split" ->
   ∀ d out k c pm img mask,
     ¬ In "-m" (flags (generate_cli_args b d out k c pm)) ∧
     ¬ In "-m" (flags (inpaint_args b img mask out)) ∧
     ¬ In "-m" (flags (start_args b))) ∧
  (field b "loadMode" ≠ Js.JStr "split" ->
   ∀ d out k c pm img mask,
     ¬ In "--diffusion-model" (flags (generate_cli_args b d out k c pm)) ∧
     ¬ In "--diffusion-model" (flags (inpaint_args b img mask out)) ∧
     ¬ In "--diffusion-model" (flags (start_args b))) ∧
  (∀ d img out,
     ¬ In "-m" (flags (generate_video_args b d img out)) ∧
     (Js.truthy (field b "diffusionModel") = false ->
      ¬ In "--diffusion-model" (flags (generate_video_args b d img out))) ∧
     (∀ s, strings_only b -> field b "diffusionModel" = Js.JStr s -> s ≠ "" ->
        In "--diffusion-model" (flags (generate_video_args b d img out)) ∧
        run_of ["--diffusion-model"; path_join [MODELS_DIR; "diffusion"; s]]
               (tokens (generate_video_args b d img out)))).
Proof.
  split_and!.
  - intros Hmode d out k c pm img mask.
    apply is_str_spec in Hmode.
    rewrite <- !has_flag_In, generate_cli_has_m, inpaint_has_m, start_has_m, Hmode.
    simpl. done.
  - intros Hmode d out k c pm img mask.
    assert (Js.is_str (field b "loadMode") "split" = false) as Hs.
    { apply not_true_is_false. by rewrite is_str_spec. }
    rewrite <- !has_flag_In, generate_cli_has_diffusion_model,
      inpaint_has_diffusion_model, start_has_diffusion_model, Hs.
    simpl. done.
  - intros d img out.
    rewrite <- !has_flag_In, generate_video_has_m, generate_video_has_diffusion_model.
    split_and!; [done | by intros -> |].
    intros s _ Hs Hne.
    assert (Js.truthy (field b "diffusionModel") = true) as Ht.
    { rewrite Hs. cbn. by apply negb_true_iff, String.eqb_neq. }
    split.
    + apply has_flag_In. by rewrite generate_video_has_diffusion_model.
    + apply opt_values_run.
      rewrite generate_video_opt_diffusion_model, Ht, Hs. left.
Qed.

(** C6, at a video request with flash attention on and a LoRA in the
    prompt: the text-to-image builder drops [--diffusion-fa] for such a
    request, the video builder emits it next to [--lora-model-dir]. *)
Theorem video_flash_attention_with_lora d img out k c pm :
  ¬ In "--diffusion-fa" (flags (generate_cli_args video_lora_request d out k c pm)) ∧
  In "--diffusion-fa" (flags (generate_video_args video_lora_request d img out)) ∧
  In "--lora-model-dir" (flags (generate_video_args video_lora_request d img out)).
Proof.
  rewrite <- !has_flag_In, generate_cli_has_diffusion_fa,
    generate_video_has_diffusion_fa, generate_video_has_lora_dir.
  vm_compute. done.
Qed.

(** C10, as the code has it.  The text-to-image handler replaces a
    falsy field by its default: the number 0 of a JSON body gives
    [-s -1], [--steps 20] and [--cfg-scale 7], and no number is passed on
    as [-s 0].  The string ["0"] of a multipart form is truthy, and is
    passed on: [-s 0], [--steps 0], [--cfg-scale 0].  The server-mode
    handler parses the field before it tests it, so there the number and
    the string give the default alike, and the seed of the payload is
    never 0. *)
Theorem falsy_numeric_defaults b d out k c pm :
  (field b "seed" = num 0 ->
   run_of ["-s"; "-1"] (tokens (generate_cli_args b d out k c pm)) ∧
   opt_values "-s" (generate_cli_args b d out k c pm) = ["-1"]) ∧
  (field b "steps" = num 0 ->
   run_of ["--steps"; "20"] (tokens (generate_cli_args b d out k c pm)) ∧
   opt_values "--steps" (generate_cli_args b d out k c pm) = ["20"]) ∧
  (field b "cfg_scale" = num 0 ->
   run_of ["--cfg-scale"; "7"] (tokens (generate_cli_args b d out k c pm)) ∧
   opt_values "--cfg-scale" (generate_cli_args b d out k c pm) = ["7"]) ∧
  (∀ z, Js.safe_integer z -> field b "seed" = num z ->
        opt_values "-s" (generate_cli_args b d out k c pm) ≠ ["0"]) ∧
  (field b "seed" = Js.JStr "0" ->
   run_of ["-s"; "0"] (tokens (generate_cli_args b d out k c pm)) ∧
   opt_values "-s" (generate_cli_args b d out k c pm) = ["0"]) ∧
  (field b "steps" = Js.JStr "0" ->
   run_of ["--steps"; "0"] (tokens (generate_cli_args b d out k c pm)) ∧
   opt_values "--steps" (generate_cli_args b d out k c pm) = ["0"]) ∧
  (field b "cfg_scale" = Js.JStr "0" ->
   run_of ["--cfg-scale"; "0"] (tokens (generate_cli_args b d out k c pm)) ∧
   opt_values "--cfg-scale" (generate_cli_args b d out k c pm) = ["0"]) ∧
  (field b "seed" = num 0 ∨ field b "seed" = Js.JStr "0" ->
   pl_seed (generate_payload b) = -1) ∧
  (field b "steps" = num 0 ∨ field b "steps" = Js.JStr "0" ->
   pl_steps (generate_payload b) = 20 ∧
   pl_sample_steps (generate_payload b) = 20 ∧
   pl_num_inference_steps (generate_payload b) = 20) ∧
  (field b "cfg_scale" = num 0 ∨ field b "cfg_scale" = Js.JStr "0" ->
   pl_cfg_scale (generate_payload b) = Js.Int 7) ∧
  pl_seed (generate_payload b) ≠ 0.
Proof.
  pose proof (generate_cli_params_run b d out k c pm) as Hrun.
  pose proof (run_of_mid [_; _; _; _; _; _; _; _] [_; _] [_; _] _ Hrun) as Hs.
  pose proof (run_of_mid [] [_; _] [_; _; _; _; _; _; _; _; _; _] _ Hrun) as Hst.
  pose proof (run_of_mid [_; _] [_; _] [_; _; _; _; _; _; _; _] _ Hrun) as Hc.
  clear Hrun.
  rewrite generate_cli_s, generate_cli_steps, generate_cli_cfg_scale.
  split_and!.
  - intros E. by rewrite E in *.
  - intros E. by rewrite E in *.
  - intros E. by rewrite E in *.
  - intros z _ ->. destruct (decide (z = 0)) as [-> | Hz]; [done |].
    rewrite or_truthy by (simpl; by apply negb_true_iff, Z.eqb_neq).
    intros [= H]. by apply (String_num_inj z 0) in H.
  - intros E. by rewrite E in *.
  - intros E. by rewrite E in *.
  - intros E. by rewrite E in *.
  - simpl. by intros [-> | ->].
  - simpl. by intros [-> | ->].
  - simpl. by intros [-> | ->].
  - simpl. unfold int_or. destruct (Js.parseInt _); try done.
    destruct (z =? 0) eqn:E; [done | by apply Z.eqb_neq].
Qed.

(** The coercion is by truthiness: the string ["0"] of a multipart form is
    truthy, and the text-to-image handler passes it on. *)
Remark multipart_zero_seed b d out k c pm :
  field b "seed" = Js.JStr "0" ->
  opt_values "-s" (generate_cli_args b d out k c pm) = ["0"].
Proof. rewrite generate_cli_s. by intros ->. Qed.

(** ** The claims about the server-mode batch and the log buffer *)

Lemma int_or_num z dflt : int_or (num z) dflt = if z =? 0 then dflt else z.
Proof. reflexivity. Qed.

(** With a seed of 1 or more, a batch of any size sends the seeds
    [S, S + 1, S + 2, ...]. *)
Lemma generate_loop_increments reply now count :
  (∀ i, ∃ x, reply i = Image x) ->
  ∀ i pl files d sent,
    0 <= i -> 1 <= pl_seed pl ->
    pl_seed <$> (generate_loop count i pl reply now files d sent).2 =
    (pl_seed <$> sent) ++
    ((λ j, pl_seed pl + (if i =? 0 then 0 else 1) + Z.of_nat j) <$> seq 0 count).
Proof.
  intros Hr. induction count as [|count IH]; intros i pl files d sent Hi Hs.
  - simpl. by rewrite app_nil_r.
  - cbn [generate_loop]. destruct (Hr i) as [x ->].
    assert ((pl_seed pl =? -1) = false) as -> by lia.
    cbn [negb andb].
    destruct (Z.ltb_spec 0 i) as [Hpos | H0].
    + rewrite IH by (simpl; lia).
      assert ((i =? 0) = false) as -> by lia.
      assert ((i + 1 =? 0) = false) as -> by lia.
      rewrite fmap_app, <- app_assoc. f_equal.
      cbn [fmap list_fmap seq app pl_seed set_seed]. f_equal; [lia |].
      rewrite <- fmap_S_seq, <- list_fmap_compose.
      apply list_fmap_ext. intros _ j _. simpl. lia.
    + assert (i = 0) as -> by lia. rewrite IH by (simpl; lia).
      rewrite fmap_app, <- app_assoc. f_equal.
      cbn [fmap list_fmap seq app]. change (0 =? 0) with true. cbn iota.
      change (0 + 1 =? 0) with false. cbn iota. f_equal; [lia |].
      rewrite <- fmap_S_seq, <- list_fmap_compose.
      apply list_fmap_ext. intros _ j _. simpl. lia.
Qed.

Lemma generate_loop_image reply now count i pl files d sent x :
  reply i = Image x ->
  generate_loop (S count) i pl reply now files d sent =
  let pl1 := if negb (pl_seed pl =? -1) && (0 <? i)
             then set_seed (pl_seed pl + 1) pl else pl in
  let filename := "gen_" +:+ pretty (now i) +:+ "_" +:+ pretty i +:+ ".png" in
  generate_loop count (i + 1) pl1 reply now (files ++ [filename])
                (writeFileSync (path_join [OUTPUT_DIR; filename]) d)
                (sent ++ [pl1]).
Proof. intros H. cbn [generate_loop]. by rewrite H. Qed.

(** C4, as the code has it.  A batch of three with a fixed seed [S] other
    than 0, -1 and -2 sends the seeds [S, S + 1, S + 2], as long as these
    are safe integers; with the seed -1, or 0 (which the handler reads as
    -1), all three stay -1. *)
Theorem batch_of_three_seeds b reply now st proc :
  sdProcess st = Some proc ->
  field b "batch_size" = num 3 ->
  (∀ i, ∃ x, reply i = Image x) ->
  (∀ S, field b "seed" = num S -> S ≠ 0 -> S ≠ -1 -> S ≠ -2 ->
        Js.safe_integer S -> Js.safe_integer (S + 2) ->
        batch_seeds b reply now st = [S; S + 1; S + 2]) ∧
  (field b "seed" = num (-1) ∨ field b "seed" = num 0 ->
   batch_seeds b reply now st = [-1; -1; -1]).
Proof.
  intros Hsd Hb Hr.
  assert (∀ s, pl_seed (generate_payload b) = s ->
            batch_seeds b reply now st =
            [s; if s =? -1 then s else s + 1;
             if s =? -1 then s
             else if s + 1 =? -1 then s + 1 else s + 1 + 1]) as Hseeds.
  { intros s Hs. unfold batch_seeds, generate. rewrite Hsd, Hb.
    unfold num at 1. cbv iota. change (iterations _) with 3%nat.
    destruct (Hr 0) as [x0 E0], (Hr 1) as [x1 E1], (Hr 2) as [x2 E2].
    rewrite (generate_loop_image _ _ _ _ _ _ _ _ _ E0). cbv zeta.
    change (0 + 1) with 1.
    rewrite (generate_loop_image _ _ _ _ _ _ _ _ _ E1). cbv zeta.
    change (1 + 1) with 2.
    rewrite (generate_loop_image _ _ _ _ _ _ _ _ _ E2). cbv zeta.
    cbn [generate_loop snd].
    change (0 <? 0) with false. change (0 <? 1) with true.
    change (0 <? 2) with true. rewrite andb_false_r, !andb_true_r.
    generalize dependent (generate_payload b). intros pl <-.
    rewrite !fmap_app. cbn [fmap list_fmap app].
    destruct (pl_seed pl =? -1) eqn:E; cbn [negb pl_seed set_seed]; rewrite ?E;
      cbn [negb pl_seed set_seed].
    - reflexivity.
    - destruct (pl_seed pl + 1 =? -1); reflexivity. }
  split.
  - intros S HS H0 H1 H2 _ _. rewrite (Hseeds S).
    + assert ((S =? -1) = false) as -> by lia.
      assert ((S + 1 =? -1) = false) as -> by lia.
      by replace (S + 1 + 1) with (S + 2) by lia.
    + simpl. rewrite HS, int_or_num. by assert ((S =? 0) = false) as -> by lia.
  - intros [HS | HS]; rewrite (Hseeds (-1)); try reflexivity.
    all: simpl; by rewrite HS.
Qed.

Lemma generate_sent b reply now st proc :
  sdProcess st = Some proc ->
  (generate b reply now st).2 =
  (generate_loop (iterations match field b "batch_size" with
                             | Js.JUndefined => num 1
                             | v => v
                             end)
                 0 (generate_payload b) reply now [] (disk st) []).2.
Proof.
  intros Hsd. unfold generate. rewrite Hsd.
  destruct (generate_loop _ _ _ _ _ _ _ _) as [[[files | msg] d] sent]; done.
Qed.

(** A batch of [n] with a fixed seed [S] of 1 or more sends the seeds
    [S, S + 1, ..., S + n - 1], as long as these are safe integers. *)
Corollary batch_seeds_increment b reply now st proc (n : nat) S :
  sdProcess st = Some proc ->
  field b "batch_size" = num (Z.of_nat n) ->
  field b "seed" = num S ->
  1 <= S -> Js.safe_integer (S + Z.of_nat n) ->
  (∀ i, ∃ x, reply i = Image x) ->
  batch_seeds b reply now st = (λ j, S + Z.of_nat j) <$> seq 0 n.
Proof.
  intros Hsd Hb HS Hpos _ Hr. unfold batch_seeds.
  rewrite (generate_sent _ _ _ _ _ Hsd), Hb. unfold num at 1. cbv iota.
  change (iterations _) with (Z.to_nat (Z.of_nat n)). rewrite Nat2Z.id.
  assert (pl_seed (generate_payload b) = S) as Hseed.
  { simpl. rewrite HS, int_or_num. by assert ((S =? 0) = false) as -> by lia. }
  rewrite generate_loop_increments by (done || lia).
  rewrite Hseed. simpl. apply list_fmap_ext. intros _ j _. lia.
Qed.

Lemma sd_output_logs chunks st :
  serverLogs (sd_output chunks st) = serverLogs st ++ chunks.
Proof.
  unfold sd_output. revert st.
  induction chunks as [|msg chunks IH]; intros st; simpl.
  - by rewrite app_nil_r.
  - rewrite IH. simpl. by rewrite <- app_assoc.
Qed.

Lemma cli_output_logs chunks p st :
  serverLogs (cli_output chunks p st).2 = serverLogs st ++ chunks.
Proof.
  unfold cli_output. revert p st.
  induction chunks as [|msg chunks IH]; intros p st; cbn [foldl fst snd].
  - by rewrite app_nil_r.
  - destruct (cli_data p msg st) as [p' st'] eqn:E.
    rewrite IH. unfold cli_data in E. simplify_eq. simpl.
    by rewrite <- app_assoc.
Qed.

Lemma slice_last {A} (l : list A) (n : Z) :
  0 < n ->
  slice l (- n) (Z.of_nat (length l)) = drop (length l - Z.to_nat n) l.
Proof.
  intros Hn. unfold slice.
  destruct (Z.ltb_spec (- n) 0) as [Hneg | Hz]; [| lia].
  destruct (Z.ltb_spec (Z.of_nat (length l)) 0); [lia |].
  rewrite Z.min_id.
  replace (Z.to_nat (Z.max (Z.of_nat (length l) + - n) 0))
    with (length l - Z.to_nat n)%nat by lia.
  apply take_ge. rewrite length_drop. lia.
Qed.

(** C7, as the code has it.  The [data] listeners of the server process
    and of the inpainting and video children append every chunk to
    [serverLogs]; nothing is evicted and there is no capacity, the buffer
    holds every chunk in order until it is cleared.  Only the reader is
    bounded: the status route shows the last 50 entries. *)
Theorem log_buffer_appends chunks p st :
  serverLogs (sd_output chunks st) = serverLogs st ++ chunks ∧
  serverLogs (cli_output chunks p st).2 = serverLogs st ++ chunks ∧
  serverLogs (logs_clear st).2 = [] ∧
  api_status st =
    json [("running", JsonBool (bool_decide (is_Some (sdProcess st))));
          ("logs", JsonList (drop (length (serverLogs st) - 50) (serverLogs st)))].
Proof.
  split_and!.
  - apply sd_output_logs.
  - apply cli_output_logs.
  - reflexivity.
  - unfold api_status. by rewrite (slice_last _ 50).
Qed.

(** ** The claims about processes and temporary files *)

Lemma path_join_nonempty a b l : String.eqb (path_join (a :: b :: l)) "" = false.
Proof. unfold path_join. simpl. by destruct a. Qed.

Lemma copy_if_exists_mono src dst d p : p ∈ d -> p ∈ copy_if_exists src dst d.
Proof.
  unfold copy_if_exists, copyFileSync. destruct (existsSync src d); set_solver.
Qed.

Lemma rmSync_gone dir d : dir ∉ rmSync dir d.
Proof. unfold rmSync. rewrite elem_of_filter. by intros [[? _] _]. Qed.

Lemma rmSync_subseteq dir d : rmSync dir d ⊆ d.
Proof. unfold rmSync. intros p. rewrite elem_of_filter. by intros [_ ?]. Qed.

Lemma cleanup_dir_subseteq o d : cleanup_dir o d ⊆ d.
Proof.
  destruct o as [x|]; simpl; [| done].
  destruct (_ && _); [apply rmSync_subseteq | done].
Qed.

Lemma cleanup_dir_gone dir d : dir ≠ "" -> dir ∉ cleanup_dir (Some dir) d.
Proof.
  intros Hne. simpl.
  assert (String.eqb dir "" = false) as -> by by apply String.eqb_neq.
  simpl. unfold existsSync. case_bool_decide; [apply rmSync_gone | done].
Qed.

(** After the child process of a text-to-image request has ended, however
    it ended, the PhotoMaker and Kontext directories of the request are
    gone. *)
Lemma generate_cli_settle_cleans pend ev st dir :
  p_pmImagesDir pend = Some dir ∨ p_kontextRefDir pend = Some dir ->
  dir ≠ "" ->
  dir ∉ disk (generate_cli_settle pend ev st).2.
Proof.
  intros Hdir Hne.
  assert (dir ∉ cleanup_dir (p_kontextRefDir pend)
                  (cleanup_dir (p_pmImagesDir pend) (disk st))) as Hgone.
  { destruct Hdir as [-> | ->].
    - intros H. apply cleanup_dir_subseteq in H. by apply cleanup_dir_gone in H.
    - by apply cleanup_dir_gone. }
  unfold generate_cli_settle.
  destruct ev as [[[| |]|]|]; simpl; try done.
  by destruct (existsSync _ _).
Qed.

Lemma foldl_unlink_gone l d f :
  f ∈ l -> f ∉ foldl (λ d f, unlinkSync f d) d l.
Proof.
  assert (∀ l d, f ∉ d -> f ∉ foldl (λ d f, unlinkSync f d) d l) as Hkeep.
  { clear. induction l as [|x l IH]; intros d Hd; simpl; [done |].
    apply IH. unfold unlinkSync. by intros [? _]%elem_of_difference. }
  revert d. induction l as [|x l IH]; intros d Hf; simpl.
  - by apply elem_of_nil in Hf.
  - apply elem_of_cons in Hf as [-> | Hf]; [| by apply IH].
    apply Hkeep. unfold unlinkSync. intros [_ Hx]%elem_of_difference.
    by apply Hx, elem_of_singleton.
Qed.

(** After the child process of an inpainting or video request has ended,
    however it ended, the uploaded files of the request are gone. *)
Lemma cli_settle_cleans what pend ev st f :
  f ∈ p_uploaded pend -> f ∉ disk (cli_settle what pend ev st).2.
Proof.
  intros Hf.
  assert (∀ st, f ∉ disk (unlink_uploaded pend st)) as Hgone.
  { intros st0. unfold unlink_uploaded. simpl. by apply foldl_unlink_gone. }
  unfold cli_settle.
  destruct ev as [[[| |]|]|]; simpl; try apply Hgone.
  destruct (existsSync _ _); apply Hgone.
Qed.

(** The conversion route checks its parameters before anything else. *)
Lemma convert_without_model b st :
  Js.truthy (field b "sourceModel") = false ->
  convert_begin b st =
  (Responded (status_json 400 [("success", JsonBool false);
                               ("error", JsonStr "Missing required parameters")]),
   st).
Proof.
  intros H. unfold convert_begin. rewrite H. simpl.
  by rewrite orb_true_r.
Qed.

(** The video handler starts its child process whatever the state of the
    cli slot is. *)
Lemma generate_video_begin_spawns r now st :
  ∃ pend st',
    generate_video_begin r now st = (Awaiting pend, st') ∧
    cliProcess st' = Some (p_proc pend) ∧
    spawned st' = spawned st ++ [p_proc pend].
Proof. unfold generate_video_begin. simpl. by eexists _, _. Qed.

(** C1, as the code has it.  The cli slot has no busy check: a
    text-to-image request that names a model and arrives while a cli
    process is running is not rejected; a second process is spawned and
    [cliProcess] is overwritten with it, the first process being neither
    signalled nor tracked any longer.  The fast rejection exists for the
    server slot only: [/api/start] answers 400 and changes nothing while
    [sdProcess] is set. *)
Theorem cli_slot_has_no_busy_check r now st p :
  cliProcess st = Some p ->
  Js.truthy (field (req_body r) "diffusionModel") = true ->
  (∃ pend st',
     generate_cli_begin r now st = (Awaiting pend, st') ∧
     cliProcess st' = Some (p_proc pend) ∧
     pid (p_proc pend) = length (spawned st) ∧
     spawned st' = spawned st ++ [p_proc pend] ∧
     signals st' = signals st) ∧
  (∀ b q, sdProcess st = Some q ->
     start b st =
     (status_json 400 [("message", JsonStr "Server already running")], st)).
Proof.
  intros Hcli Hmodel. split.
  - unfold generate_cli_begin.
    destruct (materialize_pm _ _ _ _) as [pm d1]. rewrite Hmodel. simpl.
    eexists _, _. split; [reflexivity |]. simpl. done.
  - intros b q Hsd. unfold start. by rewrite Hsd.
Qed.

Lemma cli_job_begin_slot r now st job st1 :
  cli_job_begin r now st job st1 ->
  cliProcess st1 = Some (p_proc job) ∧
  pid (p_proc job) = length (spawned st) ∧
  spawned st1 = spawned st ++ [p_proc job] ∧
  signals st1 = signals st.
Proof.
  intros [H | [H | H]]; revert H.
  - unfold generate_cli_begin.
    destruct (materialize_pm _ _ _ _) as [pm d1].
    destruct (negb _); [done |]. cbn. by intros [= <- <-].
  - unfold inpaint_begin.
    destruct (first_file r "initImage") as [f|];
      [| destruct (Js.truthy (field (req_body r) "initImagePath")); [| done]].
    all: destruct (_ && _); [| done]; cbn; by intros [= <- <-].
  - unfold generate_video_begin. cbn. by intros [= <- <-].
Qed.

Lemma close_event_signalled p code st sig :
  close_event p code (kill p sig st) = Closed None.
Proof.
  unfold close_event, kill. cbn [signals].
  rewrite bool_decide_true; [done |].
  rewrite fmap_app. apply elem_of_app. right. cbn. left.
Qed.

Lemma close_event_other p q code st sig :
  pid q ≠ pid p -> pid p ∉ (signals st).*1 ->
  close_event p code (kill q sig st) = Closed (Some code).
Proof.
  intros Hpid Hsig. unfold close_event, kill. cbn [signals].
  rewrite bool_decide_false; [done |].
  rewrite fmap_app. intros [H | H]%elem_of_app; [done |].
  cbn in H. apply list_elem_of_singleton in H. by apply Hpid.
Qed.

(** C9, as the code has it.  The cancel request signals the process in
    the [cliProcess] slot, whichever job that is: the signal ends the
    process, its [close] listener clears the slot and its handler answers
    [{message: "Cancelled"}] with status 200.  With an empty slot the
    request answers [No CLI process running] and signals nothing.  A job
    that is running but is not in the slot is not signalled and ends with
    its own exit code, which no handler answers with [Cancelled].  A job
    is in the slot from its start until the next job starts or any job
    closes: each of the three handlers puts its process there without
    looking at what the slot holds, and each clears the slot when its
    own process has ended.  So of two jobs started one after the other
    the cancel request ends the second and leaves the first running, and
    once either of them has closed it finds no process to cancel. *)
Theorem cancel_running_cli_job :
  (∀ st job code what,
     cliProcess st = Some (p_proc job) ->
     let st' := (cancel_cli st).2 in
     let ev := close_event (p_proc job) code st' in
     (cancel_cli st).1 = json [("message", JsonStr "Cancelled")] ∧
     signals st' = signals st ++ [(pid (p_proc job), "SIGTERM")] ∧
     ev = Closed None ∧
     (generate_cli_settle job ev st').1 =
       mkResponse 200 [("message", JsonStr "Cancelled")] ∧
     cliProcess (generate_cli_settle job ev st').2 = None ∧
     (cli_settle what job ev st').1 =
       mkResponse 200 [("message", JsonStr "Cancelled")] ∧
     cliProcess (cli_settle what job ev st').2 = None) ∧
  (∀ st, cliProcess st = None ->
     cancel_cli st = (json [("message", JsonStr "No CLI process running")], st)) ∧
  (∀ st q job code what st2,
     cliProcess st = Some q -> pid q ≠ pid (p_proc job) ->
     pid (p_proc job) ∉ (signals st).*1 ->
     let ev := close_event (p_proc job) code (cancel_cli st).2 in
     ev = Closed (Some code) ∧
     (generate_cli_settle job ev st2).1 ≠
       mkResponse 200 [("message", JsonStr "Cancelled")] ∧
     (cli_settle what job ev st2).1 ≠
       mkResponse 200 [("message", JsonStr "Cancelled")]) ∧
  (∀ r now st job st1,
     cli_job_begin r now st job st1 ->
     cliProcess st1 = Some (p_proc job) ∧
     pid (p_proc job) = length (spawned st) ∧
     signals st1 = signals st) ∧
  (∀ other ev st what,
     cliProcess (generate_cli_settle other ev st).2 = None ∧
     cliProcess (cli_settle what other ev st).2 = None) ∧
  (∀ r1 r2 now1 now2 st job1 st1 job2 st2 code,
     Forall (λ s, (s.1 < length (spawned st))%nat) (signals st) ->
     cli_job_begin r1 now1 st job1 st1 ->
     cli_job_begin r2 now2 st1 job2 st2 ->
     signals (cancel_cli st2).2 = signals st ++ [(pid (p_proc job2), "SIGTERM")] ∧
     close_event (p_proc job2) code (cancel_cli st2).2 = Closed None ∧
     close_event (p_proc job1) code (cancel_cli st2).2 = Closed (Some code) ∧
     (∀ job ev what,
        job = job1 ∨ job = job2 ->
        cancel_cli (generate_cli_settle job ev st2).2 =
          (json [("message", JsonStr "No CLI process running")],
           (generate_cli_settle job ev st2).2) ∧
        cancel_cli (cli_settle what job ev st2).2 =
          (json [("message", JsonStr "No CLI process running")],
           (cli_settle what job ev st2).2))).
Proof.
  assert (∀ other ev st what,
            cliProcess (generate_cli_settle other ev st).2 = None ∧
            cliProcess (cli_settle what other ev st).2 = None) as Hclear.
  { intros other ev st what. split.
    - unfold generate_cli_settle. destruct ev as [[[| |]|]|]; cbn; try done.
      by destruct (existsSync _ _).
    - unfold cli_settle. destruct ev as [[[| |]|]|]; cbn; try done.
      by destruct (existsSync _ _). }
  assert (∀ st, cliProcess st = None ->
            cancel_cli st =
            (json [("message", JsonStr "No CLI process running")], st)) as Hnone.
  { intros st Hslot. unfold cancel_cli. by rewrite Hslot. }
  split_and!.
  - intros st job code what Hslot. cbv zeta.
    unfold cancel_cli. rewrite Hslot. cbn [fst snd].
    rewrite close_event_signalled. split_and!; reflexivity.
  - exact Hnone.
  - intros st q job code what st2 Hslot Hpid Hsig. cbv zeta.
    unfold cancel_cli. rewrite Hslot. cbn [snd].
    rewrite close_event_other by done.
    split_and!; [done | |].
    + unfold generate_cli_settle. destruct code as [|c|c]; cbn; try done.
      by destruct (existsSync _ _).
    + unfold cli_settle. destruct code as [|c|c]; cbn; try done.
      by destruct (existsSync _ _).
  - intros r now st job st1 H.
    by destruct (cli_job_begin_slot _ _ _ _ _ H) as (? & ? & _ & ?).
  - exact Hclear.
  - intros r1 r2 now1 now2 st job1 st1 job2 st2 code Hinv H1 H2.
    destruct (cli_job_begin_slot _ _ _ _ _ H1) as (_ & Hp1 & Hsp1 & Hsig1).
    destruct (cli_job_begin_slot _ _ _ _ _ H2) as (Hslot2 & Hp2 & _ & Hsig2).
    unfold cancel_cli at 1 2 3. rewrite Hslot2. cbn [snd].
    split_and!.
    + unfold kill. cbn [signals]. by rewrite Hsig2, Hsig1.
    + apply close_event_signalled.
    + apply close_event_other.
      * rewrite Hp1, Hp2, Hsp1, length_app. cbn. lia.
      * rewrite Hsig2, Hsig1, Hp1. intros Hin.
        apply list_elem_of_fmap in Hin as (sg & E & Hin).
        rewrite Forall_forall in Hinv. apply Hinv in Hin. lia.
    + intros job ev what _. destruct (Hclear job ev st2 what) as [E1 E2].
      split; by apply Hnone.
Qed.

(** Without a model the text-to-image handler answers 400 and returns;
    what it has copied into the temp directory by then stays. *)
Lemma generate_cli_begin_without_model r now st :
  Js.truthy (field (req_body r) "diffusionModel") = false ->
  generate_cli_begin r now st =
  (Responded MODEL_REQUIRED,
   set_disk (materialize_pm (req_body r) now (req_pmImagesDir r) (disk st)).2 st).
Proof.
  intros Hmodel. unfold generate_cli_begin.
  destruct (materialize_pm _ _ _ _) as [pm d1]. by rewrite Hmodel.
Qed.

Lemma materialize_pm_path_request now d :
  path_join [TEMP_DIR; "pm_" +:+ pretty now] ∈
  (materialize_pm pm_path_request now None d).2.
Proof.
  unfold materialize_pm.
  change (field pm_path_request "photoMakerImages")
    with (Js.JArr ["/home/user/face.png"]).
  change (Js.truthy (field pm_path_request "pmGalleryImages")) with false.
  cbn [ensure_pm_dir foldl snd].
  apply copy_if_exists_mono. unfold mkdirSync. set_solver.
Qed.

(** The same holds for what the upload middleware has stored: a Kontext
    reference image uploaded with a request that names no model stays in
    its temp directory. *)
Lemma kontext_upload_without_model_stays t now st :
  ∃ st',
    let '(r, d) := cliUpload
                     (mkRequest prompt_only_request
                                [mkUpload "kontextRefImage" "ref.png" t]) (disk st) in
    generate_cli_begin r now (set_disk d st) = (Responded MODEL_REQUIRED, st') ∧
    path_join [TEMP_DIR; "kontext_" +:+ pretty t] ∈ disk st' ∧
    path_join [path_join [TEMP_DIR; "kontext_" +:+ pretty t];
               pretty t +:+ "_ref.png"] ∈ disk st'.
Proof.
  unfold cliUpload, cliUpload_file, cliUpload_destination, cliUpload_filename.
  cbn [foldl uploads body fst snd fieldname stored_at originalname].
  change (String.eqb "kontextRefImage" "kontextRefImage") with true. cbv iota.
  eexists. split; [by apply generate_cli_begin_without_model |].
  unfold materialize_pm, add_file. cbn [req_body req_pmImagesDir].
  change (field prompt_only_request "photoMakerImages") with Js.JUndefined.
  change (Js.truthy (field prompt_only_request "pmGalleryImages")) with false.
  cbn [disk set_disk snd]. unfold writeFileSync, mkdirSync.
  split; set_solver.
Qed.

(** C2, at two requests that are rejected early.  A text-to-image
    request that names a PhotoMaker image and no model is answered 400
    MODEL_REQUIRED, and the PhotoMaker directory the handler has just
    created stays on disk; an inpainting request that uploads a mask and no
    init image is answered 400, and the uploaded mask stays on disk. *)
Theorem early_rejection_leaves_temp_files now t st :
  (∃ st',
     generate_cli_begin (mkReq pm_path_request ∅ None None None) now st =
       (Responded MODEL_REQUIRED, st') ∧
     path_join [TEMP_DIR; "pm_" +:+ pretty now] ∈ disk st' ∧
     spawned st' = spawned st) ∧
  (∃ st',
     let '(r, d) := inpaintUpload
                      (mkRequest prompt_only_request
                                 [mkUpload "mask" "mask.png" t]) (disk st) in
     inpaint_begin r now (set_disk d st) =
       (Responded (status_json 400 [("message", JsonStr "Init image required")]),
        st') ∧
     path_join [TEMP_DIR; "mask_" +:+ pretty t +:+ ".png"] ∈ disk st' ∧
     spawned st' = spawned st).
Proof.
  split.
  - eexists. split; [by apply generate_cli_begin_without_model |].
    split; [apply materialize_pm_path_request | reflexivity].
  - unfold inpaintUpload, inpaintUpload_file, inpaint_begin.
    cbn [foldl uploads body fst snd fieldname stored_at req_body].
    unfold first_file, add_file. cbn [req_files req_body].
    rewrite lookup_insert_ne by done. rewrite lookup_empty.
    cbn [mbind option_bind]. eexists. split; [reflexivity |].
    split; [| reflexivity]. cbn [disk set_disk].
    unfold writeFileSync. apply elem_of_union_l. by apply elem_of_singleton.
Qed.

(** C8, at requests without a model.  The video and inpainting handlers
    do not answer with a client error, they spawn [sd-cli]; the
    text-to-image handler answers 400 only after it has created the
    PhotoMaker directory. *)
Theorem missing_model_not_rejected_first now t st :
  (∃ pend st',
     generate_video_begin (mkReq prompt_only_request ∅ None None None) now st =
       (Awaiting pend, st') ∧
     spawned st' = spawned st ++ [p_proc pend]) ∧
  (∃ pend st',
     let '(r, d) := inpaintUpload
                      (mkRequest prompt_only_request
                                 [mkUpload "initImage" "photo.png" t]) (disk st) in
     inpaint_begin r now (set_disk d st) = (Awaiting pend, st') ∧
     spawned st' = spawned st ++ [p_proc pend]) ∧
  (∃ resp st',
     generate_cli_begin (mkReq pm_path_request ∅ None None None) now st =
       (Responded resp, st') ∧
     status resp = 400 ∧
     path_join [TEMP_DIR; "pm_" +:+ pretty now] ∈ disk st').
Proof.
  split_and!.
  - unfold generate_video_begin. simpl. eexists _, _. split; reflexivity.
  - unfold inpaintUpload, inpaintUpload_file, inpaint_begin.
    cbn [foldl uploads body fst snd fieldname stored_at req_body].
    unfold first_file, add_file. cbn [req_files req_body].
    rewrite lookup_insert_eq. cbn [mbind option_bind head app default].
    rewrite lookup_empty. cbn [default app head].
    unfold Js.truthy. rewrite path_join_nonempty. cbn [negb andb disk set_disk].
    unfold existsSync, writeFileSync. rewrite bool_decide_true by set_solver.
    simpl. eexists _, _. split; reflexivity.
  - eexists _, _. split; [by apply generate_cli_begin_without_model |].
    split; [reflexivity | apply materialize_pm_path_request].
Qed.

(** ** Further properties of the handlers *)

(** *** Paths below a directory *)

Lemma prefix_app_r a b x :
  String.prefix a b = true -> String.prefix a (b +:+ x) = true.
Proof.
  revert b. induction a as [|u a' IH]; intros [|v b']; simpl; try done.
  - intros _. by destruct x.
  - destruct (Ascii.ascii_dec u v); [apply IH | done].
Qed.

Lemma prefix_trans a b c :
  String.prefix a b = true -> String.prefix b c = true ->
  String.prefix a c = true.
Proof.
  revert b c. induction a as [|u a' IH]; intros [|v b'] [|w c']; simpl; try done.
  destruct (Ascii.ascii_dec u v) as [-> |]; [| done].
  destruct (Ascii.ascii_dec v w) as [-> |]; [| done].
  destruct (Ascii.ascii_dec w w); [apply IH | done].
Qed.

Lemma is_under_trans a b c :
  is_under a b = true -> is_under b c = true -> is_under a c = true.
Proof.
  unfold is_under. intros Hab Hbc.
  apply (prefix_trans _ (b +:+ "/")); [by apply prefix_app_r | done].
Qed.

Lemma rmSync_under_gone dir d p :
  p = dir ∨ is_under dir p = true -> p ∉ rmSync dir d.
Proof.
  unfold rmSync. rewrite elem_of_filter. intros [-> | Hu] [[Hne Hnu] _];
    [done | congruence].
Qed.

Lemma rmSync_elem dir d p :
  p ∈ d -> p ∉ rmSync dir d -> p = dir ∨ is_under dir p = true.
Proof.
  unfold rmSync. rewrite elem_of_filter. intros Hp Hn.
  destruct (decide (p = dir)) as [-> | Hne]; [by left |].
  destruct (is_under dir p) eqn:E; [by right |].
  exfalso. by apply Hn.
Qed.

Lemma cleanup_dir_elem o d p :
  p ∈ d -> p ∉ cleanup_dir o d ->
  ∃ dir, o = Some dir ∧ dir ≠ "" ∧ dir ∈ d ∧ (p = dir ∨ is_under dir p = true).
Proof.
  destruct o as [dir|]; simpl; [| done].
  destruct (String.eqb_spec dir ""); simpl; [done |].
  unfold existsSync. case_bool_decide; [| done].
  intros Hp Hn. exists dir. split_and!; [done | done | done |].
  by apply (rmSync_elem dir d).
Qed.

Lemma cleanup_dir_under_gone dir d p :
  dir ≠ "" -> dir ∈ d -> p = dir ∨ is_under dir p = true ->
  p ∉ cleanup_dir (Some dir) d.
Proof.
  intros Hne Hin Hp. simpl.
  assert (String.eqb dir "" = false) as -> by by apply String.eqb_neq.
  simpl. unfold existsSync. rewrite bool_decide_true by done.
  by apply rmSync_under_gone.
Qed.

(** Both clean-up steps together: whatever lies in or below one of the two
    directories is gone afterwards. *)
Lemma cleanup_both pm k d dir p :
  pm = Some dir ∨ k = Some dir ->
  dir ≠ "" -> dir ∈ d ->
  p = dir ∨ is_under dir p = true ->
  p ∉ cleanup_dir k (cleanup_dir pm d).
Proof.
  intros [-> | ->] Hne Hin Hp.
  - intros H. apply cleanup_dir_subseteq in H.
    by apply (cleanup_dir_under_gone dir d p).
  - destruct (decide (dir ∈ cleanup_dir pm d)) as [Hd | Hd].
    + by apply cleanup_dir_under_gone.
    + intros H. apply cleanup_dir_subseteq in H. revert H.
      destruct (cleanup_dir_elem pm d dir Hin Hd) as (x & -> & Hxne & Hx & Hdx).
      apply cleanup_dir_under_gone; [done | done |].
      destruct Hp as [-> | Hp]; [done |]. right.
      destruct Hdx as [-> | Hdx]; [done | by apply (is_under_trans x dir p)].
Qed.

(** *** How a command-line job ends *)

Lemma materialize_pm_keeps b now dir d :
  (materialize_pm b now (Some dir) d).1 = Some dir.
Proof.
  unfold materialize_pm.
  destruct (field b "photoMakerImages") as [| | | | |[|img imgs]]; simpl;
    destruct (Js.truthy _); try done;
    destruct (JSON_parse _) as [[|g gs]|]; done.
Qed.

Lemma generate_cli_settle_disk pend ev st :
  disk (generate_cli_settle pend ev st).2 =
  cleanup_dir (p_kontextRefDir pend) (cleanup_dir (p_pmImagesDir pend) (disk st)).
Proof.
  unfold generate_cli_settle.
  destruct ev as [[[| |]|]|]; simpl; try done.
  by destruct (existsSync _ _).
Qed.

(** X1. Once the child process of a text-to-image request has ended,
    with any exit code, by a signal or by a spawn error, the PhotoMaker
    directory and the Kontext directory of the request are gone from the
    disk with everything below them. *)
Theorem generate_cli_temp_dirs_removed r now st pend st1 ev st2 dir p :
  generate_cli_begin r now st = (Awaiting pend, st1) ->
  req_kontextRefDir r = Some dir ∨ req_pmImagesDir r = Some dir
    ∨ p_pmImagesDir pend = Some dir ->
  dir ≠ "" -> dir ∈ disk st2 ->
  p = dir ∨ is_under dir p = true ->
  p ∉ disk (generate_cli_settle pend ev st2).2.
Proof.
  intros Hbegin Hdir Hne Hin Hp. rewrite generate_cli_settle_disk.
  apply (cleanup_both _ _ _ dir); try done.
  revert Hbegin. unfold generate_cli_begin.
  destruct (materialize_pm _ _ _ _) as [pm d1] eqn:Epm.
  destruct (negb _); [done |]. simpl. intros [= <- _]. simpl.
  destruct Hdir as [Hk | [Hpm | Hpm]]; [by right | | by left].
  left. rewrite Hpm in Epm.
  pose proof (materialize_pm_keeps (req_body r) now dir (disk st)) as Hkeep.
  by rewrite Epm in Hkeep.
Qed.

Lemma cli_settle_disk what pend ev st :
  disk (cli_settle what pend ev st).2 =
  foldl (λ d f, unlinkSync f d) (disk st) (p_uploaded pend).
Proof.
  unfold cli_settle.
  destruct ev as [[[| |]|]|]; simpl; try done.
  by destruct (existsSync _ _).
Qed.

(** X2. Once the child process of an inpainting or video request has
    ended, in any way, the files uploaded with the request (init image,
    mask) are gone from the disk; a request that uploaded nothing, one
    whose init image comes from the gallery, leaves the disk as it is. *)
Theorem uploads_removed_after_settle r now st pend st1 ev st2 :
  (inpaint_begin r now st = (Awaiting pend, st1) ->
   (∀ f, first_file r "initImage" = Some f ∨ first_file r "mask" = Some f ->
         f ∉ disk (inpaint_settle pend ev st2).2) ∧
   (first_file r "initImage" = None -> first_file r "mask" = None ->
    disk (inpaint_settle pend ev st2).2 = disk st2)) ∧
  (generate_video_begin r now st = (Awaiting pend, st1) ->
   (∀ f, req_file r = Some f -> f ∉ disk (generate_video_settle pend ev st2).2) ∧
   (req_file r = None -> disk (generate_video_settle pend ev st2).2 = disk st2)).
Proof.
  unfold inpaint_settle, generate_video_settle. rewrite !cli_settle_disk. split.
  - unfold inpaint_begin.
    destruct (match first_file r "initImage" with
              | Some f => Some f
              | None => _
              end) as [img|]; [| done].
    destruct (_ && _); [| done]. simpl. intros [= <- _]. simpl. split.
    + intros f Hf. apply foldl_unlink_gone. rewrite elem_of_app.
      destruct Hf as [-> | ->]; [left | right]; by apply list_elem_of_singleton.
    + by intros -> ->.
  - unfold generate_video_begin. simpl. intros [= <- _]. simpl. split.
    + intros f ->. apply foldl_unlink_gone. simpl. by apply list_elem_of_singleton.
    + by intros ->.
Qed.

(** X3. A text-to-image, inpainting or video job is reported as
    [Complete] exactly when its process exited with code 0 and the output
    file exists once the temp files are removed; the answer has status 200
    only then or after a cancellation; and however the process ended,
    [cliProcess] is cleared. *)
Theorem job_outcome what pend ev st :
  let complete :=
    json [("message", JsonStr "Complete"); ("filenames", JsonList [p_filename pend])] in
  (let out := generate_cli_settle pend ev st in
   cliProcess out.2 = None ∧
   (out.1 = complete <-> ev = Closed (Some 0) ∧ p_outputPath pend ∈ disk out.2) ∧
   (status out.1 = 200 <->
    ev = Closed None ∨ ev = Closed (Some 0) ∧ p_outputPath pend ∈ disk out.2)) ∧
  (let out := cli_settle what pend ev st in
   cliProcess out.2 = None ∧
   (out.1 = complete <-> ev = Closed (Some 0) ∧ p_outputPath pend ∈ disk out.2) ∧
   (status out.1 = 200 <->
    ev = Closed None ∨ ev = Closed (Some 0) ∧ p_outputPath pend ∈ disk out.2)).
Proof using Type.
  clear RESOURCES_PATH platform JSON_parse. cbv zeta. split.
  - unfold generate_cli_settle.
    destruct ev as [[[| |]|]|]; simpl.
    + unfold existsSync. case_bool_decide; simpl; intuition (first [done | congruence]).
    + intuition (first [done | congruence]).
    + intuition (first [done | congruence]).
    + intuition (first [done | congruence]).
    + intuition (first [done | congruence]).
  - unfold cli_settle.
    destruct ev as [[[| |]|]|]; simpl.
    + unfold existsSync. case_bool_decide; simpl; intuition (first [done | congruence]).
    + intuition (first [done | congruence]).
    + intuition (first [done | congruence]).
    + intuition (first [done | congruence]).
    + intuition (first [done | congruence]).
Qed.

(** *** The server-mode batch *)

Lemma generate_loop_all_images reply now count :
  ∀ i pl files d sent,
    (∀ j, (j < count)%nat -> ∃ x, reply (i + Z.of_nat j) = Image x) ->
    let out := generate_loop count i pl reply now files d sent in
    out.1.1 = inl (files ++ ((λ j, batch_filename now (i + Z.of_nat j)) <$> seq 0 count)) ∧
    out.1.2 = list_to_set ((λ j, path_join [OUTPUT_DIR; batch_filename now (i + Z.of_nat j)])
                             <$> seq 0 count) ∪ d ∧
    length out.2 = (length sent + count)%nat.
Proof.
  induction count as [|count IH]; intros i pl files d sent Hr; cbv zeta.
  - simpl. rewrite app_nil_r. split_and!; [done | by rewrite union_empty_l_L | lia].
  - destruct (Hr 0%nat ltac:(lia)) as [x Hx]. rewrite Z.add_0_r in Hx.
    rewrite (generate_loop_image _ _ _ _ _ _ _ _ _ Hx). cbv zeta.
    edestruct (IH (i + 1)) as (H1 & H2 & H3); last first.
    { rewrite H1, H2, H3. clear H1 H2 H3.
      cbn [seq fmap list_fmap]. rewrite Z.add_0_r.
      rewrite <- !fmap_S_seq, <- !list_fmap_compose.
      assert (∀ j : nat, i + 1 + Z.of_nat j = i + Z.of_nat (S j)) as Hj by lia.
      split_and!.
      - rewrite <- app_assoc. simpl. do 3 f_equal.
        apply list_fmap_ext. intros _ j _. simpl. by rewrite Hj.
      - assert ((λ j, path_join [OUTPUT_DIR; batch_filename now (i + 1 + Z.of_nat j)])
                  <$> seq 0 count =
                (λ j, path_join [OUTPUT_DIR; batch_filename now (i + Z.of_nat j)])
                  ∘ S <$> seq 0 count) as ->.
        { apply list_fmap_ext. intros _ j _. simpl. by rewrite Hj. }
        unfold writeFileSync. fold (batch_filename now i). rewrite list_to_set_cons.
        rewrite (assoc_L (∪)). f_equal. apply (comm_L (∪)).
      - rewrite length_app. simpl. lia. }
    intros j Hj. destruct (Hr (S j) ltac:(lia)) as [y Hy]. exists y.
    rewrite <- Hy. f_equal. lia.
Qed.

Lemma generate_loop_first_failure reply now k :
  ∀ count i pl files d sent m,
    (k < count)%nat ->
    (∀ j, (j < k)%nat -> ∃ x, reply (i + Z.of_nat j) = Image x) ->
    reply_error (reply (i + Z.of_nat k)) = Some m ->
    let out := generate_loop count i pl reply now files d sent in
    out.1.1 = inr m ∧
    out.1.2 = list_to_set ((λ j, path_join [OUTPUT_DIR; batch_filename now (i + Z.of_nat j)])
                             <$> seq 0 k) ∪ d ∧
    length out.2 = (length sent + S k)%nat.
Proof.
  induction k as [|k IH]; intros [|count] i pl files d sent m Hk Hr Hm;
    cbv zeta; try lia.
  - rewrite Z.add_0_r in Hm. cbn [generate_loop].
    destruct (reply i); simpl in Hm; simplify_eq; simpl;
      rewrite length_app, union_empty_l_L; simpl; (split_and!; [done | done | lia]).
  - destruct (Hr 0%nat ltac:(lia)) as [x Hx]. rewrite Z.add_0_r in Hx.
    rewrite (generate_loop_image _ _ _ _ _ _ _ _ _ Hx). cbv zeta.
    assert (Hm' : reply_error (reply (i + 1 + Z.of_nat k)) = Some m).
    { rewrite <- Hm. do 2 f_equal. lia. }
    assert (Hr' : ∀ j, (j < k)%nat -> ∃ y, reply (i + 1 + Z.of_nat j) = Image y).
    { intros j Hj. destruct (Hr (S j) ltac:(lia)) as [y Hy]. exists y.
      rewrite <- Hy. f_equal. lia. }
    edestruct (IH count (i + 1)) as (H1 & H2 & H3); [lia | exact Hr' | exact Hm' |].
    rewrite H1, H2, H3. clear H1 H2 H3.
    cbn [seq fmap list_fmap]. rewrite Z.add_0_r.
    rewrite <- !fmap_S_seq, <- !list_fmap_compose.
    assert (∀ j : nat, i + 1 + Z.of_nat j = i + Z.of_nat (S j)) as Hj by lia.
    split_and!; [done | | rewrite length_app; simpl; lia].
    assert ((λ j, path_join [OUTPUT_DIR; batch_filename now (i + 1 + Z.of_nat j)])
              <$> seq 0 k =
            (λ j, path_join [OUTPUT_DIR; batch_filename now (i + Z.of_nat j)])
              ∘ S <$> seq 0 k) as ->.
    { apply list_fmap_ext. intros _ j _. simpl. by rewrite Hj. }
    unfold writeFileSync. fold (batch_filename now i). rewrite list_to_set_cons.
    rewrite (assoc_L (∪)). f_equal. apply (comm_L (∪)).
Qed.

(** X4. When every call of the inference server returns an image, a
    server-mode request answers [Complete] with one file name per image,
    [gen_<time>_<index>.png] in batch order, every one of these files is on
    disk afterwards and nothing else has changed there, and exactly as many
    payloads were sent as images were asked for. *)
Theorem batch_completes b reply now st proc :
  sdProcess st = Some proc ->
  (∀ j, (j < batch_count b)%nat -> ∃ x, reply (Z.of_nat j) = Image x) ->
  let out := generate b reply now st in
  out.1.1 = json [("message", JsonStr "Complete");
                  ("filenames",
                   JsonList ((λ j, batch_filename now (Z.of_nat j))
                               <$> seq 0 (batch_count b)))] ∧
  disk out.1.2 =
    list_to_set ((λ j, path_join [OUTPUT_DIR; batch_filename now (Z.of_nat j)])
                   <$> seq 0 (batch_count b)) ∪ disk st ∧
  length out.2 = batch_count b.
Proof.
  intros Hsd Hr. cbv zeta. unfold generate. rewrite Hsd.
  fold (batch_count b).
  pose proof (generate_loop_all_images reply now (batch_count b) 0
                (generate_payload b) [] (disk st) [] Hr) as (H1 & H2 & H3).
  destruct (generate_loop _ _ _ _ _ _ _ _) as [[result d] sent].
  simpl in H1, H2, H3. subst result d. simpl. done.
Qed.

(** X5. A server-mode batch stops at the first call that fails: the
    answer is 500 with the message of that failure, no further payload is
    sent, and the images received before the failure stay on disk. *)
Theorem batch_stops_at_first_failure b reply now st proc k m :
  sdProcess st = Some proc ->
  (k < batch_count b)%nat ->
  (∀ j, (j < k)%nat -> ∃ x, reply (Z.of_nat j) = Image x) ->
  reply_error (reply (Z.of_nat k)) = Some m ->
  let out := generate b reply now st in
  out.1.1 = status_json 500 [("message", JsonStr "Generation failed");
                             ("error", JsonStr m)] ∧
  disk out.1.2 =
    list_to_set ((λ j, path_join [OUTPUT_DIR; batch_filename now (Z.of_nat j)])
                   <$> seq 0 k) ∪ disk st ∧
  length out.2 = S k.
Proof.
  intros Hsd Hk Hr Hm. cbv zeta. unfold generate. rewrite Hsd.
  fold (batch_count b).
  pose proof (generate_loop_first_failure reply now k (batch_count b) 0
                (generate_payload b) [] (disk st) [] m Hk Hr Hm) as (H1 & H2 & H3).
  destruct (generate_loop _ _ _ _ _ _ _ _) as [[result d] sent].
  simpl in H1, H2, H3. subst result d. simpl. done.
Qed.

(** *** The server slot *)

Lemma start_idle b st :
  sdProcess st = None ->
  let p := mkProc (length (spawned st))
             (path_join [getActiveBackendPath st;
                         if String.eqb platform "win32" then "sd-server.exe"
                         else "sd-server"])
             (tokens (start_args b)) (getActiveBackendPath st) false in
  start b st =
  (json [("message", JsonStr "Server started");
         ("args", JsonList (tokens (start_args b)))],
   mkState (Some p) (cliProcess st) [] (Some (tokens (start_args b)))
           (activeVersion st) (disk st) (spawned st ++ [p]) (signals st)).
Proof. intros H. unfold start. rewrite H. reflexivity. Qed.

Lemma stop_running st p :
  sdProcess st = Some p ->
  stop st =
  (json [("message", JsonStr "Stopped")],
   mkState None (cliProcess st) (serverLogs st) (lastSdArgs st)
           (activeVersion st) (disk st) (spawned st)
           (signals st ++ [(pid p, "SIGTERM")])).
Proof. intros H. unfold stop. rewrite H. reflexivity. Qed.

(** X6. Starting the inference server on an idle slot spawns
    [sd-server] in the active backend directory with the command line of
    the request and empties the log buffer; stopping it sends SIGTERM to
    that process and frees the slot, after which a second stop and every
    server-mode request are answered 400 and a new start spawns the next
    process. *)
Theorem server_lifecycle b b' st :
  sdProcess st = None ->
  let started := start b st in
  let stopped := stop started.2 in
  let restarted := start b' stopped.2 in
  status started.1 = 200 ∧
  (∃ p, sdProcess started.2 = Some p ∧ pid p = length (spawned st) ∧
        argv p = tokens (start_args b) ∧ cwd p = getActiveBackendPath st ∧
        spawned started.2 = spawned st ++ [p]) ∧
  serverLogs started.2 = [] ∧
  stopped.1 = json [("message", JsonStr "Stopped")] ∧
  sdProcess stopped.2 = None ∧
  signals stopped.2 = signals st ++ [(length (spawned st), "SIGTERM")] ∧
  stop stopped.2 =
    (status_json 400 [("message", JsonStr "Not running")], stopped.2) ∧
  (∀ body reply now,
     generate body reply now stopped.2 =
     (status_json 400 [("message", JsonStr "Server not running")], stopped.2, [])) ∧
  (∃ q, sdProcess restarted.2 = Some q ∧ pid q = S (length (spawned st))).
Proof.
  intros Hidle. cbv zeta. rewrite (start_idle b st Hidle). cbv zeta.
  cbn [snd fst]. erewrite stop_running by reflexivity.
  cbn [snd fst sdProcess cliProcess serverLogs lastSdArgs activeVersion disk
       spawned signals pid].
  split_and!; try done.
  - by eexists.
  - rewrite start_idle by done. cbv zeta. cbn [snd sdProcess spawned].
    eexists. split; [reflexivity |]. cbn [pid]. rewrite length_app. simpl. lia.
Qed.

(** X7. The [close] listener of a server process clears [sdProcess]
    without looking at which process the variable holds: when a server is
    stopped and a new one started before the old process has closed, the
    late [close] event of the old process marks the slot as free although
    the new server was never signalled, and the next start spawns a third
    process beside it. *)
Theorem late_close_frees_successor b b' b'' code st :
  sdProcess st = None ->
  Forall (λ s, (s.1 < length (spawned st))%nat) (signals st) ->
  let restarted := (start b' (stop (start b st).2).2).2 in
  let closed := sd_close code restarted in
  (∃ q, sdProcess restarted = Some q ∧ pid q = S (length (spawned st)) ∧
        ¬ In (pid q) (signals closed).*1) ∧
  sdProcess closed = None ∧
  (∃ r, sdProcess (start b'' closed).2 = Some r ∧
        pid r = S (S (length (spawned st)))).
Proof.
  intros Hidle Hsig. cbv zeta. rewrite (start_idle b st Hidle). cbv zeta.
  cbn [snd fst]. erewrite stop_running by reflexivity.
  cbn [snd fst sdProcess cliProcess serverLogs lastSdArgs activeVersion disk
       spawned signals pid].
  rewrite start_idle by done. cbv zeta. unfold sd_close, set_serverLogs, set_sdProcess.
  cbn [snd fst sdProcess cliProcess
       serverLogs lastSdArgs activeVersion disk spawned signals pid].
  split_and!.
  - eexists. split; [reflexivity |]. cbn [pid]. rewrite length_app. simpl.
    split; [lia |]. rewrite fmap_app, in_app_iff. simpl.
    intros [H | [H | []]]; [| lia].
    apply in_map_iff in H as (s & Hs & Hin).
    rewrite Forall_forall in Hsig. apply list_elem_of_In, Hsig in Hin. lia.
  - done.
  - rewrite start_idle by done. cbv zeta. cbn [snd sdProcess spawned pid].
    eexists. split; [reflexivity |]. cbn [pid]. rewrite !length_app. simpl. lia.
Qed.

(** *** Model conversion *)

(** X8. A conversion is only started when the source model is on disk,
    the output name is free and the command-line tool is installed; the
    child then runs [-M convert] from the source to the output path,
    the handler changes no file and neither process slot, so a cancel
    request made while the conversion runs signals nothing. *)
Theorem convert_guarded b st pend st1 :
  convert_begin b st = (Awaiting pend, st1) ->
  let dir := text (field b "sourceType") in
  let src := path_join [MODELS_DIR; dir; text (field b "sourceModel")] in
  let out := path_join [MODELS_DIR; dir; text (field b "outputName")] in
  src ∈ disk st ∧ (out ∉ disk st) ∧ getSdCliPath st ∈ disk st ∧
  p_outputPath pend = out ∧
  command (p_proc pend) = getSdCliPath st ∧
  argv (p_proc pend) =
    ["-M"; "convert"; "-m"; src; "-o"; out;
     "--type"; text (field b "outputFormat"); "-v"] ∧
  disk st1 = disk st ∧ sdProcess st1 = sdProcess st ∧
  cliProcess st1 = cliProcess st ∧ signals st1 = signals st ∧
  (cliProcess st = None -> signals (cancel_cli st1).2 = signals st).
Proof.
  unfold convert_begin. intros H.
  destruct (negb _ || _ || _ || _); [done |].
  unfold existsSync in H.
  repeat case_bool_decide; simpl in H; try done.
  injection H as <- <-. cbv zeta. simpl.
  split_and!; try done.
  intros Hc. unfold cancel_cli. simpl. by rewrite Hc.
Qed.

(** *** Reading the log buffer *)

Lemma slice_nonneg {A} (l : list A) (s n : Z) :
  0 <= s -> 0 <= n ->
  slice l s (s + n) = take (Z.to_nat n) (drop (Z.to_nat s) l).
Proof.
  intros Hs Hn. unfold slice.
  destruct (Z.ltb_spec (s + n) 0); [lia |].
  destruct (Z.ltb_spec s 0); [lia |].
  destruct (Z_le_gt_dec (Z.of_nat (length l)) s) as [Hle | Hgt].
  - rewrite (Z.min_r s) by lia. rewrite !drop_ge by lia. by rewrite !take_nil.
  - rewrite (Z.min_l s) by lia.
    destruct (Z_le_gt_dec (s + n) (Z.of_nat (length l))).
    + rewrite Z.min_l by lia. f_equal. lia.
    + rewrite Z.min_r by lia.
      rewrite !take_ge; [done | |]; rewrite length_drop; lia.
Qed.

(** X9. With a start index [since >= 0] and a page size [limit >= 0]
    (the values the handler computes from the query, 0 and 100 standing
    in for a missing, zero or non-numeric parameter), the log route
    returns the entries [since .. since + limit) of the buffer, the length
    of the whole buffer, and [hasMore] exactly when entries remain after
    the page. *)
Theorem logs_paging q st :
  let since := int_or (field q "since") 0 in
  let limit := int_or (field q "limit") 100 in
  0 <= since -> 0 <= limit ->
  logs q st =
  json [("logs", JsonList (take (Z.to_nat limit)
                                (drop (Z.to_nat since) (serverLogs st))));
        ("total", JsonNum (Z.of_nat (length (serverLogs st))));
        ("hasMore", JsonBool (since + limit <? Z.of_nat (length (serverLogs st))))]
  ∧ limit ≠ 0.
Proof.
  cbv zeta. intros Hs Hn. split.
  - unfold logs. cbv zeta. rewrite slice_nonneg by done.
    rewrite length_take, length_drop. do 6 f_equal.
    apply eq_true_iff_eq. rewrite !Z.ltb_lt. lia.
  - unfold int_or. destruct (Js.parseInt _); try done.
    destruct (Z.eqb_spec z 0); lia.
Qed.

(** X21. A client that remembers the [total] of its last read and asks
    for the entries from there on gets exactly what the server process
    has written since, in order, provided the page size covers it; the
    new total is the old one plus the number of chunks, and nothing
    more is announced. *)
Theorem logs_tail_round_trip q chunks st :
  int_or (field q "since") 0 = Z.of_nat (length (serverLogs st)) ->
  Z.of_nat (length chunks) <= int_or (field q "limit") 100 ->
  logs q (sd_output chunks st) =
  json [("logs", JsonList chunks);
        ("total", JsonNum (Z.of_nat (length (serverLogs st) + length chunks)));
        ("hasMore", JsonBool false)].
Proof.
  intros Hsince Hlimit. unfold logs. cbv zeta.
  rewrite sd_output_logs, Hsince, slice_nonneg by lia.
  rewrite Nat2Z.id, drop_app_length.
  rewrite take_ge by lia. rewrite length_app.
  do 6 f_equal. apply Z.ltb_ge. lia.
Qed.

(** *** Uploads of the inpainting route *)

Lemma prefix_app a x : String.prefix a (a +:+ x) = true.
Proof.
  induction a as [|u a IH]; simpl; [by destruct x |].
  by destruct (Ascii.ascii_dec u u).
Qed.

Lemma is_under_join dir name : is_under dir (path_join [dir; name]) = true.
Proof.
  unfold is_under, path_join. simpl.
  induction dir as [|u a IH]; simpl.
  - by destruct name.
  - by destruct (Ascii.ascii_dec u u).
Qed.

Lemma inpaintUpload_files ups r0 d0 name :
  let res := foldl inpaintUpload_file (r0, d0) ups in
  req_body res.1 = req_body r0 ∧
  res.2 = list_to_set (inpaintUpload_path <$> ups) ∪ d0 ∧
  req_files res.1 !! name =
    match inpaintUpload_path <$> filter (λ u, fieldname u = name) ups with
    | [] => req_files r0 !! name
    | l => Some (default [] (req_files r0 !! name) ++ l)
    end.
Proof.
  cbv zeta. induction ups as [|u ups IH] using rev_ind; simpl.
  - split_and!; try done. by rewrite union_empty_l_L.
  - rewrite foldl_snoc, filter_app, !fmap_app.
    destruct IH as (IH1 & IH2 & IH3).
    unfold inpaintUpload_file at 1 2 3. simpl. split_and!; [done | |].
    + rewrite IH2, list_to_set_app_L. simpl. unfold writeFileSync.
      fold (inpaintUpload_path u). rewrite union_empty_r_L.
      rewrite (assoc_L (∪)). f_equal. apply (comm_L (∪)).
    + fold (inpaintUpload_path u). rewrite filter_cons, filter_nil.
      destruct (decide (fieldname u = name)) as [-> | Hne]; simpl.
      * rewrite lookup_insert_eq, IH3.
        destruct (inpaintUpload_path <$> filter _ ups) as [|x l]; simpl; [done |].
        by rewrite <- app_assoc.
      * rewrite lookup_insert_ne by done. rewrite app_nil_r. apply IH3.
Qed.

Lemma inpaintUpload_first rq d name :
  first_file (inpaintUpload rq d).1 name =
  head (inpaintUpload_path <$> filter (λ u, fieldname u = name) (uploads rq)).
Proof.
  unfold first_file, inpaintUpload.
  destruct (inpaintUpload_files (uploads rq) (mkReq (body rq) ∅ None None None)
              d name) as (_ & _ & ->).
  simpl. by destruct (inpaintUpload_path <$> _).
Qed.

Lemma inpaintUpload_disk rq d :
  (inpaintUpload rq d).2 = list_to_set (inpaintUpload_path <$> uploads rq) ∪ d.
Proof.
  unfold inpaintUpload.
  by destruct (inpaintUpload_files (uploads rq) (mkReq (body rq) ∅ None None None)
                 d "") as (_ & -> & _).
Qed.

Lemma inpaintUpload_body rq d : req_body (inpaintUpload rq d).1 = body rq.
Proof.
  unfold inpaintUpload.
  by destruct (inpaintUpload_files (uploads rq) (mkReq (body rq) ∅ None None None)
                 d "") as (-> & _ & _).
Qed.

Lemma head_filter_elem {A} (P : A -> Prop) `{!∀ x, Decision (P x)} (l : list A) x :
  x ∈ l -> P x -> ∃ y, head (filter P l) = Some y ∧ y ∈ l ∧ P y.
Proof.
  intros Hx HP.
  assert (x ∈ filter P l) as Hin by by apply list_elem_of_filter.
  destruct (filter P l) as [|y l'] eqn:E; [by apply elem_of_nil in Hin |].
  exists y. split; [done |].
  assert (y ∈ filter P l) as Hy by (rewrite E; left).
  apply list_elem_of_filter in Hy. by destruct Hy.
Qed.

Lemma inpaint_opt_i b img mask out :
  opt_values "-i" (inpaint_args b img mask out) = [img].
Proof.
  unfold inpaint_args, inpaint_load. destruct mask; opt_norm; reflexivity.
Qed.

Lemma inpaint_opt_o b img mask out :
  opt_values "-o" (inpaint_args b img mask out) = [out].
Proof.
  unfold inpaint_args, inpaint_load. destruct mask; opt_norm; reflexivity.
Qed.

Lemma multer_accepts_count fields ups name n :
  multer_accepts fields ups = true -> (name, n) ∈ fields ->
  (length (filter (λ u, fieldname u = name) ups) <= n)%nat.
Proof.
  unfold multer_accepts. intros [_ H]%andb_true_iff Hin.
  rewrite forallb_forall in H. apply list_elem_of_In in Hin.
  apply H in Hin. cbn [fst snd] in Hin. by apply Nat.leb_le.
Qed.

Lemma multer_accepts_declared fields ups u :
  multer_accepts fields ups = true -> u ∈ ups ->
  ∃ n, (fieldname u, n) ∈ fields.
Proof.
  unfold multer_accepts. intros [H _]%andb_true_iff Hin.
  rewrite forallb_forall in H. apply list_elem_of_In in Hin.
  apply H, existsb_exists in Hin. destruct Hin as ([name n] & Hf & E).
  apply String.eqb_eq in E. cbn [fst] in E. subst name.
  exists n. by apply list_elem_of_In.
Qed.

Lemma filter_single {A} (P : A -> Prop) `{!∀ x, Decision (P x)} (l : list A) x :
  x ∈ l -> P x -> (length (filter P l) <= 1)%nat -> filter P l = [x].
Proof.
  intros Hx HP Hlen.
  assert (x ∈ filter P l) as Hin by by apply list_elem_of_filter.
  destruct (filter P l) as [|y [|z l']]; cbn in Hlen.
  - by apply elem_of_nil in Hin.
  - by apply list_elem_of_singleton in Hin as ->.
  - lia.
Qed.

(** X10. An inpainting request that the upload middleware lets through
    and that carries an init image: the stored upload is what the child
    process gets as [-i], whatever [initImagePath] says.  The request
    starts a process, which takes the [cliProcess] slot; the stored file
    lies in the temp directory and is among the files the handler removes
    in the end. *)
Theorem inpaint_upload_wins rq now st up u :
  inpaintUpload_fields rq (disk st) = Some up ->
  strings_only (body rq) ->
  u ∈ uploads rq -> fieldname u = "initImage" ->
  ∃ pend st1 args,
    inpaint_begin up.1 now (set_disk up.2 st) = (Awaiting pend, st1) ∧
    cliProcess st1 = Some (p_proc pend) ∧
    argv (p_proc pend) = tokens args ∧
    opt_values "-i" args = [inpaintUpload_path u] ∧
    run_of ["-i"; inpaintUpload_path u] (argv (p_proc pend)) ∧
    inpaintUpload_path u ∈ p_uploaded pend ∧
    is_under TEMP_DIR (inpaintUpload_path u) = true.
Proof.
  clear JSON_parse. unfold inpaintUpload_fields. intros Hup _ Hu Hname.
  destruct (multer_accepts _ _) eqn:Hacc; [| done]. injection Hup as <-.
  assert (filter (λ v, fieldname v = "initImage") (uploads rq) = [u]) as Hone.
  { apply filter_single; [done | done |].
    apply (multer_accepts_count _ _ _ _ Hacc). unfold inpaint_fields. set_solver. }
  assert (first_file (inpaintUpload rq (disk st)).1 "initImage"
          = Some (inpaintUpload_path u)) as Hfirst.
  { by rewrite inpaintUpload_first, Hone. }
  unfold inpaint_begin. rewrite Hfirst. simpl.
  rewrite inpaintUpload_disk.
  assert (String.eqb (inpaintUpload_path u) "" = false) as ->
    by apply path_join_nonempty.
  unfold existsSync at 1. rewrite bool_decide_true.
  2:{ apply elem_of_union_l, elem_of_list_to_set, list_elem_of_fmap.
      by exists u. }
  simpl. eexists _, _, (inpaint_args _ _ _ _). split_and!.
  - reflexivity.
  - reflexivity.
  - reflexivity.
  - apply inpaint_opt_i.
  - simpl. apply opt_values_run. rewrite inpaint_opt_i. left.
  - simpl. left.
  - apply is_under_join.
Qed.

(** X11. An inpainting request that the upload middleware lets through
    and that carries no init image falls back on the gallery image named
    by [initImagePath], a file name of the output directory; when that
    field is missing or empty, or names no file there, the request is
    answered 400 before any process is started, and what was uploaded
    with it, the mask, stays in the temp directory. *)
Theorem inpaint_without_init_image rq now st up :
  inpaintUpload_fields rq (disk st) = Some up ->
  strings_only (body rq) ->
  (∀ s, field (body rq) "initImagePath" = Js.JStr s -> s = "" ∨ plain_segment s) ->
  Forall (λ u, fieldname u ≠ "initImage") (uploads rq) ->
  let st0 := set_disk up.2 st in
  let gallery := path_join [OUTPUT_DIR; text (field (body rq) "initImagePath")] in
  if Js.truthy (field (body rq) "initImagePath") && existsSync gallery (disk st0)
  then
    ∃ pend st1 args,
      inpaint_begin up.1 now st0 = (Awaiting pend, st1) ∧
      argv (p_proc pend) = tokens args ∧
      opt_values "-i" args = [gallery] ∧
      run_of ["-i"; gallery] (argv (p_proc pend))
  else
    inpaint_begin up.1 now st0 =
      (Responded (status_json 400 [("message", JsonStr "Init image required")]), st0)
    ∧ spawned st0 = spawned st
    ∧ ∀ u, u ∈ uploads rq ->
        fieldname u = "mask" ∧ inpaintUpload_path u ∈ disk st0.
Proof.
  clear JSON_parse. unfold inpaintUpload_fields. intros Hup _ _ Hno.
  destruct (multer_accepts _ _) eqn:Hacc; [| done]. injection Hup as <-.
  cbv zeta.
  assert (first_file (inpaintUpload rq (disk st)).1 "initImage" = None) as Hfirst.
  { rewrite inpaintUpload_first.
    destruct (filter _ (uploads rq)) as [|x l] eqn:E; [done |].
    assert (x ∈ filter (λ u, fieldname u = "initImage") (uploads rq)) as Hx
      by (rewrite E; left).
    apply list_elem_of_filter in Hx as [Hx Hin].
    rewrite Forall_forall in Hno. by apply Hno in Hin. }
  assert (∀ u, u ∈ uploads rq ->
            fieldname u = "mask" ∧
            inpaintUpload_path u ∈ (inpaintUpload rq (disk st)).2) as Hmask.
  { intros u Hu. split.
    - destruct (multer_accepts_declared _ _ _ Hacc Hu) as [n Hn].
      rewrite Forall_forall in Hno. specialize (Hno u Hu).
      unfold inpaint_fields in Hn. set_solver.
    - rewrite inpaintUpload_disk.
      apply elem_of_union_l, elem_of_list_to_set, list_elem_of_fmap. by exists u. }
  unfold inpaint_begin. rewrite Hfirst, inpaintUpload_body. cbn [disk set_disk].
  destruct (Js.truthy (field (body rq) "initImagePath")); cbn [andb].
  - cbn [Js.truthy]. rewrite path_join_nonempty. cbn [negb andb].
    destruct (existsSync _ _).
    + simpl. eexists _, _, (inpaint_args _ _ _ _).
      split_and!; [reflexivity | reflexivity | apply inpaint_opt_i |].
      apply opt_values_run. rewrite inpaint_opt_i. left.
    + split_and!; done.
  - split_and!; done.
Qed.

(** *** Uploads of the text-to-image route *)

Lemma path_join_ne a b l : path_join (a :: b :: l) ≠ "".
Proof. apply String.eqb_neq, path_join_nonempty. Qed.

Lemma cliUpload_inv ups b d0 :
  let res := foldl cliUpload_file (mkReq b ∅ None None None, d0) ups in
  let k := length (filter (λ u, fieldname u = "kontextRefImage") ups) in
  d0 ⊆ res.2 ∧
  req_body res.1 = b ∧
  (∀ dir, req_pmImagesDir res.1 = Some dir -> dir ≠ "" ∧ dir ∈ res.2) ∧
  (∀ dir, req_kontextRefDir res.1 = Some dir -> dir ≠ "" ∧ dir ∈ res.2) ∧
  (k = 0%nat -> req_files res.1 !! "kontextRefImage" = None) ∧
  (∀ name fs f, req_files res.1 !! name = Some fs -> f ∈ fs ->
     f ∈ res.2 ∧
     (name ≠ "kontextRefImage" ->
      ∃ dir, req_pmImagesDir res.1 = Some dir ∧ is_under dir f = true)) ∧
  ((k <= 1)%nat -> ∀ fs f, req_files res.1 !! "kontextRefImage" = Some fs -> f ∈ fs ->
     ∃ dir, req_kontextRefDir res.1 = Some dir ∧ is_under dir f = true).
Proof.
  cbv zeta. induction ups as [|u ups IH] using rev_ind.
  - simpl. split_and!; try done.
  - rewrite foldl_snoc, filter_app, length_app, filter_cons, filter_nil.
    destruct (foldl cliUpload_file _ ups) as [r d] eqn:E. simpl in IH.
    destruct IH as (Hsub & Hbody & Hpm & Hk & Hk0 & Hfiles & Hkf).
    unfold cliUpload_file, cliUpload_destination. cbn [fst snd].
    destruct (decide (fieldname u = "kontextRefImage")) as [Hu | Hu].
    + rewrite Hu. change ("kontextRefImage" =? "kontextRefImage")%string with true.
      cbn [fst snd req_body req_files req_pmImagesDir req_kontextRefDir add_file length].
      unfold writeFileSync, mkdirSync.
      split_and!.
      * intros x Hx. apply elem_of_union_r, elem_of_union_r. by apply Hsub.
      * done.
      * intros dir Hdir. destruct (Hpm dir Hdir). split; [done |].
        by apply elem_of_union_r, elem_of_union_r.
      * intros dir [= <-]. split; [apply path_join_ne |].
        apply elem_of_union_r, elem_of_union_l. by apply elem_of_singleton.
      * lia.
      * intros name fs f Hl Hf.
        destruct (decide (name = "kontextRefImage")) as [-> | Hne].
        -- rewrite lookup_insert_eq in Hl. injection Hl as <-. split; [| done].
           apply elem_of_app in Hf as [Hf | Hf].
           ++ destruct (req_files r !! "kontextRefImage") as [fs0|] eqn:E0;
                [| by apply elem_of_nil in Hf].
              apply elem_of_union_r, elem_of_union_r. by apply (Hfiles _ _ _ E0).
           ++ apply list_elem_of_singleton in Hf as ->.
              apply elem_of_union_l. by apply elem_of_singleton.
        -- rewrite lookup_insert_ne in Hl by done.
           destruct (Hfiles _ _ _ Hl Hf) as [Hin Hdir]. split; [| done].
           by apply elem_of_union_r, elem_of_union_r.
      * intros Hle fs f Hl Hf. rewrite lookup_insert_eq in Hl. injection Hl as <-.
        rewrite Hk0 in Hf by lia. simpl in Hf.
        apply list_elem_of_singleton in Hf as ->.
        eexists. split; [done |]. apply is_under_join.
    + assert ((fieldname u =? "kontextRefImage")%string = false) as ->
        by by apply String.eqb_neq.
      rewrite Nat.add_0_r.
      destruct (req_pmImagesDir r) as [dir|] eqn:Epm.
      * cbn [fst snd req_body req_files req_pmImagesDir req_kontextRefDir add_file].
        unfold writeFileSync. split_and!.
        -- intros x Hx. by apply elem_of_union_r, Hsub.
        -- done.
        -- intros dir' Hdir. rewrite Epm in Hdir. destruct (Hpm dir' Hdir).
           split; [done |]. by apply elem_of_union_r.
        -- intros dir' Hdir. destruct (Hk dir' Hdir).
           split; [done |]. by apply elem_of_union_r.
        -- intros Hz. rewrite lookup_insert_ne by done. by apply Hk0.
        -- intros name fs f Hl Hf.
           destruct (decide (name = fieldname u)) as [-> | Hne].
           ++ rewrite lookup_insert_eq in Hl. injection Hl as <-.
              apply elem_of_app in Hf as [Hf | Hf].
              ** destruct (req_files r !! fieldname u) as [fs0|] eqn:E0;
                   [| by apply elem_of_nil in Hf].
                 destruct (Hfiles _ _ _ E0 Hf) as [Hin Hdir].
                 split; [by apply elem_of_union_r |]. by rewrite Epm.
              ** apply list_elem_of_singleton in Hf as ->.
                 split; [apply elem_of_union_l; by apply elem_of_singleton |].
                 intros _. exists dir. rewrite Epm. split; [done |]. apply is_under_join.
           ++ rewrite lookup_insert_ne in Hl by done.
              destruct (Hfiles _ _ _ Hl Hf) as [Hin Hdir].
              split; [by apply elem_of_union_r |]. by rewrite Epm.
        -- intros Hle fs f Hl Hf. rewrite lookup_insert_ne in Hl by done.
           by apply (Hkf Hle fs).
      * cbn [fst snd req_body req_files req_pmImagesDir req_kontextRefDir add_file].
        unfold writeFileSync, mkdirSync. split_and!.
        -- intros x Hx. by apply elem_of_union_r, elem_of_union_r, Hsub.
        -- done.
        -- intros dir' [= <-]. split; [apply path_join_ne |].
           apply elem_of_union_r, elem_of_union_l. by apply elem_of_singleton.
        -- intros dir' Hdir. destruct (Hk dir' Hdir).
           split; [done |]. by apply elem_of_union_r, elem_of_union_r.
        -- intros Hz. rewrite lookup_insert_ne by done. by apply Hk0.
        -- intros name fs f Hl Hf.
           destruct (decide (name = fieldname u)) as [-> | Hne].
           ++ rewrite lookup_insert_eq in Hl. injection Hl as <-.
              apply elem_of_app in Hf as [Hf | Hf].
              ** destruct (req_files r !! fieldname u) as [fs0|] eqn:E0;
                   [| by apply elem_of_nil in Hf].
                 destruct (Hfiles _ _ _ E0 Hf) as [Hin Hdir].
                 by destruct (Hdir Hu) as (dir & Hd & _).
              ** apply list_elem_of_singleton in Hf as ->.
                 split; [apply elem_of_union_l; by apply elem_of_singleton |].
                 intros _. eexists. split; [done |]. apply is_under_join.
           ++ rewrite lookup_insert_ne in Hl by done.
              destruct (Hfiles _ _ _ Hl Hf) as [Hin Hdir].
              split; [by apply elem_of_union_r, elem_of_union_r |].
              intros Hn. by destruct (Hdir Hn) as (dir & Hd & _).
        -- intros Hle fs f Hl Hf. rewrite lookup_insert_ne in Hl by done.
           by apply (Hkf Hle fs).
Qed.

Lemma foldl_copy_mono {A} (src dst : A -> string) l d p :
  p ∈ d -> p ∈ foldl (λ d x, copy_if_exists (src x) (dst x) d) d l.
Proof.
  revert d. induction l as [|x l IH]; intros d Hp; simpl; [done |].
  by apply IH, copy_if_exists_mono.
Qed.

Lemma ensure_pm_dir_mono now pm d p : p ∈ d -> p ∈ (ensure_pm_dir now pm d).2.
Proof.
  unfold ensure_pm_dir, mkdirSync. destruct pm; cbn [snd]; [done |].
  intros Hp. by apply elem_of_union_r.
Qed.

Lemma materialize_pm_mono b now pm d p :
  p ∈ d -> p ∈ (materialize_pm b now pm d).2.
Proof.
  intros Hp. unfold materialize_pm.
  assert (p ∈ (match field b "photoMakerImages" with
               | Js.JArr (img :: imgs) =>
                   let '(dir, d') := ensure_pm_dir now pm d in
                   (Some dir,
                    foldl (λ d imgPath,
                             copy_if_exists imgPath
                               (path_join [dir; basename imgPath]) d)
                          d' (img :: imgs))
               | _ => (pm, d)
               end).2) as H1.
  { destruct (field b "photoMakerImages") as [| | | | |[|img imgs]]; try done.
    pose proof (ensure_pm_dir_mono now pm d p Hp) as H.
    destruct (ensure_pm_dir now pm d) as [dir d']. cbn [snd] in *.
    by apply (foldl_copy_mono (λ x, x) (λ x, path_join [dir; basename x])). }
  destruct (match field b "photoMakerImages" with
            | Js.JArr (img :: imgs) => _
            | _ => (pm, d)
            end) as [pm1 d1].
  cbn [snd] in H1.
  destruct (Js.truthy _); [| done].
  destruct (JSON_parse _) as [[|g gs]|]; try done.
  pose proof (ensure_pm_dir_mono now pm1 d1 p H1) as H.
  destruct (ensure_pm_dir now pm1 d1) as [dir d']. cbn [snd] in *.
  by apply (foldl_copy_mono (λ x, path_join [OUTPUT_DIR; x])
                            (λ x, path_join [dir; x])).
Qed.

(** X12. Every file that the upload middleware of the text-to-image
    route stores for a request (PhotoMaker images, the ControlNet image,
    at most one Kontext reference, as the route declares) is on disk
    when the child process is started and gone once the process has
    ended, in whichever way it ended and whatever other files appeared
    in the meantime. *)
Theorem generate_cli_uploads_cleaned rq now st pend st1 ev st2 name fs f :
  let up := cliUpload rq (disk st) in
  (length (filter (λ u, fieldname u = "kontextRefImage") (uploads rq)) <= 1)%nat ->
  generate_cli_begin up.1 now (set_disk up.2 st) = (Awaiting pend, st1) ->
  disk st1 ⊆ disk st2 ->
  req_files up.1 !! name = Some fs -> f ∈ fs ->
  f ∈ disk st1 ∧ f ∉ disk (generate_cli_settle pend ev st2).2.
Proof.
  cbv zeta. unfold cliUpload. intros Hk Hbegin Hsub Hl Hf.
  destruct (cliUpload_inv (uploads rq) (body rq) (disk st))
    as (_ & _ & Hpm & Hkd & _ & Hfiles & Hkf).
  destruct (foldl cliUpload_file _ (uploads rq)) as [r d]. cbn [fst snd] in *.
  destruct (Hfiles _ _ _ Hl Hf) as [Hin Hdir].
  revert Hbegin. unfold generate_cli_begin. cbn [disk set_disk].
  pose proof (materialize_pm_mono (req_body r) now (req_pmImagesDir r) d) as Hmono.
  assert (∀ dir, req_pmImagesDir r = Some dir ->
            (materialize_pm (req_body r) now (req_pmImagesDir r) d).1 = Some dir)
    as Hkeep by (intros dir ->; apply materialize_pm_keeps).
  destruct (materialize_pm _ _ _ _) as [pm d1]. cbn [fst snd] in *.
  destruct (negb _); [done |]. simpl. intros [= <- <-]. cbn [disk] in *.
  split; [by apply Hmono |].
  rewrite generate_cli_settle_disk. cbn [p_pmImagesDir p_kontextRefDir].
  destruct (decide (name = "kontextRefImage")) as [-> | Hne].
  - destruct (Hkf Hk _ _ Hl Hf) as (dir & Hd & Hu).
    destruct (Hkd dir Hd) as [Hne Hind].
    apply (cleanup_both _ _ _ dir); [by right | done | | by right].
    by apply Hsub, Hmono.
  - destruct (Hdir Hne) as (dir & Hd & Hu).
    destruct (Hpm dir Hd) as [Hne' Hind].
    apply (cleanup_both _ _ _ dir); [left | done | | by right].
    + by apply Hkeep.
    + by apply Hsub, Hmono.
Qed.

(** *** The output file of a job *)

Lemma generate_cli_opt_o b d out k c pm :
  opt_values "-o" (generate_cli_args b d out k c pm) = [out].
Proof. unfold_cli. destruct pm; opt_norm; reflexivity. Qed.

Lemma generate_video_opt_o b d img out :
  opt_values "-o" (generate_video_args b d img out) = [out].
Proof. unfold generate_video_args. opt_norm. reflexivity. Qed.

(** X13. For each of the three command-line routes, the file whose
    existence decides between [Complete] and a failure is the one the
    child process was told to write with [-o], a file of the output
    directory named after the time of the request; so a job reported
    [Complete] names a file that is in the output directory. *)
Theorem complete_names_output r now st pend st1 :
  generate_cli_begin r now st = (Awaiting pend, st1) ∨
  inpaint_begin r now st = (Awaiting pend, st1) ∨
  generate_video_begin r now st = (Awaiting pend, st1) ->
  (∃ args, argv (p_proc pend) = tokens args ∧
           opt_values "-o" args = [p_outputPath pend]) ∧
  p_outputPath pend = path_join [OUTPUT_DIR; p_filename pend] ∧
  (∃ stem ext, p_filename pend = stem +:+ pretty now +:+ ext) ∧
  ∀ what ev st2 out,
    out = generate_cli_settle pend ev st2 ∨ out = cli_settle what pend ev st2 ->
    out.1 = json [("message", JsonStr "Complete");
                  ("filenames", JsonList [p_filename pend])] ->
    path_join [OUTPUT_DIR; p_filename pend] ∈ disk out.2.
Proof.
  intros Hbegin.
  assert ((∃ args, argv (p_proc pend) = tokens args ∧
                   opt_values "-o" args = [p_outputPath pend]) ∧
          p_outputPath pend = path_join [OUTPUT_DIR; p_filename pend] ∧
          (∃ stem ext, p_filename pend = stem +:+ pretty now +:+ ext))
    as (Hargs & Hout & Hname).
  { destruct Hbegin as [H | [H | H]]; revert H.
    - unfold generate_cli_begin.
      destruct (materialize_pm _ _ _ _) as [pm d1].
      destruct (negb _); [done |]. simpl. intros [= <- _]. simpl.
      split_and!; [| done | by exists "gen_", ".png"].
      eexists. split; [reflexivity | apply generate_cli_opt_o].
    - unfold inpaint_begin.
      destruct (match first_file r "initImage" with
                | Some f => Some f
                | None => _
                end) as [img|]; [| done].
      destruct (_ && _); [| done]. simpl. intros [= <- _]. simpl.
      split_and!; [| done | by exists "inpaint_", ".png"].
      eexists. split; [reflexivity | apply inpaint_opt_o].
    - unfold generate_video_begin, spawn. intros [= <- _].
      cbn [p_proc argv p_outputPath p_filename].
      split_and!; [| done | by exists "video_", ".mp4"].
      eexists (generate_video_args _ _ _ _).
      split; [reflexivity | apply generate_video_opt_o]. }
  split_and!; try done.
  intros what ev st2 out Hsettle Hcomplete. rewrite <- Hout.
  destruct Hsettle as [-> | ->]; revert Hcomplete.
  - unfold generate_cli_settle.
    destruct ev as [[[| |]|]|]; simpl; try done.
    unfold existsSync. by case_bool_decide.
  - unfold cli_settle.
    destruct ev as [[[| |]|]|]; simpl; try done.
    unfold existsSync. by case_bool_decide.
Qed.

(** *** The init image of a video *)

Lemma generate_video_opt_i b d img out :
  opt_values "-i" (generate_video_args b d img out) =
  from_option (λ x, when' (Js.truthy (Js.JStr x) && existsSync x d) x) [] img.
Proof. unfold generate_video_args. opt_norm. reflexivity. Qed.

(** X19. A video request that the upload middleware lets through is not
    answered before its process has been started.  The process gets [-i]
    with the stored upload when the request uploads an init image;
    without an upload it gets the gallery image named by [initImagePath],
    a file name of the output directory, when that file exists, and no
    [-i] at all when the field is missing or names no file. *)
Theorem video_init_image rq now st up :
  videoUpload_single rq (disk st) = Some up ->
  strings_only (body rq) ->
  (∀ s, field (body rq) "initImagePath" = Js.JStr s -> s = "" ∨ plain_segment s) ->
  ∃ pend st1 args,
    generate_video_begin up.1 now (set_disk up.2 st) = (Awaiting pend, st1) ∧
    cliProcess st1 = Some (p_proc pend) ∧
    argv (p_proc pend) = tokens args ∧
    match uploads rq with
    | u :: _ =>
        let stored :=
          path_join [TEMP_DIR; "video_init_" +:+ pretty (stored_at u) +:+ ".png"] in
        uploads rq = [u] ∧ fieldname u = "initImage" ∧
        opt_values "-i" args = [stored] ∧
        run_of ["-i"; stored] (argv (p_proc pend))
    | [] =>
        let gallery :=
          path_join [OUTPUT_DIR; text (field (body rq) "initImagePath")] in
        if Js.truthy (field (body rq) "initImagePath")
           && existsSync gallery (disk st)
        then opt_values "-i" args = [gallery] ∧
             run_of ["-i"; gallery] (argv (p_proc pend))
        else opt_values "-i" args = []
    end.
Proof.
  clear JSON_parse. unfold videoUpload_single. intros Hup _ _.
  destruct (multer_accepts _ _) eqn:Hacc; [| done]. injection Hup as <-.
  unfold generate_video_begin, spawn.
  eexists _, _, (generate_video_args _ _ _ _).
  split_and!; [reflexivity | reflexivity | reflexivity |].
  cbn [argv p_proc].
  match goal with
  | |- context [tokens ?a] =>
      assert (∀ v, opt_values "-i" a = [v] ->
                opt_values "-i" a = [v] ∧ run_of ["-i"; v] (tokens a)) as Hrun
  end.
  { intros v Hv. split; [done |]. apply opt_values_run. rewrite Hv. left. }
  revert Hrun. rewrite generate_video_opt_i. unfold videoUpload, when'.
  destruct (uploads rq) as [|u us] eqn:Eups;
    cbn [fst snd req_file req_body disk set_disk]; intros Hrun.
  - destruct (Js.truthy (field (body rq) "initImagePath"));
      cbn [from_option andb] in *; [| done].
    cbn [Js.truthy] in *. rewrite path_join_nonempty in *. cbn [negb andb] in *.
    destruct (existsSync _ _); [| done]. by apply Hrun.
  - cbv zeta.
    assert (us = [] ∧ fieldname u = "initImage") as [-> Hname].
    { pose proof (multer_accepts_count _ _ "initImage" 1%nat Hacc
                    ltac:(unfold video_fields; set_solver)) as Hlen.
      destruct (multer_accepts_declared _ _ u Hacc ltac:(left)) as [n Hn].
      assert (fieldname u = "initImage") as Hname
        by (unfold video_fields in Hn; set_solver).
      split; [| done].
      rewrite filter_cons, decide_True in Hlen by done.
      destruct us as [|u' us]; [done |].
      destruct (multer_accepts_declared _ _ u' Hacc ltac:(right; left)) as [n' Hn'].
      assert (fieldname u' = "initImage") as Hname'
        by (unfold video_fields in Hn'; set_solver).
      rewrite filter_cons, decide_True in Hlen by done. cbn in Hlen. lia. }
    split_and!; [done | done | |].
    all: apply Hrun; cbn [from_option Js.truthy]; rewrite path_join_nonempty;
      cbn [negb andb]; unfold existsSync, writeFileSync;
      rewrite bool_decide_true; [done |];
      apply elem_of_union_l; by apply elem_of_singleton.
Qed.

(** *** Start-up *)

Lemma indexOf_first pre name post :
  name ∉ pre -> indexOf (pre ++ name :: post) name = Some (length pre).
Proof.
  intros Hpre. unfold indexOf.
  assert (list_find (λ a, a = name) (pre ++ name :: post)
          = Some (length pre, name)) as ->; [| done].
  apply list_find_Some. split_and!.
  - by rewrite list_lookup_middle.
  - done.
  - intros j y Hj Hlt. rewrite lookup_app_l in Hj by done.
    intros ->. apply Hpre. by eapply list_elem_of_lookup_2.
Qed.

Lemma indexOf_absent args name : name ∉ args -> indexOf args name = None.
Proof.
  intros Hn. unfold indexOf.
  assert (list_find (λ a, a = name) args = None) as ->; [| done].
  apply list_find_None. apply Forall_forall. by intros x Hx ->.
Qed.

(** X14. The host the server binds: [--local] anywhere on the command
    line gives 0.0.0.0 whatever [--host] says; otherwise it is the
    argument that follows the first [--host], and [localhost] when there
    is no [--host], when the first one is the last argument, or when the
    argument after it is empty. *)
Theorem host_resolution args :
  ("--local" ∈ args -> HOST args = "0.0.0.0") ∧
  ("--local" ∉ args ->
   (∀ pre v post, args = pre ++ "--host" :: v :: post -> "--host" ∉ pre ->
      HOST args = if String.eqb v "" then "localhost" else v) ∧
   (∀ pre, args = pre ++ ["--host"] -> "--host" ∉ pre -> HOST args = "localhost") ∧
   ("--host" ∉ args -> HOST args = "localhost")).
Proof.
  unfold HOST, hasFlag. split.
  - intros H. by rewrite bool_decide_true.
  - intros H. rewrite bool_decide_false by done. unfold getArg. split_and!.
    + intros pre v post -> Hpre. rewrite indexOf_first by done.
      rewrite lookup_app_r by lia.
      replace (S (length pre) - length pre)%nat with 1%nat by lia. simpl.
      by destruct (String.eqb v "").
    + intros pre -> Hpre. rewrite indexOf_first by done.
      rewrite lookup_ge_None_2; [done |]. rewrite length_app. simpl. lia.
    + intros Hno. by rewrite indexOf_absent.
Qed.

(** X15. The port search resolves with the first port, from the
    requested one upwards, that is not in use: when the [n] ports from
    [startPort] on all fail with EADDRINUSE and the next one can be
    bound, that one is the answer; when instead the next one fails with
    another error, the search is rejected with that error and no further
    port is tried. *)
Theorem findAvailablePort_first_free listen startPort (n : nat) fuel :
  (∀ p, startPort <= p < startPort + Z.of_nat n ->
        listen p = ListenError "EADDRINUSE") ->
  listen (startPort + Z.of_nat n) ≠ ListenError "EADDRINUSE" ->
  (n < fuel)%nat ->
  findAvailablePort listen fuel startPort =
  match listen (startPort + Z.of_nat n) with
  | Listening port => Some (inr port)
  | ListenError code => Some (inl code)
  end.
Proof.
  revert startPort fuel.
  induction n as [|n IH]; intros startPort fuel Hbusy Hfree Hfuel.
  - destruct fuel as [|fuel]; [lia |]. simpl. rewrite Z.add_0_r in *.
    destruct (listen startPort) as [port | code] eqn:E; [done |].
    destruct (String.eqb_spec code "EADDRINUSE") as [-> | Hne]; done.
  - destruct fuel as [|fuel]; [lia |].
    replace (startPort + Z.of_nat (S n)) with (startPort + 1 + Z.of_nat n) in * by lia.
    cbn [findAvailablePort]. rewrite (Hbusy startPort) by lia.
    change (String.eqb "EADDRINUSE" "EADDRINUSE") with true. cbv iota.
    apply IH; [intros p Hp; apply Hbusy; lia | done | lia].
Qed.

(** *** Choosing the backend *)

(** X16. A request to activate a backend version (a string, when it
    is given) is accepted exactly when the version is [custom] or its
    release directory holds an [sd-server] binary (with or without
    [.exe]); an accepted request saves the configuration, leaves a
    running server and a running job as they are, and makes the
    directory of that version the one from which the next server is
    started; a rejected one is answered 400 and changes nothing. *)
Theorem set_active_switches b b' st :
  field b "version" = Js.JUndefined ∨ (∃ v, field b "version" = Js.JStr v) ->
  let out := set_active b st in
  let version := text (field b "version") in
  let dir := if String.eqb version "custom" then CUSTOM_DIR
             else path_join [RELEASES_DIR; version] in
  (status out.1 = 200 <->
   version ≠ "" ∧ field b "version" ≠ Js.JUndefined ∧
   (version = "custom" ∨
    path_join [path_join [RELEASES_DIR; version]; "sd-server"] ∈ disk st ∨
    path_join [path_join [RELEASES_DIR; version]; "sd-server.exe"] ∈ disk st)) ∧
  (status out.1 = 200 ->
   out.1 = json [("success", JsonBool true); ("activeVersion", JsonStr version)] ∧
   getActiveBackendPath out.2 = dir ∧
   CONFIG_FILE ∈ disk out.2 ∧
   sdProcess out.2 = sdProcess st ∧ cliProcess out.2 = cliProcess st ∧
   signals out.2 = signals st ∧ spawned out.2 = spawned st ∧
   (sdProcess st = None ->
    ∃ p, sdProcess (start b' out.2).2 = Some p ∧ cwd p = dir ∧
         command p = path_join [dir; if String.eqb platform "win32"
                                     then "sd-server.exe" else "sd-server"])) ∧
  (status out.1 ≠ 200 -> status out.1 = 400 ∧ out.2 = st).
Proof using Type.
  clear JSON_parse.
  intros [Hv | [v Hv]]; cbv zeta; unfold set_active; rewrite Hv.
  { cbn. split_and!; [intuition (first [done | congruence]) | done | done]. }
  cbn [Js.truthy text Js.String_ Js.is_str].
  destruct (String.eqb_spec v "") as [-> | Hne]; cbn [negb].
  { cbn. split_and!; [intuition (first [done | congruence]) | done | done]. }
  assert (∀ st', activeVersion st' = v -> sdProcess st' = None ->
            ∃ p, sdProcess (start b' st').2 = Some p ∧
                 cwd p = (if String.eqb v "custom" then CUSTOM_DIR
                          else path_join [RELEASES_DIR; v]) ∧
                 command p = path_join
                   [if String.eqb v "custom" then CUSTOM_DIR
                    else path_join [RELEASES_DIR; v];
                    if String.eqb platform "win32" then "sd-server.exe"
                    else "sd-server"]) as Hstart.
  { intros st' Hact Hidle. rewrite start_idle by done. cbv zeta. cbn [snd sdProcess].
    eexists. split; [reflexivity |]. cbn [cwd command].
    unfold getActiveBackendPath. by rewrite Hact. }
  assert (CONFIG_FILE ∈ disk (saveBackendConfig (set_activeVersion v st))) as Hcfg.
  { unfold saveBackendConfig, set_activeVersion, writeFileSync. cbn [disk set_disk].
    apply elem_of_union_l. by apply elem_of_singleton. }
  destruct (String.eqb_spec v "custom") as [-> | Hc]; cbn [negb andb].
  - cbn [fst snd status json].
    split_and!; [intuition (first [done | congruence]) | |
      intros H; exfalso; apply H; reflexivity].
    intros _. split_and!; try done. intros Hidle. by apply Hstart.
  - unfold existsSync.
    destruct (decide (path_join [path_join [RELEASES_DIR; v]; "sd-server"] ∈ disk st))
      as [H1 | H1];
      [rewrite (bool_decide_true _ H1) | rewrite (bool_decide_false _ H1)];
      cbn [orb negb].
    + cbn [fst snd status json].
      split_and!; [intuition (first [done | congruence]) | |
      intros H; exfalso; apply H; reflexivity].
      intros _. split_and!; try done.
      * unfold getActiveBackendPath. cbn.
        by destruct (String.eqb_spec v "custom").
      * intros Hidle. by apply Hstart.
    + destruct (decide (path_join [path_join [RELEASES_DIR; v]; "sd-server.exe"]
                          ∈ disk st)) as [H2 | H2];
        [rewrite (bool_decide_true _ H2) | rewrite (bool_decide_false _ H2)];
        cbn [orb negb].
      * cbn [fst snd status json].
        split_and!; [intuition (first [done | congruence]) | |
      intros H; exfalso; apply H; reflexivity].
        intros _. split_and!; try done.
        -- unfold getActiveBackendPath. cbn.
           by destruct (String.eqb_spec v "custom").
        -- intros Hidle. by apply Hstart.
      * cbn [fst snd status status_json].
        split_and!; [intuition (first [done | congruence]) | done | done].
Qed.

(** *** Reading the parameters stored in a PNG file *)
Lemma be32_foldl_nonneg bs acc :
  0 <= acc -> 0 <= foldl (λ acc b, acc * 256 + Z.of_N (Byte.to_N b)) acc bs.
Proof.
  revert acc. induction bs as [|b bs IH]; intros acc Hacc; simpl; [done |].
  apply IH. lia.
Qed.

Lemma be32_nonneg bs : 0 <= be32 bs.
Proof. by apply be32_foldl_nonneg. Qed.

Lemma buffer_bytes_mid file front mid rest off (a : nat) e :
  file = front ++ mid ++ rest ->
  off = Z.of_nat (length front) + Z.of_nat a ->
  Z.min e BUFFER_LENGTH <= Z.of_nat (length front) + Z.of_nat (length mid) ->
  buffer_bytes file off e =
  take (Z.to_nat (Z.min e BUFFER_LENGTH - off)) (drop a mid).
Proof.
  intros -> -> He. unfold buffer_bytes. apply list_eq. intros i.
  rewrite list_lookup_fmap.
  destruct (decide (Z.of_nat i <
                    Z.min e BUFFER_LENGTH - (Z.of_nat (length front) + Z.of_nat a)))
    as [Hi | Hi].
  - rewrite lookup_seqZ_lt by done. simpl.
    rewrite lookup_take_lt by lia. rewrite lookup_drop.
    replace (Z.to_nat (Z.of_nat (length front) + Z.of_nat a + Z.of_nat i))
      with (length front + (a + i))%nat by lia.
    rewrite lookup_app_r by lia.
    replace (length front + (a + i) - length front)%nat with (a + i)%nat by lia.
    rewrite lookup_app_l by lia.
    destruct (lookup_lt_is_Some_2 mid (a + i)%nat) as [x Hx]; [lia |].
    by rewrite Hx.
  - rewrite lookup_seqZ_ge by lia. simpl.
    by rewrite lookup_take_ge by lia.
Qed.

Lemma find_null kw text :
  Forall (λ b, b ≠ Byte.x00) kw ->
  list_find (λ b, b = Byte.x00) (kw ++ Byte.x00 :: text) = Some (length kw, Byte.x00).
Proof.
  intros Hkw. apply list_find_Some. split_and!.
  - by rewrite list_lookup_middle.
  - done.
  - intros j y Hj Hlt. rewrite lookup_app_l in Hj by done.
    rewrite Forall_forall in Hkw. apply Hkw. by eapply list_elem_of_lookup_2.
Qed.

Lemma chunk_length_read front c rest :
  chunk_wf c ->
  Z.of_nat (length front) + 4 <= BUFFER_LENGTH ->
  readUInt32BE (front ++ chunk_bytes c ++ rest) (Z.of_nat (length front))
  = Some (Z.of_nat (length (c_data c))).
Proof.
  intros (HL & HT & HC & Hlen) Hin.
  unfold readUInt32BE. destruct (Z.leb_spec (Z.of_nat (length front) + 4) BUFFER_LENGTH); [| lia].
  rewrite (buffer_bytes_mid _ front (c_length c)
             (c_type c ++ c_data c ++ c_crc c ++ rest) _ 0 _).
  - rewrite drop_0, take_ge by lia. by rewrite Hlen.
  - unfold chunk_bytes. by rewrite <- !app_assoc.
  - lia.
  - lia.
Qed.

Lemma chunk_type_read front c rest off :
  chunk_wf c -> off = Z.of_nat (length front) ->
  buffer_bytes (front ++ chunk_bytes c ++ rest) (off + 4) (off + 8) =
  take (Z.to_nat (Z.min (off + 8) BUFFER_LENGTH - (off + 4))) (c_type c).
Proof.
  intros (HL & HT & HC & Hlen) ->.
  rewrite (buffer_bytes_mid _ (front ++ c_length c) (c_type c)
             (c_data c ++ c_crc c ++ rest) _ 0 _).
  - by rewrite drop_0.
  - unfold chunk_bytes. by rewrite <- !app_assoc.
  - rewrite length_app. lia.
  - rewrite length_app. lia.
Qed.

Lemma chunk_data_read front c rest off (a : nat) e :
  chunk_wf c -> off = Z.of_nat (length front) ->
  e <= off + 8 + Z.of_nat (length (c_data c)) ->
  buffer_bytes (front ++ chunk_bytes c ++ rest) (off + 8 + Z.of_nat a) e =
  take (Z.to_nat (Z.min e BUFFER_LENGTH - (off + 8 + Z.of_nat a)))
       (drop a (c_data c)).
Proof.
  intros (HL & HT & HC & Hlen) -> He.
  rewrite (buffer_bytes_mid _ (front ++ c_length c ++ c_type c) (c_data c)
             (c_crc c ++ rest) _ a e).
  - done.
  - unfold chunk_bytes. by rewrite <- !app_assoc.
  - rewrite !length_app. lia.
  - rewrite !length_app. lia.
Qed.

Lemma chunk_type_tEXt c k :
  chunk_wf c -> take k (c_type c) = ascii_bytes "tEXt" ->
  c_type c = ascii_bytes "tEXt".
Proof.
  intros (HL & HT & HC & Hlen) Htype.
  rewrite <- Htype. symmetry. apply take_ge.
  apply (f_equal length) in Htype. rewrite length_take in Htype.
  change (length (ascii_bytes "tEXt")) with 4%nat in Htype. lia.
Qed.

(** A chunk that is not the one looked for is passed over, unless the
    loop ends at it: behind the bytes read, or with the [RangeError] of a
    length field that does not fit in the buffer. *)
Lemma chunk_skip front c rest bytesRead fuel off :
  chunk_wf c -> chunk_skipped c -> off = Z.of_nat (length front) ->
  readPngParams_loop (front ++ chunk_bytes c ++ rest) bytesRead (S fuel) off =
  if off <? bytesRead then
    if off + 4 <=? BUFFER_LENGTH
    then readPngParams_loop (front ++ chunk_bytes c ++ rest) bytesRead fuel
           (off + 12 + Z.of_nat (length (c_data c)))
    else Some None
  else Some None.
Proof.
  intros Hwf Hskip Hoff. cbn [readPngParams_loop].
  destruct (off <? bytesRead); [| done].
  destruct (Z.leb_spec (off + 4) BUFFER_LENGTH) as [Hin | Hout].
  2:{ unfold readUInt32BE. by destruct (Z.leb_spec (off + 4) BUFFER_LENGTH); [lia |]. }
  rewrite Hoff at 1. rewrite chunk_length_read by (done || lia). cbv zeta.
  set (file := front ++ chunk_bytes c ++ rest).
  assert ((if bool_decide (buffer_bytes file (off + 4) (off + 8) = ascii_bytes "tEXt")
           then tEXt_parameters file (off + 8) (Z.of_nat (length (c_data c)))
           else None) = None) as ->; [| done].
  case_bool_decide as Htype; [| done].
  unfold file in *. rewrite (chunk_type_read front) in Htype by done.
  apply chunk_type_tEXt in Htype; [| done].
  destruct Hskip as [Hne | Hnp]; [done |].
  unfold tEXt_parameters.
  pose proof (chunk_data_read front c rest off 0
                (off + 8 + Z.of_nat (length (c_data c))) Hwf Hoff) as Hdata.
  rewrite Z.add_0_r, drop_0 in Hdata. rewrite Hdata by lia. clear Hdata.
  destruct (list_find _ _) as [[i x]|] eqn:Hfind; [| done].
  apply list_find_Some in Hfind as (Hi & -> & _).
  apply lookup_take_Some in Hi as [Hi Hlt].
  cbv zeta. destruct (0 <? Z.of_nat i); [| done].
  pose proof (chunk_data_read front c rest off 0 (off + 8 + Z.of_nat i) Hwf Hoff) as Hkey.
  rewrite Z.add_0_r, drop_0 in Hkey. rewrite Hkey.
  2:{ apply lookup_lt_Some in Hi. lia. }
  clear Hkey.
  case_bool_decide as Hkw; [| done].
  exfalso. apply Hnp.
  exists (drop (S i) (c_data c)).
  rewrite <- Hkw, <- app_assoc. simpl.
  replace (Z.to_nat (Z.min (off + 8 + Z.of_nat i) BUFFER_LENGTH - (off + 8)))
    with i by lia.
  rewrite <- (take_drop_middle _ _ _ Hi) at 1. done.
Qed.

(** The chunk looked for, when all of it is in the buffer. *)
Lemma chunk_found front c rest bytesRead fuel off text :
  chunk_wf c -> off = Z.of_nat (length front) ->
  c_type c = ascii_bytes "tEXt" ->
  c_data c = ascii_bytes "parameters" ++ Byte.x00 :: text ->
  off < bytesRead ->
  off + 8 + Z.of_nat (length (c_data c)) <= BUFFER_LENGTH ->
  readPngParams_loop (front ++ chunk_bytes c ++ rest) bytesRead (S fuel) off =
  Some (Some text).
Proof.
  intros Hwf Hoff Htype Hdata Hlt Hin. cbn [readPngParams_loop].
  destruct (Z.ltb_spec off bytesRead); [| lia].
  rewrite Hoff at 1. rewrite chunk_length_read by (done || lia). cbv zeta.
  rewrite (chunk_type_read front) by done.
  rewrite take_ge by (destruct Hwf as (_ & HT & _); lia).
  rewrite Htype, bool_decide_true by done.
  unfold tEXt_parameters.
  pose proof (chunk_data_read front c rest off 0
                (off + 8 + Z.of_nat (length (c_data c))) Hwf Hoff) as Hd.
  rewrite Z.add_0_r, drop_0 in Hd. rewrite Hd by lia. clear Hd.
  rewrite take_ge by lia.
  rewrite Hdata at 1. rewrite find_null.
  2:{ vm_compute. repeat constructor; discriminate. }
  change (length (ascii_bytes "parameters")) with 10%nat. cbv zeta.
  change (0 <? Z.of_nat 10) with true. cbv iota.
  pose proof (chunk_data_read front c rest off 0 (off + 8 + Z.of_nat 10) Hwf Hoff) as Hk.
  rewrite Z.add_0_r, drop_0 in Hk. rewrite Hk.
  2:{ rewrite Hdata, length_app. simpl. lia. }
  clear Hk.
  assert (take (Z.to_nat (Z.min (off + 8 + Z.of_nat 10) BUFFER_LENGTH - (off + 8)))
               (c_data c) = ascii_bytes "parameters") as ->.
  { rewrite Hdata in *. rewrite length_app in Hin. simpl in Hin.
    replace (Z.to_nat (Z.min (off + 8 + Z.of_nat 10) BUFFER_LENGTH - (off + 8)))
      with (length (ascii_bytes "parameters")) by (simpl; lia).
    by rewrite take_app_length. }
  rewrite bool_decide_true by done.
  replace (off + 8 + Z.of_nat 10 + 1) with (off + 8 + Z.of_nat 11) by lia.
  rewrite (chunk_data_read front c rest off 11) by (done || lia).
  rewrite take_ge.
  2:{ rewrite length_drop. lia. }
  rewrite Hdata. done.
Qed.

Lemma chunk_bytes_length c :
  chunk_wf c -> length (chunk_bytes c) = (12 + length (c_data c))%nat.
Proof.
  intros (HL & HT & HC & _). unfold chunk_bytes. rewrite !length_app. lia.
Qed.

Lemma walk_in pre front rest bytesRead fuel :
  Forall chunk_wf pre -> Forall chunk_skipped pre ->
  let file := front ++ concat (chunk_bytes <$> pre) ++ rest in
  let off := Z.of_nat (length front) in
  let total := Z.of_nat (length (concat (chunk_bytes <$> pre))) in
  off + total < bytesRead -> off + total <= BUFFER_LENGTH ->
  bytesRead - off < Z.of_nat fuel ->
  ∃ fuel', bytesRead - (off + total) < Z.of_nat fuel' ∧
           readPngParams_loop file bytesRead fuel off =
           readPngParams_loop file bytesRead fuel' (off + total).
Proof.
  intros Hwf. revert front fuel. cbv zeta.
  induction Hwf as [|c pre Hc Hpre IH]; intros front fuel Hskip Hlt Hin Hfuel.
  - exists fuel. simpl in *. rewrite !Z.add_0_r in *. done.
  - apply Forall_cons in Hskip as [Hs Hskip].
    rewrite fmap_cons in *. simpl concat in *.
    rewrite length_app, chunk_bytes_length in Hlt, Hin |- * by done.
    destruct fuel as [|fuel]; [lia |].
    rewrite <- (app_assoc (chunk_bytes c)).
    rewrite (chunk_skip front c _ bytesRead fuel (Z.of_nat (length front)))
      by done.
    destruct (Z.ltb_spec (Z.of_nat (length front)) bytesRead); [| lia].
    destruct (Z.leb_spec (Z.of_nat (length front) + 4) BUFFER_LENGTH); [| lia].
    rewrite (app_assoc front).
    destruct (IH (front ++ chunk_bytes c) fuel Hskip) as (fuel' & Hf & Heq).
    + rewrite length_app, chunk_bytes_length by done. lia.
    + rewrite length_app, chunk_bytes_length by done. lia.
    + rewrite length_app, chunk_bytes_length by done. lia.
    + exists fuel'. rewrite length_app, chunk_bytes_length in Hf, Heq by done.
      split; [lia |].
      replace (Z.of_nat (length front) + 12 + Z.of_nat (length (c_data c)))
        with (Z.of_nat (length front + (12 + length (c_data c)))) by lia.
      rewrite Heq. f_equal. lia.
Qed.

Lemma walk_out pre front rest bytesRead fuel :
  Forall chunk_wf pre -> Forall chunk_skipped pre ->
  let file := front ++ concat (chunk_bytes <$> pre) ++ rest in
  let off := Z.of_nat (length front) in
  let total := Z.of_nat (length (concat (chunk_bytes <$> pre))) in
  bytesRead <= off + total ->
  Z.max 0 (bytesRead - off) < Z.of_nat fuel ->
  readPngParams_loop file bytesRead fuel off = Some None.
Proof.
  intros Hwf. revert front fuel. cbv zeta.
  induction Hwf as [|c pre Hc Hpre IH]; intros front fuel Hskip Hle Hfuel.
  - destruct fuel as [|fuel]; [simpl in *; lia |].
    cbn [readPngParams_loop].
    destruct (Z.ltb_spec (Z.of_nat (length front)) bytesRead); [simpl in *; lia | done].
  - apply Forall_cons in Hskip as [Hs Hskip].
    rewrite fmap_cons in *. simpl concat in *.
    rewrite length_app, chunk_bytes_length in Hle by done.
    destruct fuel as [|fuel]; [lia |].
    rewrite <- (app_assoc (chunk_bytes c)).
    rewrite (chunk_skip front c _ bytesRead fuel (Z.of_nat (length front)))
      by done.
    destruct (Z.ltb_spec (Z.of_nat (length front)) bytesRead); [| done].
    destruct (Z.leb_spec (Z.of_nat (length front) + 4) BUFFER_LENGTH); [| done].
    rewrite (app_assoc front).
    replace (Z.of_nat (length front) + 12 + Z.of_nat (length (c_data c)))
      with (Z.of_nat (length (front ++ chunk_bytes c)))
      by (rewrite length_app, chunk_bytes_length by done; lia).
    apply IH; [done | |]; rewrite length_app, chunk_bytes_length by done; lia.
Qed.

Lemma readPngParams_loop_total file bytesRead fuel off :
  Z.max 0 (bytesRead - off) < Z.of_nat fuel ->
  ∃ r, readPngParams_loop file bytesRead fuel off = Some r.
Proof.
  revert off. induction fuel as [|fuel IH]; intros off Hfuel; [lia |].
  cbn [readPngParams_loop].
  destruct (Z.ltb_spec off bytesRead); [| by eexists].
  unfold readUInt32BE. destruct (_ <=? _); [| by eexists].
  cbv zeta. destruct (if bool_decide _ then _ else _); [by eexists |].
  apply IH. pose proof (be32_nonneg (buffer_bytes file off (off + 4))). lia.
Qed.

Lemma magic_read rest :
  buffer_bytes (PNG_MAGIC ++ rest) 0 8 = PNG_MAGIC.
Proof.
  rewrite (buffer_bytes_mid _ [] PNG_MAGIC rest 0 0 8); [done | done | done |].
  simpl. unfold BUFFER_LENGTH. lia.
Qed.

(** X17. On a PNG file, [readPngParams] returns the text of the first
    [tEXt] chunk whose keyword is [parameters]: the chunks before it, of
    any other type or [tEXt] chunks with another keyword, are passed
    over, and what follows the chunk is not looked at.  The chunk has to
    lie within the first 1 MiB of the file, which is all that is read. *)
Theorem readPngParams_finds_parameters pre len crc text rest :
  Forall chunk_wf pre -> Forall chunk_skipped pre ->
  let c := mkChunk len (ascii_bytes "tEXt")
                   (ascii_bytes "parameters" ++ Byte.x00 :: text) crc in
  chunk_wf c ->
  Z.of_nat (length (PNG_MAGIC ++ concat (chunk_bytes <$> pre) ++ chunk_bytes c))
    <= BUFFER_LENGTH ->
  readPngParams (Some (PNG_MAGIC ++ concat (chunk_bytes <$> pre)
                                 ++ chunk_bytes c ++ rest))
  = Some (Some text).
Proof.
  intros Hwf Hskip c Hc Hin. unfold readPngParams.
  rewrite magic_read, bool_decide_true by done. cbv zeta.
  set (bytesRead := Z.min _ _).
  rewrite !length_app, chunk_bytes_length in Hin by done.
  assert (Z.of_nat (length PNG_MAGIC)
          + Z.of_nat (length (concat (chunk_bytes <$> pre))) < bytesRead) as Hlt.
  { unfold bytesRead. rewrite !length_app, chunk_bytes_length by done. lia. }
  destruct (walk_in pre PNG_MAGIC (chunk_bytes c ++ rest) bytesRead
              (S (Z.to_nat bytesRead)) Hwf Hskip) as (fuel' & Hf & Heq);
    [done | lia | simpl; lia |].
  change (Z.of_nat (length PNG_MAGIC)) with 8 in Heq at 1. rewrite Heq.
  destruct fuel' as [|fuel']; [lia |].
  rewrite (app_assoc PNG_MAGIC), <- Nat2Z.inj_add, <- length_app.
  apply chunk_found; try done.
  all: rewrite length_app; cbn [c_data c] in *; rewrite ?length_app in *;
    change (length PNG_MAGIC) with 8%nat in *;
    change (length (ascii_bytes "parameters")) with 10%nat in *.
  - lia.
  - lia.
Qed.

(** X18. [readPngParams] always comes to an answer, and the answer is
    [null] for a path that does not exist, for a file that does not start
    with the PNG signature, and for a PNG file whose chunks before the
    [parameters] text fill the first 1 MiB: a text chunk behind that
    point is never found. *)
Theorem readPngParams_null :
  readPngParams None = Some None ∧
  (∀ file, ∃ r, readPngParams (Some file) = Some r) ∧
  (∀ file, take 8 file ≠ PNG_MAGIC -> readPngParams (Some file) = Some None) ∧
  (∀ pre rest,
     Forall chunk_wf pre -> Forall chunk_skipped pre ->
     BUFFER_LENGTH <= Z.of_nat (length (PNG_MAGIC ++ concat (chunk_bytes <$> pre))) ->
     readPngParams (Some (PNG_MAGIC ++ concat (chunk_bytes <$> pre) ++ rest))
     = Some None).
Proof.
  split_and!.
  - done.
  - intros file. unfold readPngParams. case_bool_decide; [| by eexists].
    apply readPngParams_loop_total. lia.
  - intros file Hmagic. unfold readPngParams.
    rewrite bool_decide_false; [done |].
    intros Hb. apply Hmagic.
    do 8 (destruct file as [|? file]; [vm_compute in Hb; discriminate |]).
    vm_compute in Hb. simpl. exact Hb.
  - intros pre rest Hwf Hskip Hbig. unfold readPngParams.
    rewrite magic_read, bool_decide_true by done. cbv zeta.
    apply walk_out; [done | done | |].
    + rewrite !length_app in *. simpl length in *. lia.
    + simpl length. lia.
Qed.

(** *** From the upload to the command line *)

Lemma generate_cli_opt_pm_dir b d out k c dir :
  opt_values "--pm-id-images-dir" (generate_cli_args b d out k c (Some dir)) =
  if Js.truthy (field b "photoMaker")
  then if Js.truthy (Js.JStr dir) && existsSync dir d && readdir_nonempty dir d
       then [dir] else []
  else [].
Proof. unfold_cli. opt_norm. reflexivity. Qed.

Lemma generate_cli_opt_control_image b d out k c pm :
  opt_values "--control-image" (generate_cli_args b d out k c pm) =
  if Js.truthy (field b "controlNet")
  then from_option (λ x, when' (Js.truthy (Js.JStr x) && existsSync x d) x) [] c
  else [].
Proof. unfold_cli. destruct pm; opt_norm; reflexivity. Qed.

Lemma cliUpload_first ups b d0 u :
  u ∈ ups ->
  is_Some (first_file (foldl cliUpload_file (mkReq b ∅ None None None, d0) ups).1
                      (fieldname u)).
Proof.
  induction ups as [|x ups IH] using rev_ind; [by intros ?%elem_of_nil |].
  intros Hu. rewrite foldl_snoc.
  destruct (foldl cliUpload_file _ ups) as [r d].
  unfold cliUpload_file. cbn [fst snd].
  destruct (cliUpload_destination x r d) as [[dir r'] d'] eqn:E.
  assert (req_files r' = req_files r) as Hfiles.
  { unfold cliUpload_destination in E.
    destruct (String.eqb _ _); [by injection E as <- <- <- |].
    destruct (req_pmImagesDir r); by injection E as <- <- <-. }
  unfold first_file, add_file. cbn [fst req_files]. rewrite Hfiles.
  destruct (decide (fieldname u = fieldname x)) as [-> | Hne].
  - rewrite lookup_insert_eq. simpl.
    destruct (default [] (req_files r !! fieldname x)); by eexists.
  - rewrite lookup_insert_ne by done.
    apply elem_of_app in Hu as [Hu | Hu%list_elem_of_singleton]; [| congruence].
    by apply IH.
Qed.

Lemma is_under_nonempty dir p : is_under dir p = true -> p ≠ "".
Proof.
  unfold is_under. intros H ->. by destruct dir.
Qed.

Lemma readdir_nonempty_elem dir (d : Disk) p :
  p ∈ d -> is_under dir p = true -> readdir_nonempty dir d = true.
Proof.
  intros Hp Hu. unfold readdir_nonempty. apply existsb_exists.
  exists p. split; [| done]. apply list_elem_of_In. by apply elem_of_elements.
Qed.

(** X20. A file uploaded with a text-to-image request that the upload
    middleware lets through and that names a model, under any field but
    [kontextRefImage] (so as a PhotoMaker image or as the ControlNet
    image), is stored in the one PhotoMaker directory of the request and
    is on disk when the process is started; when the request names a
    PhotoMaker model the process gets that directory as
    [--pm-id-images-dir], and when it names a ControlNet model and the
    file is the ControlNet image, the process gets the stored file as
    [--control-image]: the ControlNet image lies in the directory of the
    PhotoMaker identity images. *)
Theorem uploads_reach_command_line rq now st up u :
  cliUpload_fields rq (disk st) = Some up ->
  strings_only (body rq) ->
  u ∈ uploads rq -> fieldname u ≠ "kontextRefImage" ->
  Js.truthy (field (body rq) "diffusionModel") = true ->
  ∃ pend st1 args dir p,
    generate_cli_begin up.1 now (set_disk up.2 st) = (Awaiting pend, st1) ∧
    argv (p_proc pend) = tokens args ∧
    (fieldname u = "pmImages" ∨ fieldname u = "controlNetImage") ∧
    req_pmImagesDir up.1 = Some dir ∧
    first_file up.1 (fieldname u) = Some p ∧
    is_under dir p = true ∧ p ∈ disk st1 ∧
    (Js.truthy (field (body rq) "photoMaker") = true ->
     opt_values "--pm-id-images-dir" args = [dir] ∧
     run_of ["--pm-id-images-dir"; dir] (argv (p_proc pend))) ∧
    (Js.truthy (field (body rq) "controlNet") = true ->
     fieldname u = "controlNetImage" ->
     opt_values "--control-image" args = [p] ∧
     run_of ["--control-image"; p] (argv (p_proc pend))).
Proof.
  unfold cliUpload_fields. intros Hup _ Hu Hname Hmodel.
  destruct (multer_accepts _ _) eqn:Hacc; [| done]. injection Hup as <-.
  assert (fieldname u = "pmImages" ∨ fieldname u = "controlNetImage") as Hfield.
  { destruct (multer_accepts_declared _ _ u Hacc Hu) as [n Hn].
    unfold cli_fields in Hn. set_solver. }
  unfold cliUpload.
  destruct (cliUpload_inv (uploads rq) (body rq) (disk st))
    as (_ & Hbody & Hpm & _ & _ & Hfiles & _).
  destruct (cliUpload_first (uploads rq) (body rq) (disk st) u Hu) as [p Hp].
  destruct (foldl cliUpload_file _ (uploads rq)) as [r d]. cbn [fst snd] in *.
  assert (∃ fs, req_files r !! fieldname u = Some fs ∧ p ∈ fs) as (fs & Hl & Hin).
  { unfold first_file in Hp.
    destruct (req_files r !! fieldname u) as [fs|]; [| done].
    exists fs. split; [done |]. destruct fs; simplify_eq/=. left. }
  destruct (Hfiles _ _ _ Hl Hin) as [Hpd Hdir].
  destruct (Hdir Hname) as (dir & Hd & Hunder).
  destruct (Hpm dir Hd) as [Hne Hind].
  unfold generate_cli_begin. cbn [disk set_disk]. rewrite Hbody, Hmodel. cbn [negb].
  pose proof (materialize_pm_mono (body rq) now (req_pmImagesDir r) d) as Hmono.
  pose proof (materialize_pm_keeps (body rq) now dir d) as Hkeep.
  rewrite Hd in *.
  destruct (materialize_pm _ _ _ _) as [pm d1]. cbn [fst snd] in *. subst pm.
  unfold spawn.
  eexists _, _, (generate_cli_args _ _ _ _ _ _), dir, p.
  split_and!; [reflexivity | reflexivity | done | done | done | done
               | by apply Hmono | |].
  - intros Hphoto. cbn [argv p_proc].
    assert (opt_values "--pm-id-images-dir"
              (generate_cli_args (body rq) d1
                 (path_join [OUTPUT_DIR; "gen_" +:+ pretty now +:+ ".png"])
                 (pick_image r "kontextRefImage" (field (body rq) "kontextRefPath")
                    (field (body rq) "kontextRefGallery"))
                 (pick_image r "controlNetImage" (field (body rq) "controlImagePath")
                    (field (body rq) "controlNetImageGallery"))
                 (Some dir)) = [dir]) as Hv.
    { rewrite generate_cli_opt_pm_dir, Hphoto. cbn [Js.truthy].
      assert (String.eqb dir "" = false) as -> by by apply String.eqb_neq.
      unfold existsSync. rewrite bool_decide_true by by apply Hmono.
      rewrite (readdir_nonempty_elem dir d1 p) by (by apply Hmono || done). done. }
    split; [exact Hv |]. apply opt_values_run. rewrite Hv. left.
  - intros Hcontrol Hcn. cbn [argv p_proc].
    assert (opt_values "--control-image"
              (generate_cli_args (body rq) d1
                 (path_join [OUTPUT_DIR; "gen_" +:+ pretty now +:+ ".png"])
                 (pick_image r "kontextRefImage" (field (body rq) "kontextRefPath")
                    (field (body rq) "kontextRefGallery"))
                 (pick_image r "controlNetImage" (field (body rq) "controlImagePath")
                    (field (body rq) "controlNetImageGallery"))
                 (Some dir)) = [p]) as Hv.
    { rewrite generate_cli_opt_control_image, Hcontrol.
      unfold pick_image. rewrite <- Hcn, Hp. cbn [from_option Js.truthy].
      unfold when'.
      assert (String.eqb p "" = false) as ->
        by (apply String.eqb_neq; by eapply is_under_nonempty).
      unfold existsSync. rewrite bool_decide_true by by apply Hmono. done. }
    split; [exact Hv |]. apply opt_values_run. rewrite Hv. left.
Qed.

(** *** Paths that leave the output directory *)


Lemma append_cons c (a b : string) : String c a +:+ b = String c (a +:+ b).
Proof. reflexivity. Qed.

Lemma append_assoc (a b c : string) : (a +:+ b) +:+ c = a +:+ (b +:+ c).
Proof.
  induction a as [|x a IH]; [done |]. by rewrite !append_cons, IH.
Qed.

Lemma append_nil_r (a : string) : a +:+ "" = a.
Proof.
  induction a as [|x a IH]; [done |]. by rewrite append_cons, IH.
Qed.

Lemma segments_app cur a b :
  segments cur (a +:+ String "/" b) = segments cur a ++ segments "" b.
Proof.
  revert cur. induction a as [|c a IH]; intros cur; [done |].
  rewrite append_cons. cbn [segments].
  destruct (Ascii.eqb c "/"); [by rewrite IH | apply IH].
Qed.

Lemma segments_nonempty cur s : segments cur s ≠ [].
Proof.
  revert cur. induction s as [|c s IH]; intros cur; cbn [segments]; [done |].
  destruct (Ascii.eqb c "/"); [done | apply IH].
Qed.

Lemma concat_segments cur s : String.concat "/" (segments cur s) = cur +:+ s.
Proof.
  revert cur. induction s as [|c s IH]; intros cur; cbn [segments].
  - by rewrite append_nil_r.
  - destruct (Ascii.eqb_spec c "/") as [-> | Hc].
    + specialize (IH "").
      pose proof (segments_nonempty "" s) as Hne.
      destruct (segments "" s) as [|x l]; [done |].
      change (String.concat "/" (cur :: x :: l))
        with (cur +:+ "/" +:+ String.concat "/" (x :: l)).
      by rewrite IH.
    + rewrite IH, append_assoc. done.
Qed.

Lemma segments_concat l :
  Forall plain_segment l -> l ≠ [] -> segments "" (String.concat "/" l) = l.
Proof.
  induction 1 as [|x l Hx Hl IH]; [done |]. intros _.
  destruct Hx as (_ & _ & _ & Hx).
  destruct l as [|y l]; [done |].
  change (String.concat "/" (x :: y :: l))
    with (x +:+ String "/" (String.concat "/" (y :: l))).
  rewrite segments_app, Hx, IH by done. done.
Qed.

Lemma concat_app l1 l2 :
  l1 ≠ [] -> l2 ≠ [] ->
  String.concat "/" (l1 ++ l2) =
  String.concat "/" l1 +:+ "/" +:+ String.concat "/" l2.
Proof.
  intros H1 H2. induction l1 as [|x l1 IH]; [done |].
  destruct l1 as [|y l1].
  - destruct l2; done.
  - change (String.concat "/" ((x :: y :: l1) ++ l2))
      with (x +:+ "/" +:+ String.concat "/" ((y :: l1) ++ l2)).
    rewrite IH by done.
    change (String.concat "/" (x :: y :: l1))
      with (x +:+ "/" +:+ String.concat "/" (y :: l1)).
    by rewrite !append_assoc.
Qed.

Lemma normalizeString_plain a res l rest :
  Forall plain_segment l ->
  normalizeString a res (l ++ rest) = normalizeString a (res ++ l) rest.
Proof.
  intros Hl. revert res. induction Hl as [|x l Hx Hl IH]; intros res.
  - by rewrite app_nil_r.
  - destruct Hx as (H1 & H2 & H3 & _). cbn [app normalizeString].
    rewrite bool_decide_false by (intros [? | ?]; done).
    rewrite bool_decide_false by done.
    rewrite IH, <- app_assoc. done.
Qed.

Lemma normalizeString_up a res x rest :
  x ≠ ".." ->
  normalizeString a (res ++ [x]) (".." :: rest) = normalizeString a res rest.
Proof.
  intros Hx. cbn [normalizeString].
  rewrite bool_decide_false by (intros [? | ?]; done).
  rewrite bool_decide_true by done.
  rewrite last_snoc, bool_decide_false by done.
  by rewrite removelast_last.
Qed.
Lemma append_ne_r (a b : string) : b ≠ "" -> a +:+ b ≠ "".
Proof. destruct a; [done |]. by rewrite append_cons. Qed.

Lemma last_plain l x : Forall plain_segment l -> last l = Some x -> x ≠ "".
Proof.
  intros Hl Hx. apply last_Some in Hx as [l' ->].
  apply Forall_app in Hl as [_ Hl]. apply Forall_cons in Hl as [(H & _) _]. done.
Qed.

(** Joining a directory [R/o] with a relative path that goes up once and
    then down along [ts]. *)
Lemma join_up R o rs ts :
  segments "" R = "" :: rs -> Forall plain_segment rs -> plain_segment o ->
  Forall plain_segment ts -> ts ≠ [] ->
  posix_join [path_join [R; o]; String.concat "/" (".." :: ts)] = path_join (R :: ts).
Proof.
  intros HR Hrs Ho Hts Hne. unfold posix_join, path_join.
  destruct ts as [|t ts]; [done |]. clear Hne.
  change (String.concat "/" [R; o]) with (R +:+ String "/" o).
  change (String.concat "/" (".." :: t :: ts))
    with (".." +:+ String "/" (String.concat "/" (t :: ts))).
  rewrite filter_cons_True by (apply append_ne_r; done).
  rewrite filter_cons_True by done.
  rewrite filter_nil.
  change (String.concat "/" [R +:+ String "/" o;
                              ".." +:+ String "/" (String.concat "/" (t :: ts))])
    with ((R +:+ String "/" o) +:+
          String "/" (".." +:+ String "/" (String.concat "/" (t :: ts)))).
  unfold posix_normalize.
  assert (String.eqb ((R +:+ String "/" o) +:+
            String "/" (".." +:+ String "/" (String.concat "/" (t :: ts)))) ""
          = false) as ->.
  { apply String.eqb_neq, append_ne_r. done. }
  rewrite !segments_app, HR. cbv zeta.
  destruct Ho as (Ho1 & Ho2 & Ho3 & Ho4). rewrite Ho4.
  rewrite segments_concat by done.
  change (segments "" "..") with [".."].
  rewrite bool_decide_true by done.
  assert (last ((("" :: rs) ++ [o]) ++ [".."] ++ t :: ts) ≠ Some "") as Hlast.
  { rewrite !last_app. simpl last at 1.
    destruct (last (t :: ts)) as [x|] eqn:E; [| by apply last_None in E].
    intros [= ->]. by eapply (last_plain (t :: ts)). }
  rewrite bool_decide_false by done. cbn [negb].
  assert (normalizeString false [] ((("" :: rs) ++ [o]) ++ [".."] ++ t :: ts)
          = rs ++ t :: ts) as ->.
  { cbn [app normalizeString]. rewrite bool_decide_true by by left.
    rewrite <- app_assoc.
    rewrite normalizeString_plain by done. cbn [app].
    change (o :: ".." :: t :: ts) with ([o] ++ ".." :: t :: ts).
    rewrite (normalizeString_plain false rs [o]) by (by repeat constructor).
    rewrite normalizeString_up by done.
    rewrite <- (app_nil_r (t :: ts)) at 1.
    rewrite normalizeString_plain by done. done. }
  pose proof (concat_segments "" R) as HR'. rewrite HR in HR'.
  change ("" +:+ R) with R in HR'.
  destruct rs as [|r rs].
  - cbn [app]. rewrite append_nil_r. rewrite <- HR'. done.
  - cbn [app]. rewrite append_nil_r. rewrite <- HR'.
    change (String.concat "/" (r :: rs ++ t :: ts))
      with (String.concat "/" ((r :: rs) ++ t :: ts)).
    rewrite concat_app by done.
    change (String.concat "/" ("" :: r :: rs))
      with ("" +:+ "/" +:+ String.concat "/" (r :: rs)).
    change (String.concat "/" (("" +:+ "/" +:+ String.concat "/" (r :: rs)) :: t :: ts))
      with (("" +:+ "/" +:+ String.concat "/" (r :: rs)) +:+ "/" +:+
            String.concat "/" (t :: ts)).
    by rewrite !append_assoc.
Qed.

(** Joining a directory [R/o] with a relative path that goes down along
    [ts]. *)
Lemma join_down R o rs ts :
  segments "" R = "" :: rs -> Forall plain_segment rs -> plain_segment o ->
  Forall plain_segment ts -> ts ≠ [] ->
  posix_join [path_join [R; o]; String.concat "/" ts] = path_join (R :: o :: ts).
Proof.
  intros HR Hrs Ho Hts Hne. unfold posix_join, path_join.
  destruct ts as [|t ts]; [done |]. clear Hne.
  change (String.concat "/" [R; o]) with (R +:+ String "/" o).
  assert (String.concat "/" (t :: ts) ≠ "") as Hne.
  { apply Forall_cons in Hts as [(Ht & _) _].
    destruct ts; [done |].
    change (String.concat "/" (t :: s :: ts))
      with (t +:+ String "/" (String.concat "/" (s :: ts))).
    by apply append_ne_r. }
  rewrite filter_cons_True by (apply append_ne_r; done).
  rewrite filter_cons_True by done.
  rewrite filter_nil.
  change (String.concat "/" [R +:+ String "/" o; String.concat "/" (t :: ts)])
    with ((R +:+ String "/" o) +:+ String "/" (String.concat "/" (t :: ts))).
  unfold posix_normalize.
  assert (String.eqb ((R +:+ String "/" o) +:+
                      String "/" (String.concat "/" (t :: ts))) "" = false) as ->.
  { apply String.eqb_neq, append_ne_r. done. }
  rewrite !segments_app, HR. cbv zeta.
  destruct Ho as (Ho1 & Ho2 & Ho3 & Ho4). rewrite Ho4.
  rewrite segments_concat by done.
  rewrite bool_decide_true by done.
  assert (last ((("" :: rs) ++ [o]) ++ t :: ts) ≠ Some "") as Hlast.
  { rewrite last_app.
    destruct (last (t :: ts)) as [x|] eqn:E; [| by apply last_None in E].
    intros [= ->]. by eapply (last_plain (t :: ts)). }
  rewrite bool_decide_false by done. cbn [negb].
  assert (normalizeString false [] ((("" :: rs) ++ [o]) ++ t :: ts)
          = rs ++ o :: t :: ts) as ->.
  { cbn [app normalizeString]. rewrite bool_decide_true by by left.
    rewrite <- (app_nil_r ((rs ++ [o]) ++ t :: ts)).
    rewrite normalizeString_plain.
    - cbn [app normalizeString]. by rewrite <- app_assoc.
    - apply Forall_app. split; [| done].
      apply Forall_app. split; [done |]. by repeat constructor. }
  pose proof (concat_segments "" R) as HR'. rewrite HR in HR'.
  change ("" +:+ R) with R in HR'.
  destruct rs as [|r rs].
  - cbn [app]. rewrite append_nil_r. rewrite <- HR'. done.
  - cbn [app]. rewrite append_nil_r. rewrite <- HR'.
    change (String.concat "/" (r :: rs ++ o :: t :: ts))
      with (String.concat "/" ((r :: rs) ++ o :: t :: ts)).
    rewrite concat_app by done.
    change (String.concat "/" ("" :: r :: rs))
      with ("" +:+ "/" +:+ String.concat "/" (r :: rs)).
    change (String.concat "/"
              (("" +:+ "/" +:+ String.concat "/" (r :: rs)) :: o :: t :: ts))
      with (("" +:+ "/" +:+ String.concat "/" (r :: rs)) +:+ "/" +:+
            String.concat "/" (o :: t :: ts)).
    by rewrite !append_assoc.
Qed.

Lemma plain_output : plain_segment "output".
Proof. by repeat split. Qed.



Lemma prefix_app_cancel a b c :
  String.prefix (a +:+ b) (a +:+ c) = String.prefix b c.
Proof.
  induction a as [|x a IH]; [done |].
  rewrite !append_cons. cbn [String.prefix].
  by destruct (Ascii.ascii_dec x x).
Qed.

Lemma prefix_output_slash t r :
  String.prefix "output" (t +:+ String "/" r) = true ->
  String.prefix "output" t = true.
Proof.
  do 6 (destruct t as [|? t];
        [intros H; vm_compute in H; discriminate |];
        rewrite append_cons; cbn [String.prefix];
        destruct (Ascii.ascii_dec _ _); [| done]).
  intros _. by destruct t.
Qed.

(** X23. The containment check of the route that reads the parameters
    of an image compares strings: a path of plain names is read in the
    output directory, and a path that leaves it for a directory whose
    name does not start with [output] is refused with 403, but a path
    [../output<s>/...] into a sibling directory whose name starts with
    [output] passes the check and is read. *)
Theorem image_params_prefix_check b rs ts :
  segments "" RESOURCES_PATH = "" :: rs -> Forall plain_segment rs ->
  Forall plain_segment ts -> ts ≠ [] ->
  (field b "path" = Js.JStr (String.concat "/" ts) ->
   image_params_file b = inr (path_join (OUTPUT_DIR :: ts))) ∧
  (∀ s, plain_segment ("output" +:+ s) ->
     field b "path" = Js.JStr (String.concat "/" (".." :: ("output" +:+ s) :: ts)) ->
     image_params_file b = inr (path_join (RESOURCES_PATH :: ("output" +:+ s) :: ts))) ∧
  (∀ t, plain_segment t -> String.prefix "output" t = false ->
     field b "path" = Js.JStr (String.concat "/" (".." :: t :: ts)) ->
     image_params_file b =
     inl (status_json 403 [("error", JsonStr "Access denied")])).
Proof.
  intros HR Hrs Hts Hne.
  destruct ts as [|t0 ts0] eqn:Ets; [done |]. rewrite <- Ets in *.
  assert (String.concat "/" ts ≠ "") as Hcat.
  { rewrite Ets in *. apply Forall_cons in Hts as [(Ht & _) _].
    destruct ts0 as [|t1 ts0]; [done |].
    change (String.concat "/" (t0 :: t1 :: ts0))
      with (t0 +:+ String "/" (String.concat "/" (t1 :: ts0))).
    by apply append_ne_r. }
  assert (∀ x, String.concat "/" (x :: ts) = x +:+ "/" +:+ String.concat "/" ts)
    as Hcons by (intros x; by rewrite Ets).
  assert (∀ x y, path_join [x; y] = x +:+ "/" +:+ y) as Hpair by done.
  assert (∀ x y l, String.concat "/" (x :: y :: l)
                   = x +:+ "/" +:+ String.concat "/" (y :: l)) as Hcons2 by done.
  split_and!.
  - intros Hf. unfold image_params_file. rewrite Hf.
    cbn [Js.truthy text Js.String_].
    assert (String.eqb (String.concat "/" ts) "" = false) as ->
      by by apply String.eqb_neq.
    cbn [negb].
    assert (posix_join [OUTPUT_DIR; String.concat "/" ts]
            = path_join (OUTPUT_DIR :: ts)) as ->.
    { unfold OUTPUT_DIR.
      rewrite (join_down RESOURCES_PATH "output" rs ts)
        by (done || apply plain_output).
      unfold path_join. rewrite !Hcons. fold (path_join [RESOURCES_PATH; "output"]).
      rewrite Hpair. by rewrite Hcons2, Hcons, !append_assoc. }
    unfold path_join. rewrite Hcons, prefix_app. done.
  - intros s Hs Hf. unfold image_params_file. rewrite Hf.
    cbn [Js.truthy text Js.String_].
    assert (String.eqb (String.concat "/" (".." :: ("output" +:+ s) :: ts)) ""
            = false) as -> by done.
    cbn [negb].
    assert (posix_join [OUTPUT_DIR;
                        String.concat "/" (".." :: ("output" +:+ s) :: ts)]
            = path_join (RESOURCES_PATH :: ("output" +:+ s) :: ts)) as ->.
    { unfold OUTPUT_DIR.
      by rewrite (join_up RESOURCES_PATH "output" rs (("output" +:+ s) :: ts))
        by (done || apply plain_output || by constructor). }
    assert (String.prefix OUTPUT_DIR
              (path_join (RESOURCES_PATH :: ("output" +:+ s) :: ts)) = true) as ->;
      [| done].
    unfold OUTPUT_DIR. rewrite Hpair. unfold path_join. rewrite Hcons2, Hcons.
    rewrite !prefix_app_cancel, append_assoc. apply prefix_app.
  - intros t Ht Hp Hf. unfold image_params_file. rewrite Hf.
    cbn [Js.truthy text Js.String_].
    assert (String.eqb (String.concat "/" (".." :: t :: ts)) "" = false) as -> by done.
    cbn [negb].
    assert (posix_join [OUTPUT_DIR; String.concat "/" (".." :: t :: ts)]
            = path_join (RESOURCES_PATH :: t :: ts)) as ->.
    { unfold OUTPUT_DIR.
      by rewrite (join_up RESOURCES_PATH "output" rs (t :: ts))
        by (done || apply plain_output || by constructor). }
    assert (String.prefix OUTPUT_DIR (path_join (RESOURCES_PATH :: t :: ts)) = false)
      as ->; [| done].
    unfold OUTPUT_DIR. rewrite Hpair. unfold path_join. rewrite Hcons2, Hcons.
    rewrite !prefix_app_cancel.
    destruct (String.prefix "output" (t +:+ "/" +:+ String.concat "/" ts)) eqn:E;
      [| done].
    apply prefix_output_slash in E. congruence.
Qed.

(** *** The exit handler *)

(** X24. On SIGINT or SIGTERM the server signals the process in the
    [cliProcess] slot and nothing else: with an inference server started
    and a text-to-image job running, the job is sent SIGTERM and the
    handler sends no signal to the inference server, whose handle
    stays as it is. *)
Theorem cleanup_leaves_server_running b r now st pend st1 :
  sdProcess st = None ->
  generate_cli_begin r now (start b st).2 = (Awaiting pend, st1) ->
  ∃ srv,
    sdProcess (cleanup st1) = Some srv ∧ pid srv = length (spawned st) ∧
    pid (p_proc pend) = S (length (spawned st)) ∧
    signals (cleanup st1) = signals st ++ [(pid (p_proc pend), "SIGTERM")].
Proof.
  intros Hidle. rewrite start_idle by done. cbv zeta. cbn [snd].
  unfold generate_cli_begin. cbn [disk set_disk].
  destruct (materialize_pm _ _ _ _) as [pm d1].
  destruct (negb _); [done |].
  unfold spawn, set_cliProcess, set_disk. intros [= <- <-].
  unfold cleanup, kill.
  cbn [cliProcess sdProcess signals spawned pid p_proc].
  eexists. split_and!; [reflexivity | reflexivity | | reflexivity].
  rewrite length_app. simpl. lia.
Qed.

(** *** The parameters text *)

Lemma split_go_skip sep cur k pre s :
  String.length pre = k ->
  JsString.split_go sep cur k (pre +:+ s) = JsString.split_go sep cur 0 s.
Proof.
  revert k. induction pre as [|c pre IH]; intros k Hk; simpl in Hk; subst k; [done |].
  rewrite append_cons. cbn [JsString.split_go]. by apply IH.
Qed.

Lemma split_go_last sep cur a :
  no_overlap sep -> sep_free sep a = true ->
  JsString.split_go sep cur 0 a = [cur +:+ a].
Proof.
  intros [Hne Hno]. revert cur. induction a as [|c a IH]; intros cur Hfree.
  - by rewrite append_nil_r.
  - cbn [JsString.split_go].
    destruct (Hno c a "" Hfree) as [_ ->].
    cbn [sep_free] in Hfree. apply andb_true_iff in Hfree as [_ Hfree].
    rewrite IH by done. by rewrite append_assoc.
Qed.

Lemma split_go_item sep cur a r :
  no_overlap sep -> sep_free sep a = true ->
  JsString.split_go sep cur 0 (a +:+ sep +:+ r) =
  (cur +:+ a) :: JsString.split_go sep "" 0 r.
Proof.
  intros [Hne Hno]. revert cur. induction a as [|c a IH]; intros cur Hfree.
  - rewrite append_nil_r. change ("" +:+ sep +:+ r) with (sep +:+ r).
    destruct sep as [|x sep]; [done |].
    pose proof (prefix_app (String x sep) r) as Hp.
    rewrite append_cons in *. cbn [JsString.split_go]. rewrite Hp.
    f_equal. apply split_go_skip. cbn [String.length]. lia.
  - destruct (Hno c a r Hfree) as [Hp _].
    rewrite append_cons in *. cbn [JsString.split_go]. rewrite Hp.
    cbn [sep_free] in Hfree. apply andb_true_iff in Hfree as [_ Hfree].
    rewrite IH by done. by rewrite append_assoc.
Qed.

Lemma split_concat sep items :
  no_overlap sep -> items ≠ [] ->
  Forall (λ a, sep_free sep a = true) items ->
  JsString.split sep (String.concat sep items) = items.
Proof.
  intros Hno Hne Hitems. unfold JsString.split.
  induction Hitems as [|a items Ha Hitems IH]; [done |].
  destruct items as [|b items].
  - by apply (split_go_last sep "" a).
  - change (String.concat sep (a :: b :: items))
      with (a +:+ sep +:+ String.concat sep (b :: items)).
    rewrite split_go_item by done. by rewrite IH.
Qed.

Lemma prefix_nil s : String.prefix "" s = true.
Proof. by destruct s. Qed.

Lemma no_overlap_char c : no_overlap (String c "").
Proof.
  split; [done |]. intros d s r H.
  cbn [sep_free] in H. apply andb_true_iff in H as [H _].
  apply negb_true_iff in H. revert H.
  rewrite append_cons. cbn [String.prefix].
  destruct (Ascii.ascii_dec c d); [| done].
  by rewrite !prefix_nil.
Qed.

Lemma no_overlap_two c1 c2 : c1 ≠ c2 -> no_overlap (String c1 (String c2 "")).
Proof.
  intros Hc. split; [done |]. intros d s r H.
  cbn [sep_free] in H. apply andb_true_iff in H as [H _].
  apply negb_true_iff in H. revert H.
  rewrite append_cons. cbn [String.prefix].
  destruct (Ascii.ascii_dec c1 d) as [<- |]; [| done].
  destruct s as [|e s].
  - intros _. change ("" +:+ String c1 (String c2 "") +:+ r)
      with (String c1 (String c2 "" +:+ r)).
    cbn [String.prefix]. by destruct (Ascii.ascii_dec c2 c1) as [-> |].
  - rewrite append_cons. cbn [String.prefix].
    destruct (Ascii.ascii_dec c2 e); [| done].
    by rewrite !prefix_nil.
Qed.

Lemma sep_free_char_app c a b :
  sep_free (String c "") (a +:+ b) =
  sep_free (String c "") a && sep_free (String c "") b.
Proof.
  induction a as [|x a IH]; [done |].
  rewrite append_cons. cbn [sep_free String.prefix]. rewrite IH.
  destruct (Ascii.ascii_dec c x); [| done].
  by rewrite !prefix_nil.
Qed.

Lemma string_drop_app a x : JsString.string_drop (String.length a) (a +:+ x) = x.
Proof. induction a as [|c a IH]; [by destruct x | done]. Qed.

Lemma replace_prefix pat rep x :
  pat ≠ "" -> JsString.replace pat rep (pat +:+ x) = rep +:+ x.
Proof.
  intros Hne. destruct pat as [|c pat]; [done |].
  pose proof (prefix_app (String c pat) x) as Hp.
  pose proof (string_drop_app (String c pat) x) as Hd.
  rewrite append_cons in *. cbn [JsString.replace]. by rewrite Hp, Hd.
Qed.

Lemma image_params_lines P N items :
  JsString.trim P = P -> JsString.trim N = N ->
  sep_free newline P = true -> sep_free newline N = true ->
  sep_free newline (String.concat ", " items) = true ->
  String.prefix "Steps:" (String.concat ", " items) = true ->
  items ≠ [] -> Forall (λ a, sep_free ", " a = true) items ->
  image_params_parse (Some (params_text P N items)) =
  foldl (λ r p, r ≫= λ r, image_params_pair r p)
        (Some (mkImageParams (Some P) (Some N) None None None None None
                             None None None))
        items.
Proof.
  intros HP HN HfP HfN HfL Hsteps Hne Hitems.
  set (L := String.concat ", " items) in *.
  assert (JsString.split newline (params_text P N items)
          = [P; "Negative prompt: " +:+ N; L]) as Hlines.
  { unfold JsString.split, params_text. fold L.
    rewrite (split_go_item newline "" P) by (apply no_overlap_char || done).
    rewrite <- (append_assoc "Negative prompt: " N).
    assert (sep_free newline ("Negative prompt: " +:+ N) = true) as HfN'.
    { unfold newline in *. by rewrite sep_free_char_app, HfN. }
    rewrite (split_go_item newline "" ("Negative prompt: " +:+ N))
      by (apply no_overlap_char || done).
    rewrite (split_go_last newline "" L) by (apply no_overlap_char || done).
    done. }
  assert (L ≠ "") as HL by (intros E; by rewrite E in Hsteps).
  assert (String.prefix "Negative prompt:" L = false) as HnegL.
  { destruct L as [|c l]; [done |]. cbn [String.prefix] in *.
    destruct (Ascii.ascii_dec "S" c) as [<- |]; [| done].
    by destruct (Ascii.ascii_dec "N" "S"). }
  unfold image_params_parse.
  destruct (params_text P N items) as [|c0 t0] eqn:Etext.
  { unfold params_text, newline in Etext. by destruct P. }
  fold newline. rewrite Hlines. cbn [head tail default foldl].
  unfold image_params_line at 2.
  change ("Negative prompt: " +:+ N) with ("Negative prompt:" +:+ String " " N).
  rewrite prefix_app, replace_prefix by done.
  change ("" +:+ String " " N) with (String " " N).
  assert (JsString.trim (String " " N) = N) as ->.
  { unfold JsString.trim in *.
    assert (JsString.trimStart (String " " N) = JsString.trimStart N) as ->;
      [by destruct N | done]. }
  unfold image_params_line. rewrite HnegL, Hsteps. unfold id.
  rewrite HP, HN.
  assert (String.eqb L "" = false) as -> by by apply String.eqb_neq.
  unfold L. rewrite split_concat; [done | | done | done].
  by apply no_overlap_two.
Qed.

Lemma image_params_pair_kv r k v :
  sep_free ": " k = true -> sep_free ": " v = true ->
  image_params_pair r (k +:+ ": " +:+ v) = image_params_assign r k (Some v).
Proof.
  intros Hk Hv. unfold image_params_pair, JsString.split.
  rewrite split_go_item by (by apply no_overlap_two || done).
  rewrite split_go_last by (by apply no_overlap_two || done).
  done.
Qed.

Lemma split_x w h :
  sep_free "x" w = true -> sep_free "x" h = true ->
  JsString.split "x" (w +:+ "x" +:+ h) = [w; h].
Proof.
  intros Hw Hh. unfold JsString.split.
  rewrite split_go_item by (apply no_overlap_char || done).
  by rewrite split_go_last by (apply no_overlap_char || done).
Qed.

Lemma image_params_assign_Steps r v :
  image_params_assign r "Steps" (Some v) =
  Some (mkImageParams (ip_prompt r) (ip_negativePrompt r) (Some (Js.parseInt (Js.JStr v))) (ip_cfgScale r) (ip_seed r) (ip_width r) (ip_height r) (ip_sampler r) (ip_scheduler r) (ip_diffusionModel r)).
Proof. reflexivity. Qed.

Lemma image_params_assign_CFG_scale r v :
  image_params_assign r "CFG scale" (Some v) =
  Some (mkImageParams (ip_prompt r) (ip_negativePrompt r) (ip_steps r) (Some (Js.parseFloat (Js.JStr v))) (ip_seed r) (ip_width r) (ip_height r) (ip_sampler r) (ip_scheduler r) (ip_diffusionModel r)).
Proof. reflexivity. Qed.

Lemma image_params_assign_Seed r v :
  image_params_assign r "Seed" (Some v) =
  Some (mkImageParams (ip_prompt r) (ip_negativePrompt r) (ip_steps r) (ip_cfgScale r) (Some (Js.parseInt (Js.JStr v))) (ip_width r) (ip_height r) (ip_sampler r) (ip_scheduler r) (ip_diffusionModel r)).
Proof. reflexivity. Qed.

Lemma image_params_assign_Sampler r v :
  image_params_assign r "Sampler" (Some v) =
  Some (mkImageParams (ip_prompt r) (ip_negativePrompt r) (ip_steps r) (ip_cfgScale r) (ip_seed r) (ip_width r) (ip_height r) (Some v) (ip_scheduler r) (ip_diffusionModel r)).
Proof. reflexivity. Qed.

Lemma image_params_assign_Scheduler r v :
  image_params_assign r "Scheduler" (Some v) =
  Some (mkImageParams (ip_prompt r) (ip_negativePrompt r) (ip_steps r) (ip_cfgScale r) (ip_seed r) (ip_width r) (ip_height r) (ip_sampler r) (Some v) (ip_diffusionModel r)).
Proof. reflexivity. Qed.

Lemma image_params_assign_Model r v :
  image_params_assign r "Model" (Some v) =
  Some (mkImageParams (ip_prompt r) (ip_negativePrompt r) (ip_steps r) (ip_cfgScale r) (ip_seed r) (ip_width r) (ip_height r) (ip_sampler r) (ip_scheduler r) (Some v)).
Proof. reflexivity. Qed.

Lemma image_params_assign_Size r w h :
  sep_free "x" w = true -> sep_free "x" h = true ->
  image_params_assign r "Size" (Some (w +:+ "x" +:+ h)) =
  Some (mkImageParams (ip_prompt r) (ip_negativePrompt r) (ip_steps r)
          (ip_cfgScale r) (ip_seed r)
          (Some (Js.parseInt (Js.JStr w))) (Some (Js.parseInt (Js.JStr h)))
          (ip_sampler r) (ip_scheduler r) (ip_diffusionModel r)).
Proof.
  intros Hw Hh. unfold image_params_assign. eval_eqb.
  cbv beta iota zeta. rewrite split_x by done. reflexivity.
Qed.

Ltac pair_step :=
  rewrite image_params_pair_kv by done;
  rewrite ?image_params_assign_Steps, ?image_params_assign_CFG_scale,
    ?image_params_assign_Seed, ?image_params_assign_Sampler,
    ?image_params_assign_Scheduler, ?image_params_assign_Model,
    ?image_params_assign_Size by done;
  cbn [mbind option_bind ip_prompt ip_negativePrompt ip_steps ip_cfgScale
       ip_seed ip_width ip_height ip_sampler ip_scheduler ip_diffusionModel].

(** X25. A parameters text of three lines, the prompt, the line
    [Negative prompt: N] and the line of the items [Steps], [Sampler],
    [CFG scale], [Seed], [Size] and [Model] joined by [", "], is read
    back field by field: the prompts as written and the numbers as
    [parseInt] and [parseFloat] read them; no scheduler is set.  The
    prompts carry no white space at their ends, no line holds a line
    feed, no item holds [", "], no value holds [": "], and the width
    and the height hold no [x]. *)
Theorem image_params_round_trip P N s sa c sd w h m :
  JsString.trim P = P -> JsString.trim N = N ->
  sep_free newline P = true -> sep_free newline N = true ->
  sep_free newline (String.concat ", " (params_items s sa c sd w h m)) = true ->
  Forall (λ a, sep_free ", " a = true) (params_items s sa c sd w h m) ->
  Forall (λ v, sep_free ": " v = true) [s; sa; c; sd; w +:+ "x" +:+ h; m] ->
  sep_free "x" w = true -> sep_free "x" h = true ->
  image_params_parse (Some (params_text P N (params_items s sa c sd w h m))) =
  Some (mkImageParams (Some P) (Some N)
          (Some (Js.parseInt (Js.JStr s))) (Some (Js.parseFloat (Js.JStr c)))
          (Some (Js.parseInt (Js.JStr sd)))
          (Some (Js.parseInt (Js.JStr w))) (Some (Js.parseInt (Js.JStr h)))
          (Some sa) None (Some m)).
Proof.
  intros HP HN HfP HfN HfL Hitems Hvals Hw Hh.
  rewrite image_params_lines; try done.
  apply Forall_cons in Hvals as [Hs Hvals].
  apply Forall_cons in Hvals as [Hsa Hvals].
  apply Forall_cons in Hvals as [Hc Hvals].
  apply Forall_cons in Hvals as [Hsd Hvals].
  apply Forall_cons in Hvals as [Hwh Hvals].
  apply Forall_cons in Hvals as [Hm _].
  unfold params_items. cbn [foldl mbind option_bind].
  change ("Steps: " +:+ s) with ("Steps" +:+ ": " +:+ s).
  change ("Sampler: " +:+ sa) with ("Sampler" +:+ ": " +:+ sa).
  change ("CFG scale: " +:+ c) with ("CFG scale" +:+ ": " +:+ c).
  change ("Seed: " +:+ sd) with ("Seed" +:+ ": " +:+ sd).
  change ("Size: " +:+ w +:+ "x" +:+ h) with ("Size" +:+ ": " +:+ w +:+ "x" +:+ h).
  change ("Model: " +:+ m) with ("Model" +:+ ": " +:+ m).
  do 6 pair_step. reflexivity.
Qed.

(** X26. A text of one line is taken for the prompt whatever it holds,
    a line of items included: the answer carries the trimmed line as
    the prompt, an empty negative prompt and nothing else. *)
Theorem image_params_single_line T :
  T ≠ "" -> sep_free newline T = true ->
  image_params_parse (Some T) =
  Some (mkImageParams (Some (JsString.trim T)) (Some "")
          None None None None None None None None).
Proof.
  intros Hne Hfree. unfold image_params_parse.
  destruct T as [|c T']; [done |].
  fold newline. unfold JsString.split.
  rewrite split_go_last by (apply no_overlap_char || done).
  reflexivity.
Qed.


End Server.

(** ** The claims at concrete requests *)

(** The command line of the scenario of the specification. *)
Example scenario_command_line :
  tokens (generate_cli_args "/opt/flaxeo" scenario_request ∅
            "/opt/flaxeo/output/gen_1700000000000.png" None None None) =
  ["-m"; "/opt/flaxeo/models/diffusion/sd15.safetensors"; "-p"; "a cat";
   "--steps"; "20"; "--cfg-scale"; "7"; "-W"; "1024"; "-H"; "768";
   "-s"; "42"; "-o"; "/opt/flaxeo/output/gen_1700000000000.png"; "-v"].
Proof. vm_compute. reflexivity. Qed.


Lemma load_modes_exclusive_witness :
  ¬ In "-m" (flags (generate_cli_args "/opt/flaxeo" split_request ∅
                      "/opt/flaxeo/output/gen_1700000000000.png" None None None)) ∧
  ¬ In "--diffusion-model"
      (flags (generate_cli_args "/opt/flaxeo" standard_request ∅
                "/opt/flaxeo/output/gen_1700000000000.png" None None None)).
Proof.
  split.
  - apply (proj1 (load_modes_exclusive "/opt/flaxeo" split_request)
             ltac:(reflexivity) ∅ _ None None None "" None).
  - apply (proj1 (proj2 (load_modes_exclusive "/opt/flaxeo" standard_request))
             ltac:(vm_compute; discriminate) ∅ _ None None None "" None).
Defined.

Lemma falsy_numeric_defaults_witness :
  let args := generate_cli_args "/opt/flaxeo" zero_request ∅
                "/opt/flaxeo/output/gen_1700000000000.png" None None None in
  let form := generate_cli_args "/opt/flaxeo" string_zero_request ∅
                "/opt/flaxeo/output/gen_1700000000000.png" None None None in
  run_of ["-s"; "-1"] (tokens args) ∧ run_of ["--steps"; "20"] (tokens args) ∧
  run_of ["--cfg-scale"; "7"] (tokens args) ∧
  run_of ["-s"; "0"] (tokens form) ∧
  pl_seed (generate_payload zero_request) = -1 ∧
  pl_seed (generate_payload string_zero_request) = -1.
Proof.
  pose proof (falsy_numeric_defaults "/opt/flaxeo" zero_request ∅
                "/opt/flaxeo/output/gen_1700000000000.png" None None None)
    as (H1 & H2 & H3 & _ & _ & _ & _ & H8 & _).
  pose proof (falsy_numeric_defaults "/opt/flaxeo" string_zero_request ∅
                "/opt/flaxeo/output/gen_1700000000000.png" None None None)
    as (_ & _ & _ & _ & H5 & _ & _ & H8' & _).
  split_and!.
  - apply H1. reflexivity.
  - apply H2. reflexivity.
  - apply H3. reflexivity.
  - apply H5. reflexivity.
  - apply H8. left. reflexivity.
  - apply H8'. right. reflexivity.
Defined.

Lemma batch_of_three_seeds_witness :
  batch_seeds "/opt/flaxeo" (batch_request 42) every_reply_an_image clock
              serving_state = [42; 43; 44] ∧
  batch_seeds "/opt/flaxeo" (batch_request (-1)) every_reply_an_image clock
              serving_state = [-1; -1; -1].
Proof.
  split.
  - apply (proj1 (batch_of_three_seeds "/opt/flaxeo" (batch_request 42)
                    every_reply_an_image clock serving_state sd_server
                    eq_refl eq_refl (λ i, ex_intro _ _ eq_refl)) 42);
      [reflexivity | lia | lia | lia | |];
      unfold Js.safe_integer, Js.MAX_SAFE_INTEGER; lia.
  - apply (proj2 (batch_of_three_seeds "/opt/flaxeo" (batch_request (-1))
                    every_reply_an_image clock serving_state sd_server
                    eq_refl eq_refl (λ i, ex_intro _ _ eq_refl))).
    left. reflexivity.
Defined.

Lemma cli_slot_has_no_busy_check_witness :
  ∃ pend st',
    generate_cli_begin "/opt/flaxeo" "linux" parse_names
      (mkReq scenario_request ∅ None None None) 1700000000000 busy_state =
      (Awaiting pend, st') ∧
    cliProcess st' = Some (p_proc pend) ∧
    pid (p_proc pend) = 1%nat ∧
    spawned st' = [first_job; p_proc pend] ∧
    signals st' = [].
Proof.
  apply (proj1 (cli_slot_has_no_busy_check "/opt/flaxeo" "linux" parse_names
                  (mkReq scenario_request ∅ None None None) 1700000000000
                  busy_state first_job eq_refl eq_refl)).
Defined.

Lemma cancel_running_cli_job_witness :
  (∃ job st1,
     generate_cli_begin "/opt/flaxeo" "linux" parse_names
       (mkReq scenario_request ∅ None None None) 1700000000000 idle_state =
       (Awaiting job, st1) ∧
     signals (cancel_cli st1).2 = [(0%nat, "SIGTERM")] ∧
     (generate_cli_settle job (close_event (p_proc job) 0 (cancel_cli st1).2)
                          (cancel_cli st1).2).1 =
       mkResponse 200 [("message", JsonStr "Cancelled")] ∧
     cliProcess
       (generate_cli_settle job (close_event (p_proc job) 0 (cancel_cli st1).2)
                            (cancel_cli st1).2).2 = None) ∧
  (∃ job1 st1 job2 st2,
     generate_cli_begin "/opt/flaxeo" "linux" parse_names
       (mkReq scenario_request ∅ None None None) 1700000000000 idle_state =
       (Awaiting job1, st1) ∧
     generate_cli_begin "/opt/flaxeo" "linux" parse_names
       (mkReq scenario_request ∅ None None None) 1700000000001 st1 =
       (Awaiting job2, st2) ∧
     signals (cancel_cli st2).2 = [(1%nat, "SIGTERM")] ∧
     close_event (p_proc job1) 0 (cancel_cli st2).2 = Closed (Some 0)).
Proof.
  split.
  - eexists _, _. split; [reflexivity |].
    match goal with
    | |- context [generate_cli_settle ?job (close_event _ _ (cancel_cli ?st).2)] =>
        destruct (proj1 (cancel_running_cli_job "/opt/flaxeo" "linux" parse_names)
                    st job 0 "Inpainting" eq_refl)
          as (_ & Hsig & _ & Hresp & Hslot & _)
    end.
    split_and!; [exact Hsig | exact Hresp | exact Hslot].
  - eexists _, _, _, _. split; [reflexivity |]. split; [reflexivity |].
    destruct (proj2 (proj2 (proj2 (proj2 (proj2
                (cancel_running_cli_job "/opt/flaxeo" "linux" parse_names)))))
                (mkReq scenario_request ∅ None None None)
                (mkReq scenario_request ∅ None None None)
                1700000000000 1700000000001 idle_state _ _ _ _ 0
                ltac:(constructor) (or_introl eq_refl) (or_introl eq_refl))
      as (Hsig & _ & Hfirst & _).
    split; [exact Hsig | exact Hfirst].
Defined.

(** C1 as the specification has it does not hold: a request that names a
    model and finds the cli slot busy is not answered at once, and the
    process handle of the slot changes. *)
Lemma busy_cli_slot_counterexample :
  ¬ (∀ r now st p,
       cliProcess st = Some p ->
       ∃ resp st',
         generate_cli_begin "/opt/flaxeo" "linux" parse_names r now st =
           (Responded resp, st') ∧
         cliProcess st' = Some p).
Proof.
  intros H.
  destruct (H (mkReq scenario_request ∅ None None None) 1700000000000
              busy_state first_job eq_refl) as (resp & st' & E & _).
  vm_compute in E. discriminate.
Qed.

(** C4 as the specification has it does not hold: the fixed seed 0 is
    sent as -1 three times. *)
Lemma fixed_seed_counterexample :
  ¬ (∀ S, S ≠ -1 ->
       batch_seeds "/opt/flaxeo" (batch_request S) every_reply_an_image clock
                   serving_state = [S; S + 1; S + 2]).
Proof.
  intros H. specialize (H 0 ltac:(lia)). vm_compute in H. discriminate.
Qed.

(** C7 as the specification has it does not hold: no capacity bounds the
    log buffer. *)
Lemma log_capacity_counterexample :
  ¬ ∃ cap : nat, ∀ chunks,
      (length (serverLogs (cli_output chunks inpaint_job idle_state).2) <= cap)%nat.
Proof.
  intros [cap H]. specialize (H (replicate (S cap) "step")).
  rewrite cli_output_logs in H. simpl in H.
  rewrite length_replicate in H. lia.
Qed.

(** C5 as the specification has it does not hold: the video builder
    emits [--diffusion-model] for a request with the standard load mode. *)
Lemma video_load_mode_counterexample :
  ¬ (∀ b d img out,
       field b "loadMode" ≠ Js.JStr "split" ->
       ¬ In "--diffusion-model"
           (flags (generate_video_args "/opt/flaxeo" b d img out))).
Proof.
  intros H.
  apply (H standard_video_request ∅ None "/opt/flaxeo/output/video_1.mp4").
  - vm_compute. discriminate.
  - vm_compute. tauto.
Qed.

(** C9 as the specification has it does not hold: a job that is running
    but that a later job has displaced from the slot is not ended by the
    cancel request, which signals the later job. *)
Lemma displaced_job_counterexample :
  ¬ (∀ r1 r2 now1 now2 st job1 st1 job2 st2,
       generate_cli_begin "/opt/flaxeo" "linux" parse_names r1 now1 st =
         (Awaiting job1, st1) ->
       generate_cli_begin "/opt/flaxeo" "linux" parse_names r2 now2 st1 =
         (Awaiting job2, st2) ->
       close_event (p_proc job1) 0 (cancel_cli st2).2 = Closed None).
Proof.
  intros H.
  specialize (H (mkReq scenario_request ∅ None None None)
                (mkReq scenario_request ∅ None None None)
                1700000000000 1700000000001 idle_state _ _ _ _ eq_refl eq_refl).
  vm_compute in H. discriminate.
Qed.

(** C10 as the specification has it does not hold: the seed 0 of a
    multipart form is passed on as [-s 0]. *)
Lemma string_zero_seed_counterexample :
  ¬ (∀ b d out k c pm,
       Js.Number_ (field b "seed") = Js.Int 0 ->
       opt_values "-s" (generate_cli_args "/opt/flaxeo" b d out k c pm) = ["-1"]).
Proof.
  intros H.
  specialize (H string_zero_request ∅ "/opt/flaxeo/output/gen_1.png"
                None None None eq_refl).
  vm_compute in H. discriminate.
Qed.

(** ** The further properties at concrete inputs *)

Lemma strings_only_list (l : list (string * Js.JsValue)) :
  Forall (λ kv, ∃ s, kv.2 = Js.JStr s) l -> strings_only (list_to_map l).
Proof.
  intros H k v Hl. apply elem_of_list_to_map_2 in Hl.
  rewrite Forall_forall in H. apply (H (k, v) Hl).
Qed.

Lemma generate_cli_temp_dirs_removed_witness :
  ∃ pend st1,
    generate_cli_begin "/opt/flaxeo" "linux" parse_names kontext_request
      1700000000000 idle_state = (Awaiting pend, st1) ∧
    "/opt/flaxeo/temp/kontext_1699999999000/1699999999000_ref.png"
      ∉ disk (generate_cli_settle pend (Closed (Some 1)) leftover_state).2.
Proof.
  eexists _, _. split; [reflexivity |].
  eapply (generate_cli_temp_dirs_removed "/opt/flaxeo" "linux" parse_names
            kontext_request 1700000000000 idle_state _ _ (Closed (Some 1))
            leftover_state "/opt/flaxeo/temp/kontext_1699999999000").
  - reflexivity.
  - left. reflexivity.
  - discriminate.
  - apply elem_of_union_l, elem_of_singleton. reflexivity.
  - right. reflexivity.
Defined.

Lemma batch_completes_witness :
  let out := generate "/opt/flaxeo" (batch_request 42) every_reply_an_image clock
                      serving_state in
  out.1.1 = json [("message", JsonStr "Complete");
                  ("filenames",
                   JsonList ["gen_1700000000000_0.png"; "gen_1700000000001_1.png";
                             "gen_1700000000002_2.png"])] ∧
  length out.2 = 3%nat.
Proof.
  pose proof (batch_completes "/opt/flaxeo" (batch_request 42) every_reply_an_image
                clock serving_state sd_server eq_refl
                (λ j _, ex_intro _ _ eq_refl)) as (H1 & _ & H3).
  split; [exact H1 | exact H3].
Defined.

Lemma batch_stops_at_first_failure_witness :
  let out := generate "/opt/flaxeo" (batch_request 42) second_reply_fails clock
                      serving_state in
  out.1.1 = status_json 500 [("message", JsonStr "Generation failed");
                             ("error", JsonStr "out of memory")] ∧
  length out.2 = 2%nat.
Proof.
  assert (1 < batch_count (batch_request 42))%nat as Hk by (vm_compute; lia).
  assert (∀ j, (j < 1)%nat -> ∃ x, second_reply_fails (Z.of_nat j) = Image x) as Hr.
  { intros j Hj. assert (j = 0%nat) as -> by lia. eexists. reflexivity. }
  pose proof (batch_stops_at_first_failure "/opt/flaxeo" (batch_request 42)
                second_reply_fails clock serving_state sd_server 1 "out of memory"
                eq_refl Hk Hr eq_refl) as (H1 & _ & H3).
  split; [exact H1 | exact H3].
Defined.

Lemma server_lifecycle_witness :
  status (start "/opt/flaxeo" "linux" standard_request idle_state).1 = 200 ∧
  sdProcess (stop (start "/opt/flaxeo" "linux" standard_request idle_state).2).2
    = None ∧
  signals (stop (start "/opt/flaxeo" "linux" standard_request idle_state).2).2
    = [(0%nat, "SIGTERM")].
Proof.
  pose proof (server_lifecycle "/opt/flaxeo" "linux" standard_request
                standard_request idle_state eq_refl)
    as (H1 & _ & _ & _ & H5 & H6 & _).
  split_and!; [exact H1 | exact H5 | exact H6].
Defined.

Lemma late_close_frees_successor_witness :
  let restarted :=
    (start "/opt/flaxeo" "linux" split_request
       (stop (start "/opt/flaxeo" "linux" standard_request idle_state).2).2).2 in
  (∃ q, sdProcess restarted = Some q ∧ pid q = 1%nat) ∧
  sdProcess (sd_close (Some 0) restarted) = None.
Proof.
  pose proof (late_close_frees_successor "/opt/flaxeo" "linux" standard_request
                split_request standard_request (Some 0) idle_state eq_refl
                ltac:(constructor)) as ((q & Hq & Hpid & _) & H2 & _).
  split; [by exists q | exact H2].
Defined.

Lemma convert_guarded_witness :
  ∃ pend st1,
    convert_begin "/opt/flaxeo" "linux" convert_request installed_state
      = (Awaiting pend, st1) ∧
    argv (p_proc pend) =
      ["-M"; "convert"; "-m"; "/opt/flaxeo/models/diffusion/sd15.safetensors";
       "-o"; "/opt/flaxeo/models/diffusion/sd15-q8_0.gguf"; "--type"; "q8_0"; "-v"] ∧
    cliProcess st1 = None.
Proof.
  eexists _, _. split; [reflexivity |].
  pose proof (convert_guarded "/opt/flaxeo" "linux" convert_request installed_state
                _ _ eq_refl) as (_ & _ & _ & _ & _ & H6 & _ & _ & H9 & _).
  split; [exact H6 | exact H9].
Defined.

Lemma logs_paging_witness :
  logs page_query logging_state =
  json [("logs", JsonList ["step 1"; "step 2"]); ("total", JsonNum 4);
        ("hasMore", JsonBool true)].
Proof.
  apply (logs_paging page_query logging_state); by vm_compute.
Defined.

Lemma inpaint_upload_wins_witness :
  ∃ pend st1,
    inpaint_begin "/opt/flaxeo" "linux"
      (inpaintUpload "/opt/flaxeo" inpaint_upload_request ∅).1 1700000000002
      (set_disk (inpaintUpload "/opt/flaxeo" inpaint_upload_request ∅).2 idle_state)
      = (Awaiting pend, st1) ∧
    run_of ["-i"; "/opt/flaxeo/temp/initImage_1700000000000.png"]
           (argv (p_proc pend)) ∧
    "/opt/flaxeo/temp/initImage_1700000000000.png" ∈ p_uploaded pend.
Proof.
  destruct (inpaint_upload_wins "/opt/flaxeo" "linux" inpaint_upload_request
              1700000000002 idle_state _
              (mkUpload "initImage" "photo.png" 1700000000000)
              eq_refl
              ltac:(apply strings_only_list; repeat constructor; by eexists)
              ltac:(by left) eq_refl)
    as (pend & st1 & args & Hbegin & _ & _ & _ & Hrun & Hup & _).
  by exists pend, st1.
Defined.

Lemma inpaint_without_init_image_witness :
  inpaint_begin "/opt/flaxeo" "linux"
    (inpaintUpload "/opt/flaxeo" mask_only_request ∅).1 1700000000002
    (set_disk (inpaintUpload "/opt/flaxeo" mask_only_request ∅).2 idle_state)
  = (Responded (status_json 400 [("message", JsonStr "Init image required")]),
     set_disk (inpaintUpload "/opt/flaxeo" mask_only_request ∅).2 idle_state).
Proof.
  assert (Forall (λ u, fieldname u ≠ "initImage") (uploads mask_only_request)) as H.
  { repeat constructor. discriminate. }
  exact (proj1 (inpaint_without_init_image "/opt/flaxeo" "linux" mask_only_request
                  1700000000002 idle_state _ eq_refl
                  ltac:(apply strings_only_list; repeat constructor; by eexists)
                  ltac:(intros s E; vm_compute in E; discriminate) H)).
Defined.

Lemma generate_cli_uploads_cleaned_witness :
  ∃ pend st1,
    generate_cli_begin "/opt/flaxeo" "linux" parse_names
      (cliUpload "/opt/flaxeo" pm_upload_request ∅).1 1700000000001
      (set_disk (cliUpload "/opt/flaxeo" pm_upload_request ∅).2 idle_state)
      = (Awaiting pend, st1) ∧
    "/opt/flaxeo/temp/pm_1700000000000/1700000000000_face.png" ∈ disk st1 ∧
    "/opt/flaxeo/temp/pm_1700000000000/1700000000000_face.png"
      ∉ disk (generate_cli_settle pend (Closed (Some 0)) st1).2.
Proof.
  eexists _, _. split; [reflexivity |].
  eapply (generate_cli_uploads_cleaned "/opt/flaxeo" "linux" parse_names
            pm_upload_request 1700000000001 idle_state _ _ (Closed (Some 0)) _
            "pmImages").
  - vm_compute. lia.
  - reflexivity.
  - reflexivity.
  - reflexivity.
  - by left.
Defined.

Lemma complete_names_output_witness :
  ∃ pend st1,
    generate_cli_begin "/opt/flaxeo" "linux" parse_names
      (mkReq scenario_request ∅ None None None) 1700000000000 idle_state
      = (Awaiting pend, st1) ∧
    p_outputPath pend = "/opt/flaxeo/output/gen_1700000000000.png" ∧
    p_filename pend = "gen_1700000000000.png".
Proof.
  eexists _, _. split; [reflexivity |].
  pose proof (complete_names_output "/opt/flaxeo" "linux" parse_names
                (mkReq scenario_request ∅ None None None) 1700000000000
                idle_state _ _ (or_introl eq_refl)) as (_ & H2 & _).
  split; [exact H2 | reflexivity].
Defined.

Lemma findAvailablePort_first_free_witness :
  findAvailablePort two_ports_taken 10 3000 = Some (inr 3002).
Proof.
  apply (findAvailablePort_first_free two_ports_taken 3000 2 10).
  - intros p Hp. unfold two_ports_taken.
    destruct (Z.leb_spec 3000 p); [| lia]. destruct (Z.ltb_spec p 3002); [done | lia].
  - discriminate.
  - lia.
Defined.

Lemma set_active_switches_witness :
  status (set_active "/opt/flaxeo" release_request installed_state).1 = 200.
Proof.
  apply (proj1 (set_active_switches "/opt/flaxeo" "linux" release_request
                  release_request installed_state
                  (or_intror (ex_intro _ "master-abc1234" eq_refl)))).
  split_and!; [discriminate | discriminate |].
  right. left.
  apply elem_of_union_r, elem_of_singleton. reflexivity.
Defined.

Lemma readPngParams_finds_parameters_witness :
  readPngParams
    (Some (PNG_MAGIC ++ chunk_bytes header_chunk ++
           chunk_bytes
             (mkChunk [Byte.x00; Byte.x00; Byte.x00; Byte.x0d] (ascii_bytes "tEXt")
                      (ascii_bytes "parameters" ++ Byte.x00 :: ascii_bytes "hi")
                      [Byte.x00; Byte.x00; Byte.x00; Byte.x00]) ++
           chunk_bytes end_chunk))
  = Some (Some (ascii_bytes "hi")).
Proof.
  apply (readPngParams_finds_parameters [header_chunk]
           [Byte.x00; Byte.x00; Byte.x00; Byte.x0d]
           [Byte.x00; Byte.x00; Byte.x00; Byte.x00]
           (ascii_bytes "hi") (chunk_bytes end_chunk)).
  - repeat constructor.
  - repeat constructor. discriminate.
  - repeat constructor.
  - by vm_compute.
Defined.

Lemma logs_tail_round_trip_witness :
  logs (list_to_map [("since", Js.JStr "4")])
       (sd_output ["EXIT: 0"] logging_state) =
  json [("logs", JsonList ["EXIT: 0"]); ("total", JsonNum 5);
        ("hasMore", JsonBool false)].
Proof.
  apply (logs_tail_round_trip (list_to_map [("since", Js.JStr "4")]) ["EXIT: 0"]
           logging_state); by vm_compute.
Defined.

Lemma uploads_reach_command_line_witness :
  ∃ pend st1,
    generate_cli_begin "/opt/flaxeo" "linux" parse_names
      (cliUpload "/opt/flaxeo" controlnet_upload_request ∅).1 1700000000001
      (set_disk (cliUpload "/opt/flaxeo" controlnet_upload_request ∅).2 idle_state)
      = (Awaiting pend, st1) ∧
    run_of ["--pm-id-images-dir"; "/opt/flaxeo/temp/pm_1700000000000"]
           (argv (p_proc pend)) ∧
    run_of ["--control-image";
            "/opt/flaxeo/temp/pm_1700000000000/1700000000000_pose.png"]
           (argv (p_proc pend)).
Proof.
  destruct (uploads_reach_command_line "/opt/flaxeo" "linux" parse_names
              controlnet_upload_request 1700000000001 idle_state _
              (mkUpload "controlNetImage" "pose.png" 1700000000000)
              eq_refl
              ltac:(apply strings_only_list; repeat constructor; by eexists)
              ltac:(by left) ltac:(discriminate) eq_refl)
    as (pend & st1 & args & dir & p & Hbegin & _ & _ & Hdir & Hp & _ & _ & Hpm & Hc).
  injection Hdir as <-. injection Hp as <-.
  exists pend, st1.
  split_and!; [exact Hbegin | exact (proj2 (Hpm eq_refl))
               | exact (proj2 (Hc eq_refl eq_refl))].
Defined.

Lemma video_init_image_witness :
  ∃ pend st1,
    generate_video_begin "/opt/flaxeo" "linux"
      (videoUpload "/opt/flaxeo" video_upload_request ∅).1 1700000000001
      (set_disk (videoUpload "/opt/flaxeo" video_upload_request ∅).2 idle_state)
      = (Awaiting pend, st1) ∧
    run_of ["-i"; "/opt/flaxeo/temp/video_init_1700000000000.png"]
           (argv (p_proc pend)).
Proof.
  destruct (video_init_image "/opt/flaxeo" "linux" video_upload_request
              1700000000001 idle_state _ eq_refl
              ltac:(apply strings_only_list; repeat constructor; by eexists)
              ltac:(intros s E; vm_compute in E; discriminate))
    as (pend & st1 & args & Hbegin & _ & _ & _ & _ & _ & Hrun).
  by exists pend, st1.
Defined.


Lemma image_params_prefix_check_witness :
  image_params_file "/opt/flaxeo" sibling_request =
  inr "/opt/flaxeo/output_old/a.png".
Proof.
  apply (proj1 (proj2 (image_params_prefix_check "/opt/flaxeo" sibling_request
                         ["opt"; "flaxeo"] ["a.png"]
                         eq_refl ltac:(by repeat constructor)
                         ltac:(by repeat constructor) ltac:(done))) "_old").
  - by repeat split.
  - reflexivity.
Defined.

Lemma cleanup_leaves_server_running_witness :
  ∃ pend st1 srv,
    generate_cli_begin "/opt/flaxeo" "linux" parse_names
      (mkReq scenario_request ∅ None None None) 1700000000000
      (start "/opt/flaxeo" "linux" standard_request idle_state).2
      = (Awaiting pend, st1) ∧
    sdProcess (cleanup st1) = Some srv ∧ pid srv = 0%nat ∧
    signals (cleanup st1) = [(1%nat, "SIGTERM")].
Proof.
  eexists _, _. 
  destruct (cleanup_leaves_server_running "/opt/flaxeo" "linux" parse_names
              standard_request (mkReq scenario_request ∅ None None None)
              1700000000000 idle_state _ _ eq_refl eq_refl)
    as (srv & H1 & H2 & H3 & H4).
  exists srv. split_and!; [reflexivity | exact H1 | exact H2 | exact H4].
Defined.

Lemma image_params_round_trip_witness :
  image_params_parse
    (Some (params_text "a cat on a mat" "blurry, low quality"
             (params_items "20" "Euler a" "7.5" "42" "512" "768" "sd15"))) =
  Some (mkImageParams (Some "a cat on a mat") (Some "blurry, low quality")
          (Some (Js.parseInt (Js.JStr "20"))) (Some (Js.parseFloat (Js.JStr "7.5")))
          (Some (Js.parseInt (Js.JStr "42")))
          (Some (Js.parseInt (Js.JStr "512"))) (Some (Js.parseInt (Js.JStr "768")))
          (Some "Euler a") None (Some "sd15")).
Proof.
  apply image_params_round_trip;
    try reflexivity; by repeat constructor.
Defined.

Lemma image_params_single_line_witness :
  image_params_parse (Some "Steps: 20, Seed: 42") =
  Some (mkImageParams (Some "Steps: 20, Seed: 42") (Some "")
          None None None None None None None None).
Proof.
  apply (image_params_single_line "Steps: 20, Seed: 42"); [done | reflexivity].
Defined.
